(** * Adapter composition engine: LoRA injection points, adapter configuration
      registry and prediction-head dispatch.

    Shallow embedding of
    - [src/transformers/adapters/lora.py]          (LoRA, LoRALayer, Linear, MergedLinear)
    - [src/transformers/adapters/configuration.py] (AdapterConfig, AdapterFusionConfig,
                                                    ModelAdaptersConfig)
    - [src/transformers/adapter_heads.py]          (QuestionAnsweringHead, forward_head)

    Tensors hold exact rationals ([Qc]); Python objects that are mutated in
    place are threaded as explicit state, and a raised exception is a value
    that carries the state the object was left in. *)

From Stdlib Require Import ZArith QArith Qcanon Lia.
From stdpp Require Import gmap strings list fin_maps pretty.

(** ** Exceptions and outcomes *)

(** The messages of the [ValueError]s raised by the modelled code. *)
Inductive value_error :=
| InvalidCompositionMode   (* "Invalid composition mode." *)
| AlreadyMerged            (* "LoRaLayer already has a merged LoRA module. Please reset it first." *)
| InvalidAdapterSetup      (* "Invalid adapter setup. Cannot use ... with LoRA." *)
| AdapterExists            (* "An adapter with the name '...' has already been added." *)
| InvalidConfigIdentifier  (* "Invalid adapter config identifier '...'." *)
| InvalidConfig            (* "Invalid adapter config: ..." *)
| FusionExists             (* "An AdapterFusion with the name '...' has already been added." *)
| InvalidFusionIdentifier  (* "Invalid AdapterFusion config identifier '...'." *)
| InvalidFusionConfig      (* "Invalid AdapterFusion config: ..." *)
| UnknownHeadName          (* "Unknown head_name '...'" *)
| BatchSizeMismatch.       (* torch: "Expected input batch_size to match target batch_size" *)

Inductive exn :=
| ValueError (why : value_error)
| KeyError (key : string)
| TypeError
| AttributeError (attr : string)
| IndexError
| FrozenInstanceError
| RuntimeError.            (* torch: operand shapes do not fit *)

(** Result of a pure computation that may raise. *)
Inductive res (A : Type) :=
| Ok (a : A)
| Err (e : exn).
Arguments Ok {A} a.
Arguments Err {A} e.

#[global] Instance res_ret : MRet res := λ A a, Ok a.
#[global] Instance res_bind : MBind res :=
  λ A B f m, match m with Ok a => f a | Err e => Err e end.

(** Result of a method call on a mutable object of type [S]: the object
    after the call comes with the returned value or the raised exception. *)
Inductive outcome (S A : Type) :=
| Returns (a : A) (s : S)
| Raises (e : exn) (s : S).
Arguments Returns {S A} a s.
Arguments Raises {S A} e s.

Definition final_state {S A} (o : outcome S A) : S :=
  match o with Returns _ s => s | Raises _ s => s end.

Definition raised {S A} (o : outcome S A) : option exn :=
  match o with Returns _ _ => None | Raises e _ => Some e end.

(** ** Python values *)

(** The values that occur in configuration dictionaries and as attribute
    values: scalars, lists of scalars ([leave_out]) and dictionaries of
    scalars (a per-layer [reduction_factor], the v1 [invertible_adapter]
    block).  A [PDict] keeps its items in insertion order. *)
Inductive atom :=
| ANone
| ABool (b : bool)
| AInt (z : Z)
| AFloat (q : Qc)
| AStr (s : string).

Inductive pyval :=
| PAtom (a : atom)
| PList (l : list atom)
| PDict (items : list (string * atom)).

Coercion PAtom : atom >-> pyval.

(** Python truth value testing ([if value:], [not value], [a or b]). *)
Definition truthy_atom (a : atom) : bool :=
  match a with
  | ANone => false
  | ABool b => b
  | AInt z => negb (z =? 0)%Z
  | AFloat q => if decide (q = Q2Qc 0) then false else true
  | AStr s => negb (String.eqb s "")
  end.

Definition truthy (v : pyval) : bool :=
  match v with
  | PAtom a => truthy_atom a
  | PList l => negb (Nat.eqb (length l) 0)
  | PDict items => negb (Nat.eqb (length items) 0)
  end.

(** [d[key]] on an item list: the last binding of a key wins. *)
Fixpoint assoc (key : string) (items : list (string * atom)) : option atom :=
  match items with
  | [] => None
  | (k, v) :: rest =>
      match assoc key rest with
      | Some w => Some w
      | None => if String.eqb k key then Some v else None
      end
  end.

(** [value[key]] for a string key. *)
Definition getitem (value : pyval) (key : string) : res pyval :=
  match value with
  | PDict items =>
      match assoc key items with
      | Some v => Ok (PAtom v)
      | None => Err (KeyError key)
      end
  | _ => Err TypeError
  end.

(** ** Tensors over exact rationals *)

Module Tensor.
Local Open Scope Qc_scope.

Abbreviation vec := (list Qc).
(** A 2-D tensor in row-major order.  A 1-D tensor of length [n] is kept
    as its [1 x n] form, which is how torch aligns it against a 2-D
    operand when broadcasting. *)
Abbreviation matrix := (list (list Qc)).

Definition cols (M : matrix) : nat :=
  match M with [] => 0%nat | row :: _ => length row end.

Definition shape_is (m n : nat) (M : matrix) : bool :=
  Nat.eqb (length M) m && forallb (λ row, Nat.eqb (length row) n) M.

(** [w.T] *)
Definition transpose (M : matrix) : matrix :=
  map (λ j, map (λ row, nth j row 0) M) (seq 0 (cols M)).

(** [t.flatten()], as a [1 x n] tensor *)
Definition flatten (M : matrix) : matrix := [concat M].

Definition dot (u v : vec) : Qc := foldr Qcplus 0 (zip_with Qcmult u v).

(** [a @ b]: the inner dimensions have to agree. *)
Definition matmul (a b : matrix) : res matrix :=
  if forallb (λ row, Nat.eqb (length row) (length b)) a
  then Ok (map (λ row, map (dot row) (transpose b)) a)
  else Err RuntimeError.

(** [t * c] for a scalar [c] *)
Definition smul (t : matrix) (c : Qc) : matrix := map (map (λ a, a * c)) t.

Fixpoint traverse {A B} (f : A → res B) (l : list A) : res (list B) :=
  match l with
  | [] => Ok []
  | a :: l' => b ← f a; bs ← traverse f l'; Ok (b :: bs)
  end.

(** Broadcasting along one dimension: sizes are equal, or one of them is 1. *)
Definition broadcast {A B C} (f : A → B → res C) (u : list A) (v : list B) : res (list C) :=
  if Nat.eqb (length u) (length v) then traverse (λ p, f p.1 p.2) (zip u v)
  else match v, u with
       | [b], _ => traverse (λ a, f a b) u
       | _, [a] => traverse (f a) v
       | _, _ => Err RuntimeError
       end.

(** An elementwise binary operator on two 2-D tensors. *)
Definition elementwise (f : Qc → Qc → Qc) (s t : matrix) : res matrix :=
  broadcast (broadcast (λ a b, Ok (f a b))) s t.

(** [F.linear(x, w, bias)]: [x @ w.T + bias] *)
Definition linear (x w : matrix) (bias : option vec) : res matrix :=
  y ← matmul x (transpose w);
  match bias with
  | None => Ok y
  | Some b => elementwise Qcplus y [b]
  end.

Definition Z2Qc (z : Z) : Qc := Q2Qc (inject_Z z).
End Tensor.
Import Tensor.

(** ** lora.py: class LoRA *)

(** A LoRA module as [LoRA.__init__] leaves it.  [r], [lora_alpha],
    [composition_mode] and [no_decomposition] are copied from the config;
    [lora_A], [lora_B] are the trainable parameters (created when [r > 0],
    and [lora_B] only without [no_decomposition]; the code reads them under
    the same guards).  [lora_dropout] is the dropout applied to the input of
    a forward call.  [enable_lora] and [lora_ind] are the two attributes
    that [MergedLinear.add_adapter] attaches to the module; [lora_ind] is
    attached only when some entry of [enable_lora] is set. *)
Record LoRA := {
  r : Z;
  lora_alpha : Qc;
  composition_mode : string;
  no_decomposition : bool;
  lora_dropout : matrix → matrix;
  lora_A : matrix;
  lora_B : matrix;
  enable_lora : list bool;
  lora_ind : option (list bool)
}.

(** [self.scaling = self.lora_alpha / self.r] *)
Definition scaling (self : LoRA) : Qc := (lora_alpha self / Z2Qc (r self))%Qc.

(** [LoRA.com]: the composition of existing and injected weights. *)
Definition com (self : LoRA) (weights added : matrix) : res matrix :=
  if String.eqb (composition_mode self) "add" then
    elementwise Qcplus weights (smul added (scaling self))
  else if String.eqb (composition_mode self) "scale" then
    elementwise Qcmult weights (smul added (scaling self))
  else Err (ValueError InvalidCompositionMode).

(** [LoRA.com_inv]: written as the inverse of [com].  The division of [Qc]
    is total, [a / 0 = 0], where the tensor library yields an infinity or
    a NaN; in both readings an entry that was scaled by zero is lost. *)
Definition com_inv (self : LoRA) (weights added : matrix) : res matrix :=
  if String.eqb (composition_mode self) "add" then
    elementwise Qcminus weights (smul added (scaling self))
  else if String.eqb (composition_mode self) "scale" then
    elementwise Qcdiv weights (smul added (scaling self))
  else Err (ValueError InvalidCompositionMode).

(** ** lora.py: class LoRALayer *)

(** [self.merged]: [False] after construction, the adapter name after a
    merge, [None] after a reset. *)
Inductive marker :=
| MFalse
| MNone
| MName (name : string).

(** [if self.merged:] *)
Definition marker_truthy (m : marker) : bool :=
  match m with
  | MName name => negb (String.eqb name "")
  | _ => false
  end.

(** [self.merged == name] *)
Definition marker_eq (m : marker) (name : string) : bool :=
  match m with
  | MName n => String.eqb n name
  | _ => false
  end.

(** The state of a [Linear] or [MergedLinear] module: the fields of
    [nn.Linear] and those of [LoRALayer].  [loras] is the [nn.ModuleDict]. *)
Record Layer := {
  in_features : nat;
  out_features : nat;
  weight : matrix;
  bias : option vec;
  fan_in_fan_out : bool;
  loras : gmap string LoRA;
  merged : marker
}.

Definition set_weight (w : matrix) (self : Layer) : Layer :=
  {| in_features := in_features self; out_features := out_features self;
     weight := w; bias := bias self; fan_in_fan_out := fan_in_fan_out self;
     loras := loras self; merged := merged self |}.

Definition set_merged (m : marker) (self : Layer) : Layer :=
  {| in_features := in_features self; out_features := out_features self;
     weight := weight self; bias := bias self; fan_in_fan_out := fan_in_fan_out self;
     loras := loras self; merged := m |}.

Definition set_loras (l : gmap string LoRA) (self : Layer) : Layer :=
  {| in_features := in_features self; out_features := out_features self;
     weight := weight self; bias := bias self; fan_in_fan_out := fan_in_fan_out self;
     loras := l; merged := merged self |}.

(** The local helper [T] of the methods of both classes. *)
Definition T (self : Layer) (w : matrix) : matrix :=
  if fan_in_fan_out self then transpose w else w.

(** [self.loras[key]] *)
Definition loras_getitem (self : Layer) (key : string) : res LoRA :=
  match loras self !! key with
  | Some lora => Ok lora
  | None => Err (KeyError key)
  end.

Module LoRALayer.
(** [LoRALayer.delete_adapter] *)
Definition delete_adapter (adapter_name : string) (self : Layer) : outcome Layer unit :=
  match loras self !! adapter_name with
  | Some _ => Returns () (set_loras (delete adapter_name (loras self)) self)
  | None => Returns () self
  end.

(** [LoRALayer.get_adapter] *)
Definition get_adapter (adapter_name : string) (self : Layer) : option LoRA :=
  loras self !! adapter_name.
End LoRALayer.

(** Runs a tensor computation inside a method: an exception leaves the
    object as it was before the computation. *)
Definition assign_weight (self : Layer) (w : res matrix) (k : Layer → outcome Layer unit)
  : outcome Layer unit :=
  match w with
  | Ok w' => k (set_weight w' self)
  | Err e => Raises e self
  end.

(** ** lora.py: class Linear *)

Module Linear.
(** [Linear._get_lora_shapes]: the shapes of [lora_A] and [lora_B]. *)
Definition _get_lora_shapes (self : Layer) (config_r : Z) : (nat * nat) * (nat * nat) :=
  ((Z.to_nat config_r, in_features self), (out_features self, Z.to_nat config_r)).

(** The [delta_w] of [reset_lora] and [merge_lora]. *)
Definition delta_w (self : Layer) (lora : LoRA) : res matrix :=
  if no_decomposition lora then Ok (flatten (lora_A lora))
  else ba ← matmul (lora_B lora) (lora_A lora); Ok (T self ba).

(** [Linear.reset_lora] *)
Definition reset_lora (self : Layer) : outcome Layer unit :=
  if marker_truthy (merged self) then
    match merged self with
    | MName name =>
        match loras_getitem self name with
        | Err e => Raises e self
        | Ok lora =>
            if (0 <? r lora)%Z then
              assign_weight self (d ← delta_w self lora; com_inv lora (weight self) d)
                (λ self', Returns () (set_merged MNone self'))
            else Returns () (set_merged MNone self)
        end
    | _ => Returns () self
    end
  else Returns () self.

(** [Linear.merge_lora] *)
Definition merge_lora (name : string) (self : Layer) : outcome Layer unit :=
  match loras self !! name with
  | None => Returns () self
  | Some lora =>
      if marker_eq (merged self) name then Returns () self
      else if negb (marker_truthy (merged self)) then
        if (0 <? r lora)%Z then
          assign_weight self (d ← delta_w self lora; com lora (weight self) d)
            (λ self', Returns () (set_merged (MName name) self'))
        else Returns () (set_merged (MName name) self)
      else if negb (marker_eq (merged self) name) then
        Raises (ValueError AlreadyMerged) self
      else Returns () self
  end.

(** [Linear.forward].  [adapter_setup] is what
    [self.get_active_setup(self.loras)] returned: [None], or the active
    composition block as the sequence of the adapter names in it
    ([len(adapter_setup)] is its length, [adapter_setup[0]] its head). *)
Definition forward (self : Layer) (adapter_setup : option (list string)) (x : matrix)
  : res matrix :=
  let plain := linear x (T self (weight self)) (bias self) in
  if negb (marker_truthy (merged self)) then
    match adapter_setup with
    | Some setup =>
        match setup with
        | [name] =>
            result ← plain;
            lora ← loras_getitem self name;
            if (0 <? r lora)%Z then
              d ← (if no_decomposition lora then Ok (flatten (lora_A lora))
                   else xa ← matmul (lora_dropout lora x) (transpose (lora_A lora));
                        matmul xa (transpose (lora_B lora)));
              com lora result d
            else Ok result
        | _ => Err (ValueError InvalidAdapterSetup)
        end
    | None => plain
    end
  else plain.
End Linear.

(** ** lora.py: class MergedLinear *)

Module MergedLinear.
(** [sum(lora.enable_lora)] *)
Definition count_true (l : list bool) : nat := length (filter (λ b, b = true) l).

(** [MergedLinear._get_lora_shapes]; [enabled] is [len(set(config.attn_matrices))]. *)
Definition _get_lora_shapes (self : Layer) (config_r : Z) (enabled : nat)
  : (nat * nat) * (nat * nat) :=
  ((Z.to_nat config_r * enabled, in_features self)%nat,
   (out_features self / 3 * enabled, Z.to_nat config_r)%nat).

(** [F.conv1d(input, weight.unsqueeze(-1), groups=groups)] for a kernel of
    size one: output channel [j] of group [k] is the combination, by row
    [j] of [weight], of the input channels of group [k]. *)
Definition conv1d (input weight : matrix) (groups : nat) : res matrix :=
  let c_in := length input in
  let c_out := length weight in
  if Nat.eqb groups 0
     || negb (Nat.eqb (c_in mod groups) 0)
     || negb (Nat.eqb (c_out mod groups) 0)
     || negb (forallb (λ row, Nat.eqb (length row) (c_in / groups)) weight)
  then Err RuntimeError
  else Ok (imap (λ j row,
             let k := (j / (c_out / groups))%nat in
             let group := take (c_in / groups) (drop (k * (c_in / groups)) input) in
             map (dot row) (transpose group)) weight).

(** [x.reshape(-1, width)] *)
Definition reshape (width : nat) (x : matrix) : res matrix :=
  let flat := concat x in
  if Nat.eqb width 0 || negb (Nat.eqb (length flat mod width) 0) then Err RuntimeError
  else Ok (map (λ i, take width (drop (i * width) flat)) (seq 0 (length flat / width))).

(** The value of an indexed assignment is broadcast to the indexed block. *)
Definition expand_to {A} (n : nat) (l : list A) : res (list A) :=
  if Nat.eqb (length l) n then Ok l
  else match l with
       | [a] => Ok (replicate n a)
       | _ => Err RuntimeError
       end.

(** [row[mask] = ys] on a row filled with [fill] *)
Fixpoint scatter (fill : Qc) (mask : list bool) (ys : vec) : vec :=
  match mask with
  | [] => []
  | true :: mask' => default fill (head ys) :: scatter fill mask' (tail ys)
  | false :: mask' => fill :: scatter fill mask' ys
  end.

(** [MergedLinear.zero_pad] on a 2-D tensor [x].  [enable_lora] has the
    three entries for q, k and v. *)
Definition zero_pad (self : Layer) (x : matrix) (lora : LoRA) : res matrix :=
  let fill := if String.eqb (composition_mode lora) "add" then Q2Qc 0 else Q2Qc 1 in
  let width := (out_features self / length (enable_lora lora)
                * count_true (enable_lora lora))%nat in
  y ← reshape width x;
  ind ← match lora_ind lora with
        | Some ind => Ok ind
        | None => Err (AttributeError "lora_ind")
        end;
  if negb (Nat.eqb (length ind) (out_features self)) then Err IndexError
  else
    rows ← expand_to (length x) y;
    block ← traverse (expand_to (count_true ind)) rows;
    Ok (map (scatter fill ind) block).

(** [any(lora.enable_lora)] *)
Definition any (l : list bool) : bool := existsb (λ b, b) l.

(** The [delta_w] of [reset_lora] and [merge_lora]. *)
Definition delta_w (self : Layer) (lora : LoRA) : res matrix :=
  if no_decomposition lora then Ok (flatten (lora_A lora))
  else d ← conv1d (lora_A lora) (lora_B lora) (count_true (enable_lora lora));
       Ok (T self d).

(** [MergedLinear.reset_lora] *)
Definition reset_lora (self : Layer) : outcome Layer unit :=
  if marker_truthy (merged self) then
    match merged self with
    | MName name =>
        match loras_getitem self name with
        | Err e => Raises e self
        | Ok lora =>
            if (0 <? r lora)%Z && any (enable_lora lora) then
              assign_weight self
                (d ← delta_w self lora; p ← zero_pad self d lora;
                 com_inv lora (weight self) p)
                (λ self', Returns () (set_merged MNone self'))
            else Returns () (set_merged MNone self)
        end
    | _ => Returns () self
    end
  else Returns () self.

(** [MergedLinear.merge_lora] *)
Definition merge_lora (name : string) (self : Layer) : outcome Layer unit :=
  match loras self !! name with
  | None => Returns () self
  | Some lora =>
      if marker_eq (merged self) name then Returns () self
      else if negb (marker_truthy (merged self)) then
        if (0 <? r lora)%Z && any (enable_lora lora) then
          assign_weight self
            (d ← delta_w self lora; p ← zero_pad self d lora;
             com lora (weight self) p)
            (λ self', Returns () (set_merged (MName name) self'))
        else Returns () (set_merged (MName name) self)
      else if negb (marker_eq (merged self) name) then
        Raises (ValueError AlreadyMerged) self
      else Returns () self
  end.

(** [MergedLinear.forward]; [adapter_setup] as in [Linear.forward]. *)
Definition forward (self : Layer) (adapter_setup : option (list string)) (x : matrix)
  : res matrix :=
  let plain := linear x (T self (weight self)) (bias self) in
  if negb (marker_truthy (merged self)) then
    match adapter_setup with
    | Some setup =>
        match setup with
        | [name] =>
            result ← plain;
            lora ← loras_getitem self name;
            if (0 <? r lora)%Z then
              d ← (if no_decomposition lora then Ok (flatten (lora_A lora))
                   else after_A ← linear (lora_dropout lora x) (lora_A lora) None;
                        after_B ← conv1d (transpose after_A) (lora_B lora)
                                    (count_true (enable_lora lora));
                        Ok (transpose after_B));
              p ← zero_pad self d lora;
              com lora result p
            else Ok result
        | _ => Err (ValueError InvalidAdapterSetup)
        end
    | None => plain
    end
  else plain.
End MergedLinear.

(** ** configuration.py: the write-once configuration objects *)

#[global] Instance atom_eq_dec : EqDecision atom.
Proof. solve_decision. Defined.
#[global] Instance pyval_eq_dec : EqDecision pyval.
Proof. solve_decision. Defined.

(** A configuration object is its instance [__dict__]. *)
Abbreviation instance := (gmap string pyval) (only parsing).

(** Runs a setter over a sequence of assignments; the first exception
    stops the sequence and keeps what was assigned before it. *)
Fixpoint assign_all (setattr : string → pyval → instance → outcome instance unit)
    (items : list (string * pyval)) (self : instance) : outcome instance unit :=
  match items with
  | [] => Returns () self
  | (k, v) :: rest =>
      match setattr k v self with
      | Returns _ self' => assign_all setattr rest self'
      | Raises e self' => Raises e self'
      end
  end.

(** The arguments of a dataclass [__init__]: a keyword for every declared
    field ([None] stands for a field without default) and no others. *)
Definition bind_fields (fields : list (string * option pyval)) (kwargs : instance)
  : res (list (string * pyval)) :=
  if bool_decide (dom kwargs ⊆ list_to_set (fields.*1)) then
    traverse (λ f : string * option pyval,
                match kwargs !! f.1, f.2 with
                | Some v, _ => Ok (f.1, v)
                | None, Some d => Ok (f.1, d)
                | None, None => Err TypeError
                end) fields
  else Err TypeError.

(** The [__init__] that [@dataclass] generates: it assigns the fields in
    declaration order to the fresh object, through the class's
    [__setattr__]. *)
Definition dataclass_init (setattr : string → pyval → instance → outcome instance unit)
    (fields : list (string * option pyval)) (kwargs : instance) : outcome instance unit :=
  match bind_fields fields kwargs with
  | Ok items => assign_all setattr items ∅
  | Err e => Raises e ∅
  end.

Module AdapterConfig.
(** [AdapterConfig.__setattr__] *)
Definition __setattr__ (name : string) (value : pyval) (self : instance)
  : outcome instance unit :=
  match self !! name with
  | Some _ => Raises FrozenInstanceError self
  | None =>
      if String.eqb name "invertible_adapter" then
        if truthy value then
          match getitem value "block_type" with
          | Err e => Raises e self
          | Ok block_type =>
              let self1 := <["inv_adapter" := block_type]> self in
              match getitem value "reduction_factor" with
              | Err e => Raises e self1
              | Ok reduction_factor =>
                  Returns () (<["inv_adapter_reduction_factor" := reduction_factor]> self1)
              end
          end
        else Returns () self
      else Returns () (<[name := value]> self)
  end.

(** [AdapterConfig.__delattr__] *)
Definition __delattr__ (name : string) (self : instance) : outcome instance unit :=
  Raises FrozenInstanceError self.

(** [AdapterConfig.__getitem__] *)
Definition __getitem__ (key : string) (self : instance) : res pyval :=
  match self !! key with
  | Some v => Ok v
  | None => Err (KeyError key)
  end.

(** The declared fields with their defaults; the first ten have none. *)
Definition fields : list (string * option pyval) :=
  [ ("original_ln_before", None); ("original_ln_after", None);
    ("residual_before_ln", None); ("adapter_residual_before_ln", None);
    ("ln_before", None); ("ln_after", None);
    ("mh_adapter", None); ("output_adapter", None);
    ("non_linearity", None); ("reduction_factor", None);
    ("inv_adapter", Some (PAtom ANone));
    ("inv_adapter_reduction_factor", Some (PAtom ANone));
    ("cross_adapter", Some (PAtom (ABool false)));
    ("leave_out", Some (PList []));
    ("phm_layer", Some (PAtom (ABool false)));
    ("phm_dim", Some (PAtom ANone));
    ("factorized_phm_W", Some (PAtom (ABool true)));
    ("shared_W_phm", Some (PAtom (ABool false)));
    ("shared_phm_rule", Some (PAtom (ABool true)));
    ("factorized_phm_rule", Some (PAtom (ABool false)));
    ("phm_c_init", Some (PAtom (AStr "normal")));
    ("phm_init_range", Some (PAtom (AFloat (Q2Qc (1 # 10000)))));
    ("learn_phm", Some (PAtom (ABool true)));
    ("hypercomplex_nonlinearity", Some (PAtom (AStr "glorot-uniform"))) ].

(** A subclass redeclares fields with new defaults, in place. *)
Definition redeclare (overrides : list (string * pyval))
    (base : list (string * option pyval)) : list (string * option pyval) :=
  map (λ f : string * option pyval,
         match (list_to_map overrides : instance) !! f.1 with
         | Some d => (f.1, Some d)
         | None => f
         end) base.

Definition PfeifferConfig_fields : list (string * option pyval) :=
  redeclare
    [ ("original_ln_before", PAtom (ABool true)); ("original_ln_after", PAtom (ABool true));
      ("residual_before_ln", PAtom (ABool true));
      ("adapter_residual_before_ln", PAtom (ABool false));
      ("ln_before", PAtom (ABool false)); ("ln_after", PAtom (ABool false));
      ("mh_adapter", PAtom (ABool false)); ("output_adapter", PAtom (ABool true));
      ("non_linearity", PAtom (AStr "relu")); ("reduction_factor", PAtom (AInt 16)) ]
    fields.

Definition HoulsbyConfig_fields : list (string * option pyval) :=
  redeclare
    [ ("original_ln_before", PAtom (ABool false)); ("original_ln_after", PAtom (ABool true));
      ("residual_before_ln", PAtom (ABool true));
      ("adapter_residual_before_ln", PAtom (ABool false));
      ("ln_before", PAtom (ABool false)); ("ln_after", PAtom (ABool false));
      ("mh_adapter", PAtom (ABool true)); ("output_adapter", PAtom (ABool true));
      ("non_linearity", PAtom (AStr "swish")); ("reduction_factor", PAtom (AInt 16)) ]
    fields.

Definition inv_overrides : list (string * pyval) :=
  [ ("inv_adapter", PAtom (AStr "nice")); ("inv_adapter_reduction_factor", PAtom (AInt 2)) ].

Definition PfeifferInvConfig_fields := redeclare inv_overrides PfeifferConfig_fields.
Definition HoulsbyInvConfig_fields := redeclare inv_overrides HoulsbyConfig_fields.

(** The constructor call of a class with the given fields *)
Definition __init__ (cls_fields : list (string * option pyval)) (kwargs : instance)
  : outcome instance unit :=
  dataclass_init __setattr__ cls_fields kwargs.

(** [AdapterConfig.from_dict] on a dictionary: the declared fields go to
    the constructor, the other keys are set on the new object. *)
Definition from_dict (cls_fields : list (string * option pyval))
    (config : list (string * pyval)) : outcome instance unit :=
  let declared (kv : string * pyval) := bool_decide (kv.1 ∈ cls_fields.*1) in
  let defined_kwargs := filter (λ kv, declared kv = true) config in
  let new_kwargs := filter (λ kv, declared kv = false) config in
  match __init__ cls_fields (list_to_map defined_kwargs) with
  | Returns _ obj => assign_all __setattr__ new_kwargs obj
  | Raises e obj => Raises e obj
  end.
End AdapterConfig.

Module AdapterFusionConfig.
(** [AdapterFusionConfig.__setattr__] *)
Definition __setattr__ (name : string) (value : pyval) (self : instance)
  : outcome instance unit :=
  match self !! name with
  | Some _ => Raises FrozenInstanceError self
  | None => Returns () (<[name := value]> self)
  end.

(** [AdapterFusionConfig.__delattr__] *)
Definition __delattr__ (name : string) (self : instance) : outcome instance unit :=
  Raises FrozenInstanceError self.

Definition fields : list (string * option pyval) :=
  [ ("key", None); ("query", None); ("value", None); ("query_before_ln", None);
    ("regularization", None); ("residual_before", None); ("temperature", None);
    ("value_before_softmax", None); ("value_initialized", None) ].

Definition flags (key query value query_before_ln regularization residual_before
                  temperature value_before_softmax value_initialized : bool)
  : list (string * option pyval) :=
  AdapterConfig.redeclare
    [ ("key", PAtom (ABool key)); ("query", PAtom (ABool query));
      ("value", PAtom (ABool value)); ("query_before_ln", PAtom (ABool query_before_ln));
      ("regularization", PAtom (ABool regularization));
      ("residual_before", PAtom (ABool residual_before));
      ("temperature", PAtom (ABool temperature));
      ("value_before_softmax", PAtom (ABool value_before_softmax));
      ("value_initialized", PAtom (ABool value_initialized)) ]
    fields.

Definition StaticAdapterFusionConfig_fields :=
  flags true true false false false false false true false.
Definition DynamicAdapterFusionConfig_fields :=
  flags true true true false true false false true true.

Definition __init__ (cls_fields : list (string * option pyval)) (kwargs : instance)
  : outcome instance unit :=
  dataclass_init __setattr__ cls_fields kwargs.
End AdapterFusionConfig.

(** ** configuration.py: class ModelAdaptersConfig *)

(** What a config map holds under a config name: a configuration mapping,
    or the name of another configuration. *)
Inductive config_value :=
| VStr (s : string)
| VMapping (m : instance).

(** The [config] argument of [add] and [add_fusion]. *)
Inductive config_arg :=
| ConfigNone
| ConfigStr (s : string)
| ConfigMapping (m : instance)
| ConfigOther.                 (* any object that is no string and no Mapping *)

(** The [fusion_name] argument of [get_fusion] and [add_fusion]. *)
Inductive fusion_name_arg :=
| FusionStr (s : string)
| FusionList (names : list string).

Record ModelAdaptersConfig := {
  adapters : gmap string string;
  config_map : gmap string config_value;
  fusions : gmap string string;
  fusion_config_map : gmap string config_value
}.

Definition constructed (o : outcome instance unit) : instance := final_state o.

Definition ADAPTER_CONFIG_MAP : gmap string instance :=
  list_to_map
    [ ("pfeiffer", constructed (AdapterConfig.__init__ AdapterConfig.PfeifferConfig_fields ∅));
      ("houlsby", constructed (AdapterConfig.__init__ AdapterConfig.HoulsbyConfig_fields ∅));
      ("pfeiffer+inv",
        constructed (AdapterConfig.__init__ AdapterConfig.PfeifferInvConfig_fields ∅));
      ("houlsby+inv",
        constructed (AdapterConfig.__init__ AdapterConfig.HoulsbyInvConfig_fields ∅)) ].

Definition DEFAULT_ADAPTER_CONFIG : string := "pfeiffer".

Definition ADAPTERFUSION_CONFIG_MAP : gmap string instance :=
  list_to_map
    [ ("static", constructed (AdapterFusionConfig.__init__
                                AdapterFusionConfig.StaticAdapterFusionConfig_fields ∅));
      ("dynamic", constructed (AdapterFusionConfig.__init__
                                 AdapterFusionConfig.DynamicAdapterFusionConfig_fields ∅)) ].

Definition DEFAULT_ADAPTERFUSION_CONFIG : string := "dynamic".

(** [",".join(fusion_name)] when the name is given as a list *)
Definition fusion_key (fusion_name : fusion_name_arg) : string :=
  match fusion_name with
  | FusionStr s => s
  | FusionList names => String.concat "," names
  end.

Definition has_key {A} (key : string) (m : gmap string A) : bool :=
  bool_decide (is_Some (m !! key)).

(** [ModelAdaptersConfig.get] *)
Definition get (adapter_name : string) (self : ModelAdaptersConfig) : res (option instance) :=
  match adapters self !! adapter_name with
  | Some config_name =>
      let config :=
        match config_map self !! config_name with
        | Some c => Some c
        | None => VMapping <$> (ADAPTER_CONFIG_MAP !! config_name)
        end in
      match config with
      | Some (VStr s) =>
          match ADAPTER_CONFIG_MAP !! s with
          | Some c => Ok (Some c)
          | None => Err (KeyError s)
          end
      | Some (VMapping c) => Ok (Some c)
      | None => Ok None
      end
  | None => Ok None
  end.

(** [ModelAdaptersConfig.get_fusion] *)
Definition get_fusion (fusion_name : fusion_name_arg) (self : ModelAdaptersConfig)
  : option config_value :=
  let fusion_name := fusion_key fusion_name in
  match fusions self !! fusion_name with
  | Some config_name =>
      match fusion_config_map self !! config_name with
      | Some c => Some c
      | None => VMapping <$> (ADAPTERFUSION_CONFIG_MAP !! config_name)
      end
  | None => None
  end.

Section Registry.
(** The digest function behind the configuration hash. *)
Variable digest : list (string * pyval) → string.

(** Modelled from the spec: [get_adapter_config_hash] of the [utils]
    module, which is not part of the sources at hand.  The spec describes
    it as a stable content hash over the canonicalized field order: the
    digest is taken of the items of the mapping in the one order that
    depends on its content only. *)
Definition get_adapter_config_hash (config : instance) : string :=
  digest (map_to_list config).

(** [ModelAdaptersConfig.add] *)
Definition add (adapter_name : string) (config : config_arg) (self : ModelAdaptersConfig)
  : outcome ModelAdaptersConfig unit :=
  if has_key adapter_name (adapters self) then Raises (ValueError AdapterExists) self
  else
    let config := match config with
                  | ConfigNone => ConfigStr DEFAULT_ADAPTER_CONFIG
                  | c => c
                  end in
    match config with
    | ConfigStr s =>
        if negb (has_key s ADAPTER_CONFIG_MAP) && negb (has_key s (config_map self))
        then Raises (ValueError InvalidConfigIdentifier) self
        else Returns ()
               {| adapters := <[adapter_name := s]> (adapters self);
                  config_map := config_map self;
                  fusions := fusions self;
                  fusion_config_map := fusion_config_map self |}
    | ConfigMapping m =>
        let config_name := get_adapter_config_hash m in
        Returns ()
          {| adapters := <[adapter_name := config_name]> (adapters self);
             config_map := <[config_name := VMapping m]> (config_map self);
             fusions := fusions self;
             fusion_config_map := fusion_config_map self |}
    | _ => Raises (ValueError InvalidConfig) self
    end.

(** [ModelAdaptersConfig.add_fusion] *)
Definition add_fusion (fusion_name : fusion_name_arg) (config : config_arg)
    (self : ModelAdaptersConfig) : outcome ModelAdaptersConfig unit :=
  let fusion_name := fusion_key fusion_name in
  if has_key fusion_name (fusions self) then Raises (ValueError FusionExists) self
  else
    let config := match config with
                  | ConfigNone => ConfigStr DEFAULT_ADAPTERFUSION_CONFIG
                  | c => c
                  end in
    match config with
    | ConfigStr s =>
        if negb (has_key s ADAPTERFUSION_CONFIG_MAP)
           && negb (has_key s (fusion_config_map self))
        then Raises (ValueError InvalidFusionIdentifier) self
        else Returns ()
               {| adapters := adapters self;
                  config_map := config_map self;
                  fusions := <[fusion_name := s]> (fusions self);
                  fusion_config_map := fusion_config_map self |}
    | ConfigMapping m =>
        let config_name := get_adapter_config_hash m in
        Returns ()
          {| adapters := adapters self;
             config_map := config_map self;
             fusions := <[fusion_name := config_name]> (fusions self);
             fusion_config_map := <[config_name := VMapping m]> (fusion_config_map self) |}
    | _ => Raises (ValueError InvalidFusionConfig) self
    end.
End Registry.

(** The names of a fusion in sorted order, as the spec words the fusion
    key ("the sorted, comma-joined tuple of constituent adapter names"). *)
Fixpoint insert_sorted (name : string) (names : list string) : list string :=
  match names with
  | [] => [name]
  | n :: rest => if String.leb name n then name :: names else n :: insert_sorted name rest
  end.

Definition sorted_names (names : list string) : list string :=
  foldr insert_sorted [] names.

Definition sorted_fusion_key (names : list string) : string :=
  String.concat "," (sorted_names names).

(** ** adapter_heads.py: head dispatch *)

Module Heads.

Section HeadDispatch.
(** [outputs] is what the base model hands to the heads, [args] the
    remaining arguments of a head call ([cls_output], [attention_mask],
    [return_dict] and the keyword arguments). *)
Context {outputs args : Type}.

(** The part of [ModelWithFlexibleHeadsAdaptersMixin] that
    [forward_head] reads: the head table and the active head. *)
Record Model := {
  heads : gmap string (outputs → args → res outputs);
  active_head : option string
}.

(** [a or b] on two values that are [None] or a string *)
Definition py_or (a b : option string) : option string :=
  match a with
  | Some s => if String.eqb s "" then b else Some s
  | None => b
  end.

(** [not a] *)
Definition py_not (a : option string) : bool :=
  match a with
  | Some s => String.eqb s ""
  | None => true
  end.

(** [ModelWithFlexibleHeadsAdaptersMixin.forward_head] *)
Definition forward_head (self : Model) (all_outputs : outputs)
    (head_name : option string) (a : args) : res outputs :=
  let head_name := py_or head_name (active_head self) in
  if py_not head_name then Ok all_outputs
  else
    match head_name with
    | Some name =>
        match heads self !! name with
        | None => Err (ValueError UnknownHeadName)
        | Some head => head all_outputs a
        end
    | None => Ok all_outputs
    end.

(** The head name a call dispatches on: the value of
    [head_name or self.active_head] when it is a name, that is neither
    [None] nor empty. *)
Definition resolved_head_name (self : Model) (head_name : option string)
  : option string :=
  let name := py_or head_name (active_head self) in
  if py_not name then None else name.
End HeadDispatch.

(** *** class QuestionAnsweringHead *)

(** A tensor of label positions: [(batch,)] or [(batch, k)]. *)
Inductive labels :=
| Labels1 (l : list Z)
| Labels2 (l : list (list Z)).

(** [len(t.size()) > 1] *)
Definition more_than_one_dim (t : labels) : bool :=
  match t with Labels1 _ => false | Labels2 _ => true end.

(** [t.squeeze(-1)]: drops the last dimension when its size is one. *)
Definition squeeze_last (t : labels) : labels :=
  match t with
  | Labels1 l => Labels1 l
  | Labels2 rows =>
      if forallb (λ row, Nat.eqb (length row) 1) rows
      then Labels1 (map (λ row, hd 0%Z row) rows)
      else Labels2 rows
  end.

(** [torch.clamp] of one entry: [min(max(x, lo), hi)] *)
Definition clamp (lo hi x : Z) : Z := Z.min (Z.max x lo) hi.

(** [t.clamp_(lo, hi)] *)
Definition clamp_ (lo hi : Z) (t : labels) : labels :=
  match t with
  | Labels1 l => Labels1 (map (clamp lo hi) l)
  | Labels2 rows => Labels2 (map (map (clamp lo hi)) rows)
  end.

(** A scalar of the tensor library: a number, or not a number. *)
Inductive scalar :=
| Num (q : Qc)
| NaN.

Definition scalar_add (a b : scalar) : scalar :=
  match a, b with
  | Num x, Num y => Num (x + y)%Qc
  | _, _ => NaN
  end.

(** [a / n] for a positive integer [n] *)
Definition scalar_div (a : scalar) (n : positive) : scalar :=
  match a with
  | Num x => Num (x / Z2Qc (Z.pos n))%Qc
  | NaN => NaN
  end.

Record qa_output := {
  loss : option scalar;
  start_logits : matrix;
  end_logits : matrix
}.

Section QuestionAnswering.
(** The cross-entropy of one row of logits against a class index (the
    negated log-softmax of the row at that index): a function of the
    tensor library. *)
Variable nll : vec → nat → Qc.

(** The term of one example under [CrossEntropyLoss(ignore_index)]:
    none for the ignored index. *)
Definition loss_term (ignore_index : Z) (row : vec) (c : Z) : res (option Qc) :=
  if (c =? ignore_index)%Z then Ok None
  else if (0 <=? c)%Z && (c <? Z.of_nat (length row))%Z then Ok (Some (nll row (Z.to_nat c)))
  else Err IndexError.

(** The mean of the terms; of no terms it is [0 / 0]. *)
Definition mean (terms : list Qc) : scalar :=
  match terms with
  | [] => NaN
  | _ => Num (foldr Qcplus (Q2Qc 0) terms / Z2Qc (Z.of_nat (length terms)))%Qc
  end.

(** [CrossEntropyLoss(ignore_index=ignore_index)(input, target)] with
    the default mean over the examples that are not ignored. *)
Definition cross_entropy (ignore_index : Z) (input : matrix) (target : labels)
  : res scalar :=
  match target with
  | Labels2 _ => Err RuntimeError
  | Labels1 t =>
      if negb (Nat.eqb (length input) (length t)) then Err (ValueError BatchSizeMismatch)
      else
        terms ← traverse (λ p : vec * Z, loss_term ignore_index p.1 p.2) (zip input t);
        Ok (mean (omap id terms))
  end.

(** [QuestionAnsweringHead.forward] from the logits of the head's
    layers on ([num_labels = 2]: a start and an end logit for every
    position).  The result comes with the two label tensors as the
    call leaves them, since [clamp_] works in place. *)
Definition forward (logits : list (list (Qc * Qc)))
    (start_positions end_positions : option labels)
  : res (qa_output * option labels * option labels) :=
  let start_logits := map (map fst) logits in
  let end_logits := map (map snd) logits in
  match start_positions, end_positions with
  | Some start_positions, Some end_positions =>
      let start_positions :=
        if more_than_one_dim start_positions then squeeze_last start_positions
        else start_positions in
      let end_positions :=
        if more_than_one_dim end_positions then squeeze_last end_positions
        else end_positions in
      let ignored_index := Z.of_nat (cols start_logits) in
      let start_positions := clamp_ 0 ignored_index start_positions in
      let end_positions := clamp_ 0 ignored_index end_positions in
      start_loss ← cross_entropy ignored_index start_logits start_positions;
      end_loss ← cross_entropy ignored_index end_logits end_positions;
      let total_loss := scalar_div (scalar_add start_loss end_loss) 2 in
      Ok ({| loss := Some total_loss; start_logits := start_logits;
             end_logits := end_logits |},
          Some start_positions, Some end_positions)
  | _, _ =>
      Ok ({| loss := None; start_logits := start_logits; end_logits := end_logits |},
          start_positions, end_positions)
  end.
End QuestionAnswering.
End Heads.

(** * Specification predicates *)

(** The shape of the stored weight: [nn.Linear] creates it as
    [(out_features, in_features)] and the constructors of [Linear] and
    [MergedLinear] store its transpose under [fan_in_fan_out]. *)
Definition weight_shape (self : Layer) : nat * nat :=
  if fan_in_fan_out self then (in_features self, out_features self)
  else (out_features self, in_features self).

(** The tensors of an injection point and of one of its LoRA modules have
    the shapes that the constructors give them: the weight as above,
    [lora_A] and [lora_B] as [Linear._get_lora_shapes] says.  Under
    [no_decomposition] (rank one, no [lora_B]) the flattened [lora_A] is
    laid along the rows of the stored weight, which have to be of its
    length.  Dimensions are positive. *)
Definition well_shaped (self : Layer) (lora : LoRA) : bool :=
  let shapes := Linear._get_lora_shapes self (r lora) in
  shape_is (weight_shape self).1 (weight_shape self).2 (weight self)
  && shape_is shapes.1.1 shapes.1.2 (lora_A lora)
  && (if no_decomposition lora
      then (r lora =? 1)%Z
           && (negb (fan_in_fan_out self) || Nat.eqb (in_features self) (out_features self))
      else shape_is shapes.2.1 shapes.2.2 (lora_B lora))
  && Nat.ltb 0 (in_features self) && Nat.ltb 0 (out_features self).

(** No entry of a tensor is zero. *)
Definition nowhere_zero (t : matrix) : Prop :=
  Forall (Forall (λ a : Qc, a ≠ Q2Qc 0)) t.

(** The composition of a module can be undone: it adds, or it scales by
    an update [delta_w * scaling] without a zero entry. *)
Definition invertible_update (self : Layer) (lora : LoRA) : Prop :=
  composition_mode lora = "add"
  ∨ (composition_mode lora = "scale"
     ∧ ∃ d, Linear.delta_w self lora = Ok d ∧ nowhere_zero (smul d (scaling lora))).

(** A tensor [d] can be combined with the entries of an [m x n] tensor:
    it has that shape, or it is one row of length [n]. *)
Definition fits (m n : nat) (d : matrix) : Prop :=
  shape_is m n d = true ∨ ∃ row, d = [row] ∧ length row = n.


(** A computation does not end in the error of an invalid adapter setup
    (the spec's [CompositionError]). *)
Definition no_setup_error {A} (m : res A) : Prop :=
  m ≠ Err (ValueError InvalidAdapterSetup).

(** The [config] argument of [add_fusion] is accepted: it is a mapping, or
    [None] (the default name), or a name known to one of the two fusion
    config maps. *)
Definition valid_fusion_config (self : ModelAdaptersConfig) (config : config_arg) : bool :=
  match config with
  | ConfigNone => true
  | ConfigStr s => has_key s ADAPTERFUSION_CONFIG_MAP || has_key s (fusion_config_map self)
  | ConfigMapping _ => true
  | ConfigOther => false
  end.

(** * Further parts of the three modules *)

(** ** Exceptions with a message *)

(** The exceptions of the code below: those above, and the [ValueError]s
    and [AttributeError]s that are told apart by their message. *)
Inductive pyexn :=
| PyExn (e : exn)
| PyValueError (message : string)
| PyAttributeError (message : string).

(** A returned value or a raised exception. *)
Inductive try (A : Type) :=
| Value (a : A)
| Exception (e : pyexn).
Arguments Value {A} a.
Arguments Exception {A} e.

#[global] Instance try_ret : MRet try := λ A a, Value a.
#[global] Instance try_bind : MBind try :=
  λ A B f m, match m with Value a => f a | Exception e => Exception e end.

Definition lift {A} (m : res A) : try A :=
  match m with Ok a => Value a | Err e => Exception (PyExn e) end.

(** ** lora.py: the constructor of LoRA and add_adapter *)

(** The attributes of a [LoRAConfig] that lora.py reads. *)
Module LoRAConfig.
Record t := {
  r : Z;
  alpha : Qc;
  composition_mode : string;
  no_decomposition : bool;
  dropout : Qc;
  init_weights : string;
  attn_matrices : list string
}.
End LoRAConfig.

(** [torch.zeros(shape)] *)
Definition zeros (shape : nat * nat) : matrix :=
  replicate shape.1 (replicate shape.2 (Q2Qc 0)).

Section AddAdapter.
(** The values that an initialiser of [nn.init] draws for a parameter:
    [draw init param shape] for the initialisation [init] ("lora": Kaiming
    uniform, "bert": normal) of the parameter [param] of the given shape. *)
Variable draw : string → string → nat * nat → matrix.
(** [nn.Dropout(p)]: the function that the module applies in a forward
    call, or the exception of its constructor. *)
Variable nn_Dropout : Qc → try (matrix → matrix).
(** The keys that [nn.ModuleDict] accepts for a module, and the exception
    that it raises for another key. *)
Variable module_name_ok : string → bool.
Variable module_name_error : string → pyexn.

(** [LoRA.__init__].  A parameter that is not created is kept empty. *)
Definition LoRA__init__ (lora_A_shape lora_B_shape : nat * nat) (config : LoRAConfig.t)
  : try LoRA :=
  lora_dropout ← (if decide (Q2Qc 0 < LoRAConfig.dropout config)%Qc
                  then nn_Dropout (LoRAConfig.dropout config)
                  else Value (λ x, x));
  let with_parameters (a b : matrix) :=
    {| r := LoRAConfig.r config;
       lora_alpha := LoRAConfig.alpha config;
       composition_mode := LoRAConfig.composition_mode config;
       no_decomposition := LoRAConfig.no_decomposition config;
       lora_dropout := lora_dropout;
       lora_A := a; lora_B := b; enable_lora := []; lora_ind := None |} in
  if (1 <? LoRAConfig.r config)%Z && LoRAConfig.no_decomposition config then
    Exception (PyValueError "Can only use 'no_decomposition' when r == 1.")
  else if (0 <? LoRAConfig.r config)%Z then
    if String.eqb (LoRAConfig.init_weights config) "lora" then
      Value (with_parameters (draw "lora" "lora_A" lora_A_shape)
               (if LoRAConfig.no_decomposition config then [] else zeros lora_B_shape))
    else if String.eqb (LoRAConfig.init_weights config) "bert" then
      Value (with_parameters (draw "bert" "lora_A" lora_A_shape)
               (if LoRAConfig.no_decomposition config then []
                else draw "bert" "lora_B" lora_B_shape))
    else Exception (PyValueError
                      ("Unknown init_weights type: " ++ LoRAConfig.init_weights config))
  else Value (with_parameters [] []).

(** [LoRALayer.add_adapter], for the [_check_lora_location] and
    [_get_lora_shapes] of the class.  [matched] is what
    [self.config.adapters.match(...)] returned for the adapter name. *)
Definition LoRALayer_add_adapter (_check_lora_location : LoRAConfig.t → bool)
    (_get_lora_shapes : LoRAConfig.t → (nat * nat) * (nat * nat))
    (matched : option LoRAConfig.t) (adapter_name : string) (self : Layer)
  : try bool * Layer :=
  match matched with
  | Some lora_config =>
      if _check_lora_location lora_config then
        match LoRA__init__ (_get_lora_shapes lora_config).1
                (_get_lora_shapes lora_config).2 lora_config with
        | Exception e => (Exception e, self)
        | Value lora =>
            if module_name_ok adapter_name
            then (Value true, set_loras (<[adapter_name := lora]> (loras self)) self)
            else (Exception (module_name_error adapter_name), self)
        end
      else (Value false, self)
  | None => (Value false, self)
  end.

(** [Linear.add_adapter]: [LoRALayer.add_adapter] with the location check
    [self.attn_key in config.attn_matrices] of [Linear]. *)
Definition Linear_add_adapter (attn_key : option string)
    (matched : option LoRAConfig.t) (adapter_name : string) (self : Layer)
  : try bool * Layer :=
  LoRALayer_add_adapter
    (λ config, match attn_key with
               | Some key => bool_decide (key ∈ LoRAConfig.attn_matrices config)
               | None => false
               end)
    (λ config, Linear._get_lora_shapes self (LoRAConfig.r config))
    matched adapter_name self.

(** The index mask of [MergedLinear.add_adapter]: the output features
    viewed as one block for each entry of [enable], which takes a number
    of output features that the blocks divide; a block is set when its
    matrix is enabled. *)
Definition lora_ind_mask (out_features : nat) (enable : list bool) : try (list bool) :=
  if negb (Nat.eqb (out_features mod length enable) 0)
  then Exception (PyExn RuntimeError)
  else Value (concat (map (replicate (out_features / length enable)) enable)).

(** [MergedLinear.add_adapter]; it has no [return] statement. *)
Definition MergedLinear_add_adapter (matched : option LoRAConfig.t)
    (adapter_name : string) (self : Layer) : try unit * Layer :=
  match LoRALayer_add_adapter (λ _, true)
          (λ config, MergedLinear._get_lora_shapes self (LoRAConfig.r config)
                       (length (remove_dups (LoRAConfig.attn_matrices config))))
          matched adapter_name self with
  | (Exception e, self') => (Exception e, self')
  | (Value is_added, self') =>
      if is_added then
        match matched, loras self' !! adapter_name with
        | Some lora_config, Some lora =>
            let enable := [ bool_decide ("q" ∈ LoRAConfig.attn_matrices lora_config);
                            bool_decide ("k" ∈ LoRAConfig.attn_matrices lora_config);
                            bool_decide ("v" ∈ LoRAConfig.attn_matrices lora_config) ] in
            let with_ind (ind : option (list bool)) :=
              {| r := r lora; lora_alpha := lora_alpha lora;
                 composition_mode := composition_mode lora;
                 no_decomposition := no_decomposition lora;
                 lora_dropout := lora_dropout lora;
                 lora_A := lora_A lora; lora_B := lora_B lora;
                 enable_lora := enable; lora_ind := ind |} in
            let enabled := set_loras (<[adapter_name := with_ind None]> (loras self')) self' in
            if MergedLinear.any enable then
              match lora_ind_mask (out_features self') enable with
              | Value ind =>
                  (Value (),
                   set_loras (<[adapter_name := with_ind (Some ind)]> (loras self')) self')
              | Exception e => (Exception e, enabled)
              end
            else (Value (), enabled)
        | _, _ => (Exception (PyExn (KeyError adapter_name)), self')
        end
      else (Value (), self')
  end.
End AddAdapter.

(** The rows of the product [b @ a] of two tensors whose inner dimensions
    agree. *)
Definition product_rows (a b : matrix) : matrix :=
  map (λ brow, map (dot brow) (transpose a)) b.

(** ** configuration.py: the other methods of the configuration classes *)

(** [asdict(self)]: the declared fields with their values, in declaration
    order; attributes that are no fields are left out. *)
Definition to_dict (cls_fields : list (string * option pyval)) (self : instance)
  : res (list (string * pyval)) :=
  traverse (λ f : string * option pyval,
              match self !! f.1 with
              | Some v => Ok (f.1, v)
              | None => Err (AttributeError f.1)
              end) cls_fields.

(** [dataclasses.replace(self, changes)]: a new object of the class, built
    by its constructor from the changes and, for the fields they leave
    out, the values of [self]. *)
Definition replace_fields
    (setattr : string → pyval → instance → outcome instance unit)
    (cls_fields : list (string * option pyval)) (changes : instance) (self : instance)
  : outcome instance unit :=
  let kept : res (list (option (string * pyval))) :=
    traverse (λ f : string * option pyval,
                match changes !! f.1, self !! f.1 with
                | Some _, _ => Ok None
                | None, Some v => Ok (Some (f.1, v))
                | None, None => Err (AttributeError f.1)
                end) cls_fields in
  match kept with
  | Err e => Raises e ∅
  | Ok kept =>
      dataclass_init setattr cls_fields
        (changes ∪ list_to_map (omap (λ o : option (string * pyval), o) kept))
  end.

(** The defaults of the fields that have one. *)
Definition field_defaults (cls_fields : list (string * option pyval)) : instance :=
  list_to_map (omap (λ f : string * option pyval, (λ d, (f.1, d)) <$> f.2) cls_fields).

(** The keyword arguments fit the constructor of the class: they name
    declared fields only, and every field without default is given. *)
Definition accepts_kwargs (cls_fields : list (string * option pyval)) (kwargs : instance)
  : bool :=
  bool_decide (dom kwargs ⊆ list_to_set (cls_fields.*1))
  && forallb (λ f : string * option pyval,
                bool_decide (is_Some (kwargs !! f.1)) || bool_decide (is_Some f.2))
       cls_fields.

(** [AdapterConfig.__len__] and [__iter__]: those of the instance
    dictionary. *)
Definition config_len (self : instance) : nat := size self.

(** [Mapping.get(key, None)] on a configuration *)
Definition mapping_get (self : instance) (key : string) : pyval :=
  default (PAtom ANone) (self !! key).

(** *** Equality of Python values *)

(** The numbers among the scalars: [True] and [False] count as [1] and
    [0], an integer and a float compare by value. *)
Definition normal_atom (a : atom) : atom :=
  match a with
  | ABool b => AFloat (if b then Q2Qc 1 else Q2Qc 0)
  | AInt z => AFloat (Z2Qc z)
  | a => a
  end.

(** A value up to what [==] cannot tell apart: numbers by their value, and
    a dictionary by its bindings, whatever their order. *)
Inductive normal :=
| NAtom (a : atom)
| NList (l : list atom)
| NDict (m : gmap string atom).

#[global] Instance normal_eq_dec : EqDecision normal.
Proof. solve_decision. Defined.

Definition normalize (v : pyval) : normal :=
  match v with
  | PAtom a => NAtom (normal_atom a)
  | PList l => NList (map normal_atom l)
  | PDict items => NDict (normal_atom <$> list_to_map (reverse items))
  end.

(** [v == w] *)
Definition py_eq (v w : pyval) : bool := bool_decide (normalize v = normalize w).

(** *** ModelAdaptersConfig *)

(** [ModelAdaptersConfig.__contains__] *)
Definition contains (item : string) (self : ModelAdaptersConfig) : bool :=
  has_key item (adapters self).

(** [ModelAdaptersConfig.__len__] *)
Definition registry_len (self : ModelAdaptersConfig) : nat := size (adapters self).

(** The loop of [ModelAdaptersConfig.common_config_value], from index [i]
    on. *)
Fixpoint common_config_loop (self : ModelAdaptersConfig) (attribute : string)
    (i : nat) (adapter_names : list string) (common_value : pyval) : try pyval :=
  match adapter_names with
  | [] => Value common_value
  | name :: rest =>
      config ← lift (get name self);
      match config with
      | Some config =>
          if Nat.eqb (config_len config) 0 then
            Exception (PyValueError
              ("No adapter with name '" ++ name
               ++ "' found. Make sure that an adapter with this name is loaded."))
          else
            let config_value := mapping_get config attribute in
            if Nat.ltb 0 i && negb (py_eq config_value common_value) then
              Exception (PyValueError
                ("All given adapters must define the same value for config attribute "
                 ++ attribute ++ "."))
            else common_config_loop self attribute (S i) rest config_value
      | None =>
          Exception (PyValueError
            ("No adapter with name '" ++ name
             ++ "' found. Make sure that an adapter with this name is loaded."))
      end
  end.

(** [ModelAdaptersConfig.common_config_value] *)
Definition common_config_value (adapter_names : list string) (attribute : string)
    (self : ModelAdaptersConfig) : try pyval :=
  common_config_loop self attribute 0 adapter_names (PAtom ANone).

(** The value that the constructor gives a field: the keyword argument,
    or else the default. *)
Definition bound_value (kwargs : instance) (f : string * option pyval) : pyval :=
  match kwargs !! f.1 with
  | Some v => v
  | None => default (PAtom ANone) f.2
  end.

(** The declared fields among the attributes of an object. *)
Definition declared_fields (cls_fields : list (string * option pyval)) (self : instance)
  : instance :=
  filter (λ kv : string * pyval, kv.1 ∈ cls_fields.*1) self.

(** The dictionary has a key for every field without default. *)
Definition gives_required (cls_fields : list (string * option pyval))
    (config : list (string * pyval)) : bool :=
  forallb (λ f : string * option pyval,
             bool_decide (f.1 ∈ config.*1) || bool_decide (is_Some f.2)) cls_fields.

(** ** adapter_heads.py: the heads of a model *)

(** *** Python dictionaries in insertion order *)

(** [d[k] = v] on the items of a dictionary: a key that is there keeps its
    place and gets the new value, a new key goes last. *)
Definition dict_set {K V} (same : K → K → bool) (k : K) (v : V) (d : list (K * V))
  : list (K * V) :=
  if existsb (λ kv, same kv.1 k) d
  then map (λ kv, if same kv.1 k then (kv.1, v) else kv) d
  else d ++ [(k, v)].

(** The dictionary that a sequence of assignments builds. *)
Definition dict_of {K V} (same : K → K → bool) (items : list (K * V)) : list (K * V) :=
  foldl (λ d kv, dict_set same kv.1 kv.2 d) [] items.

(** Two scalars are the same dictionary key when they are equal by [==]. *)
Definition same_atom (a b : atom) : bool := bool_decide (normal_atom a = normal_atom b).

(** [value.items()] *)
Definition items_of (value : pyval) : res (list (string * atom)) :=
  match value with
  | PDict items => Ok (dict_of String.eqb items)
  | _ => Err (AttributeError "items")
  end.

(** A value as the integer it is: an integer, or a boolean. *)
Definition int_of (value : pyval) : res Z :=
  match value with
  | PAtom (AInt n) => Ok n
  | PAtom (ABool b) => Ok (if b then 1 else 0)%Z
  | _ => Err TypeError
  end.

(** [range(value)] *)
Definition range (value : pyval) : res (list nat) :=
  n ← int_of value; Ok (seq 0 (Z.to_nat n)).



(** The [config] that the constructors of [ClassificationHead],
    [MultiLabelClassificationHead], [TaggingHead] and
    [QuestionAnsweringHead] set up; [id2label] is [None] or the items of a
    dictionary from identifiers to labels. *)
Definition head_config (head_type : string) (num_labels layers : Z)
    (activation_function : pyval) (id2label : option (list (atom * string))) : instance :=
  let label2id :=
    match id2label with
    | Some (kv :: items) =>
        PDict (dict_of String.eqb
                 (map (λ kv : atom * string, (kv.2, kv.1))
                    (dict_of same_atom (kv :: items))))
    | _ => PAtom ANone
    end in
  <["head_type" := PAtom (AStr head_type)]>
    (<["num_labels" := PAtom (AInt num_labels)]>
       (<["layers" := PAtom (AInt layers)]>
          (<["activation_function" := activation_function]>
             {["label2id" := label2id]}))).

Module FlexibleHeads.
Section Mixin.
Context {outputs args : Type}.
(** The keys that [nn.ModuleDict] accepts for a module, and the exception
    that it raises for another key. *)
Variable module_name_ok : string → bool.
Variable module_name_error : string → pyexn.

(** A prediction head: its name, its [config] and what a call of it
    computes. *)
Record Head := {
  name : string;
  config : instance;
  call : outputs → args → res outputs
}.

(** The state of [ModelWithFlexibleHeadsAdaptersMixin]: the heads, the
    three attributes of the model configuration that the mixin writes,
    and the active head. *)
Record Model := {
  heads : gmap string Head;
  prediction_heads : gmap string instance;
  label2id : pyval;
  id2label : option (list (atom * string));
  _active_head : option string
}.

(** What [forward_head] reads of the model. *)
Definition dispatch (self : Model) : @Heads.Model outputs args :=
  {| Heads.heads := call <$> heads self; Heads.active_head := _active_head self |}.

(** [ModelWithFlexibleHeadsAdaptersMixin.get_labels_dict] *)
Definition get_labels_dict (head_name : option string) (self : Model)
  : try (option (list (atom * string))) :=
  let head_name := match head_name with
                   | None => _active_head self
                   | Some n => Some n
                   end in
  match head_name with
  | None => Exception (PyValueError "No head name given and no active head in the model")
  | Some head_name =>
      match heads self !! head_name with
      | None => Exception (PyExn (KeyError head_name))
      | Some head =>
          match config head !! "label2id" with
          | Some label2id =>
              items ← lift (items_of label2id);
              Value (Some (dict_of same_atom
                             (map (λ kv : string * atom, (kv.2, kv.1)) items)))
          | None => Value None
          end
      end
  end.

(** [ModelWithFlexibleHeadsAdaptersMixin.get_labels] *)
Definition get_labels (head_name : option string) (self : Model)
  : try (option (list string)) :=
  label_dict ← get_labels_dict head_name self;
  match label_dict with
  | None => Value None
  | Some label_dict => Value (Some label_dict.*2)
  end.

(** The setter of the property [active_head] *)
Definition set_active_head (head_name : option string) (self : Model) : try unit * Model :=
  let self := {| heads := heads self; prediction_heads := prediction_heads self;
                 label2id := label2id self; id2label := id2label self;
                 _active_head := head_name |} in
  match head_name with
  | Some name =>
      match heads self !! name with
      | Some head =>
          match config head !! "label2id" with
          | None => (Exception (PyExn (KeyError "label2id")), self)
          | Some value =>
              let self := {| heads := heads self; prediction_heads := prediction_heads self;
                             label2id := value; id2label := id2label self;
                             _active_head := _active_head self |} in
              match get_labels_dict (Some name) self with
              | Exception e => (Exception e, self)
              | Value labels =>
                  (Value (),
                   {| heads := heads self; prediction_heads := prediction_heads self;
                      label2id := label2id self; id2label := labels;
                      _active_head := _active_head self |})
              end
          end
      | None => (Value (), self)
      end
  | None => (Value (), self)
  end.

(** The label map that [add_prediction_head] gives a head without one:
    [LABEL_0], [LABEL_1], ... *)
Definition default_label2id (count : list nat) : pyval :=
  PDict (dict_of String.eqb
           (map (λ num : nat, (("LABEL_" ++ pretty num)%string, AInt (Z.of_nat num)))
              count)).

(** The part of [add_prediction_head] that gives a head without label
    map one, in the [config] of the head: the outcome comes with the
    [config] as it is left. *)
Definition fill_label2id (config : instance) : res unit * instance :=
  let missing := match config !! "label2id" with
                 | None | Some (PAtom ANone) => true
                 | Some _ => false
                 end in
  if missing then
    let from_num_labels :=
      match config !! "num_labels" with
      | Some num_labels =>
          match range num_labels with
          | Ok count => (Ok (), <["label2id" := default_label2id count]> config)
          | Err e => (Err e, config)
          end
      | None => (Ok (), config)
      end in
    match from_num_labels with
    | (Ok _, config) =>
        match config !! "num_choices" with
        | Some num_choices =>
            match range num_choices with
            | Ok count => (Ok (), <["label2id" := default_label2id count]> config)
            | Err e => (Err e, config)
            end
        | None => (Ok (), config)
        end
    | (Err e, config) => (Err e, config)
    end
  else (Ok (), config).

(** [ModelWithFlexibleHeadsAdaptersMixin.add_prediction_head].  The
    [config] of the head is one dictionary, which the head, the table of
    heads and [config.prediction_heads] share. *)
Definition add_prediction_head (head : Head) (overwrite_ok : bool) (self : Model)
  : try unit * Model :=
  if negb (has_key (name head) (heads self)) || overwrite_ok then
    if module_name_ok (name head) then
      let with_config (config : instance) :=
        {| heads := <[name head := {| name := name head; config := config;
                                      call := call head |}]> (heads self);
           prediction_heads := <[name head := config]> (prediction_heads self);
           label2id := label2id self; id2label := id2label self;
           _active_head := _active_head self |} in
      match fill_label2id (config head) with
      | (Err e, config) => (Exception (PyExn e), with_config config)
      | (Ok _, config) => set_active_head (Some (name head)) (with_config config)
      end
    else (Exception (module_name_error (name head)), self)
  else
    (Exception (PyValueError
       ("Model already contains a head with name '" ++ name head
        ++ "'. Use overwrite_ok=True to force overwrite.")), self).
End Mixin.
End FlexibleHeads.

(** The label map of a head of the four classes once it was added: made
    from [id2label] when that is given and not empty, and else from
    [num_labels]. *)
Definition standard_label2id (num_labels : Z) (id2label : option (list (atom * string)))
  : list (string * atom) :=
  match id2label with
  | Some (kv :: items) =>
      dict_of String.eqb
        (map (λ kv : atom * string, (kv.2, kv.1)) (dict_of same_atom (kv :: items)))
  | _ =>
      dict_of String.eqb
        (map (λ num : nat, (("LABEL_" ++ pretty num)%string, AInt (Z.of_nat num)))
           (seq 0 (Z.to_nat num_labels)))
  end.

(** *** class TaggingHead *)

Module TaggingHead.
Import Tensor.

(** What [forward] returns of its own: the loss and the logits. *)
Record output := {
  loss : option Heads.scalar;
  logits : list matrix
}.

(** [t.view(-1, n)] for a tensor with the entries [flat]: rows of [n]
    entries. *)
Definition view_rows (n : Z) (flat : vec) : res matrix :=
  if (0 <? n)%Z && (Z.of_nat (length flat) mod n =? 0)%Z then
    Ok (map (λ i : nat, take (Z.to_nat n) (drop (i * Z.to_nat n) flat))
          (seq 0 (length flat / Z.to_nat n)))
  else Err RuntimeError.

(** [torch.where(condition, x, y)] for 1-D [condition] and [x] and a
    scalar [y] *)
Definition where_ (condition : list bool) (x : list Z) (y : Z) : res (list Z) :=
  broadcast (λ (c : bool) (v : Z), Ok (if c then v else y)) condition x.

(** [CrossEntropyLoss().ignore_index] *)
Definition ignore_index : Z := (-100)%Z.

Section Forward.
(** The cross-entropy of one row of logits against a class index. *)
Variable nll : vec → nat → Qc.

(** [TaggingHead.forward] from the logits of the head's layers on, which
    have the shape [(batch, sequence, classes)]; [labels] and
    [attention_mask] have the shape [(batch, sequence)]. *)
Definition forward (config : instance) (logits : list matrix)
    (labels attention_mask : option (list (list Z))) : res output :=
  let num_labels : res Z :=
    match config !! "num_labels" with
    | Some value => int_of value
    | None => Err (KeyError "num_labels")
    end in
  match labels with
  | Some labels =>
      loss ←
        match attention_mask with
        | Some attention_mask =>
            let active_loss := map (λ m : Z, (m =? 1)%Z) (concat attention_mask) in
            n ← num_labels;
            active_logits ← view_rows n (concat (concat logits));
            active_labels ← where_ active_loss (concat labels) ignore_index;
            Heads.cross_entropy nll ignore_index active_logits (Heads.Labels1 active_labels)
        | None =>
            n ← num_labels;
            rows ← view_rows n (concat (concat logits));
            Heads.cross_entropy nll ignore_index rows (Heads.Labels1 (concat labels))
        end;
      Ok {| loss := Some loss; logits := logits |}
  | None => Ok {| loss := None; logits := logits |}
  end.
End Forward.
End TaggingHead.

(** The entries of [l] at the positions where the attention mask is [1]. *)
Definition active_positions {A} (attention_mask : list Z) (l : list A) : list A :=
  (filter (λ p : A * Z, p.2 = 1%Z) (zip l attention_mask)).*1.

(** The tensors of a [MergedLinear] point and of one of its LoRA modules
    have the shapes that the constructors and [MergedLinear.add_adapter]
    give them: the weight is stored as [(fan_in, fan_out)], the output
    features come in three blocks, of which the module serves at least
    one, [lora_A] and [lora_B] are shaped as [_get_lora_shapes] says for
    the enabled blocks, and [lora_ind] marks the output features of these
    blocks. *)
Definition merged_well_shaped (self : Layer) (lora : LoRA) : bool :=
  let enabled := MergedLinear.count_true (enable_lora lora) in
  let block := (out_features self / 3)%nat in
  let shapes := MergedLinear._get_lora_shapes self (r lora) enabled in
  fan_in_fan_out self
  && Nat.eqb (out_features self) (3 * block) && Nat.ltb 0 block
  && Nat.ltb 0 (in_features self)
  && shape_is (in_features self) (out_features self) (weight self)
  && Nat.eqb (length (enable_lora lora)) 3 && Nat.ltb 0 enabled
  && shape_is shapes.1.1 shapes.1.2 (lora_A lora)
  && shape_is shapes.2.1 shapes.2.2 (lora_B lora)
  && bool_decide (lora_ind lora = Some (concat (map (replicate block) (enable_lora lora)))).

(** * Concrete injection points, configurations and heads *)

Module Examples.
Local Open Scope Qc_scope.

Definition no_dropout (x : matrix) : matrix := x.

(** A tensor with integer entries. *)
Definition ints (t : list (list Z)) : matrix := map (map Z2Qc) t.

(** A rank-one module of a [2 -> 1] projection. *)
Definition lora_with (mode : string) (a b : matrix) : LoRA :=
  {| r := 1; lora_alpha := 2; composition_mode := mode; no_decomposition := false;
     lora_dropout := no_dropout; lora_A := a; lora_B := b;
     enable_lora := []; lora_ind := None |}.

Definition point_with (w : matrix) (modules : gmap string LoRA) (m : marker) : Layer :=
  {| in_features := 2; out_features := 1; weight := w; bias := None;
     fan_in_fan_out := false; loras := modules; merged := m |}.

Definition lora_scale : LoRA := lora_with "scale" (ints [[3; 4]]%Z) (ints [[5]]%Z).
Definition lora_add : LoRA := lora_with "add" (ints [[3; 4]]%Z) (ints [[5]]%Z).
(** [lora_B] as the "lora" initialisation leaves it: all zero. *)
Definition lora_scale_fresh : LoRA := lora_with "scale" (ints [[3; 4]]%Z) (ints [[0]]%Z).

Definition point_scale : Layer := point_with (ints [[1; 2]]%Z) {[ "a" := lora_scale ]} MFalse.
Definition point_fresh (w : matrix) : Layer :=
  point_with w {[ "a" := lora_scale_fresh ]} MFalse.
Definition point_two : Layer :=
  point_with (ints [[1; 2]]%Z) (<[ "b" := lora_add ]> {[ "a" := lora_scale ]}) MFalse.
End Examples.

Module ConfigExamples.
(** [PfeifferConfig()] *)
Definition pfeiffer : instance :=
  constructed (AdapterConfig.__init__ AdapterConfig.PfeifferConfig_fields ∅).

(** [DynamicAdapterFusionConfig()] *)
Definition dynamic : instance :=
  constructed (AdapterFusionConfig.__init__
                 AdapterFusionConfig.DynamicAdapterFusionConfig_fields ∅).

End ConfigExamples.

(** The values of configurations can be enumerated, so that a digest
    without collisions exists: the decimal numeral of the code of the
    items. *)
#[global] Instance atom_countable : Countable atom :=
  inj_countable'
    (λ a : atom, match a with
         | ANone => inl ()
         | ABool b => inr (inl b)
         | AInt z => inr (inr (inl z))
         | AFloat q => inr (inr (inr (inl q)))
         | AStr s => inr (inr (inr (inr s)))
         end)
    (λ c : unit + (bool + (Z + (Qc + string))), match c with
         | inl _ => ANone
         | inr (inl b) => ABool b
         | inr (inr (inl z)) => AInt z
         | inr (inr (inr (inl q))) => AFloat q
         | inr (inr (inr (inr s))) => AStr s
         end)
    (λ a, match a with
          | ANone | ABool _ | AInt _ | AFloat _ | AStr _ => eq_refl
          end).

#[global] Instance pyval_countable : Countable pyval :=
  inj_countable'
    (λ v : pyval, match v with
         | PAtom a => inl a
         | PList l => inr (inl l)
         | PDict items => inr (inr items)
         end)
    (λ c : atom + (list atom + list (string * atom)), match c with
         | inl a => PAtom a
         | inr (inl l) => PList l
         | inr (inr items) => PDict items
         end)
    (λ v, match v with PAtom _ | PList _ | PDict _ => eq_refl end).

Definition numeral_digest (items : list (string * pyval)) : string :=
  pretty (encode items).

Module RegistryExamples.
(** [ModelAdaptersConfig()] *)
Definition fresh : ModelAdaptersConfig :=
  {| adapters := ∅; config_map := ∅; fusions := ∅; fusion_config_map := ∅ |}.

Definition rank8 : instance := {[ "architecture" := PAtom (AStr "lora"); "r" := PAtom (AInt 8) ]}.
End RegistryExamples.

Module HeadExamples.
(** A model whose outputs are numbers, with one registered head. *)
Definition model : @Heads.Model nat unit :=
  {| Heads.heads := {[ "qa" := λ outputs _, Ok (S outputs) ]};
     Heads.active_head := None |}.

(** A stand-in for the cross-entropy of the tensor library: the negated
    logit of the class. *)
Definition negated_logit (row : vec) (c : nat) : Qc := (- nth c row (Q2Qc 0))%Qc.

(** The logits of one sequence of two positions. *)
Definition logits : list (list (Qc * Qc)) :=
  [[ (Z2Qc 1, Z2Qc 2); (Z2Qc 3, Z2Qc 4) ]].
End HeadExamples.

Module MergedExamples.
(** A rank-one module for the query and value thirds of a grouped
    projection with [2] inputs and [3] outputs. *)
Definition lora_qv : LoRA :=
  {| r := 1; lora_alpha := 2; composition_mode := "add"; no_decomposition := false;
     lora_dropout := Examples.no_dropout;
     lora_A := Examples.ints [[1; 2]; [3; 4]]%Z;
     lora_B := Examples.ints [[5]; [6]]%Z;
     enable_lora := [true; false; true];
     lora_ind := Some [true; false; true] |}.

(** The grouped projection, stored as [(fan_in, fan_out)]. *)
Definition point : Layer :=
  {| in_features := 2; out_features := 3;
     weight := Examples.ints [[1; 1; 1]; [2; 2; 2]]%Z; bias := None;
     fan_in_fan_out := true; loras := {[ "qv" := lora_qv ]}; merged := MFalse |}.
End MergedExamples.

Module AddExamples.
(** An initialiser that fills a parameter with ones. *)
Definition ones (init param : string) (shape : nat * nat) : matrix :=
  replicate shape.1 (replicate shape.2 (Q2Qc 1)).

(** Dropout in evaluation: the identity, for a rate up to one. *)
Definition eval_dropout (p : Qc) : try (matrix → matrix) :=
  if decide (p ≤ Q2Qc 1)%Qc then Value (λ x, x)
  else Exception (PyValueError "dropout probability has to be between 0 and 1").

(** A check of module names that refuses the empty one. *)
Definition plain_name (name : string) : bool := negb (String.eqb name "").
Definition name_error (name : string) : pyexn :=
  PyExn (KeyError "module name can't be empty string").

Definition config : LoRAConfig.t :=
  {| LoRAConfig.r := 2; LoRAConfig.alpha := Q2Qc 8;
     LoRAConfig.composition_mode := "add"; LoRAConfig.no_decomposition := false;
     LoRAConfig.dropout := Q2Qc 0; LoRAConfig.init_weights := "lora";
     LoRAConfig.attn_matrices := ["q"; "v"] |}.

(** The query projection of an attention block: [2] inputs, [1] output. *)
Definition query : Layer := Examples.point_with (Examples.ints [[1; 2]]%Z) ∅ MFalse.
End AddExamples.


Module FieldExamples.
(** A [PfeifferConfig()] that was given the custom attribute [task]. *)
Definition tagged : instance := <["task" := PAtom (AStr "ner")]> ConfigExamples.pfeiffer.

End FieldExamples.

Module FlexibleExamples.
(** A model without heads, whose outputs are numbers. *)
Definition bare : @FlexibleHeads.Model nat unit :=
  {| FlexibleHeads.heads := ∅; FlexibleHeads.prediction_heads := ∅;
     FlexibleHeads.label2id := PAtom ANone; FlexibleHeads.id2label := None;
     FlexibleHeads._active_head := None |}.

Definition tags : list (atom * string) := [ (AInt 0, "O"); (AInt 1, "B") ].

(** A tagging head with one layer, with or without the names of its two
    labels. *)
Definition tagger (id2label : option (list (atom * string))) : @FlexibleHeads.Head nat unit :=
  {| FlexibleHeads.name := "ner";
     FlexibleHeads.config := head_config "tagging" 2 1 (PAtom (AStr "tanh")) id2label;
     FlexibleHeads.call := λ outputs _, Ok (S outputs) |}.

(** A custom head whose [config] has the head type only. *)
Definition custom : @FlexibleHeads.Head nat unit :=
  {| FlexibleHeads.name := "probe";
     FlexibleHeads.config := {[ "head_type" := PAtom (AStr "probe") ]};
     FlexibleHeads.call := λ outputs _, Ok outputs |}.
End FlexibleExamples.

Module TaggingExamples.
(** The logits of one sequence of two positions for two classes. *)
Definition logits : list matrix := [ Examples.ints [[1; 2]; [3; 4]]%Z ].

(** The label of the second position is no class. *)
Definition labels : list (list Z) := [ [1; 7] ]%Z.

(** The second position is padding. *)
Definition attention_mask : list (list Z) := [ [1; 0] ]%Z.

Definition config : instance := head_config "tagging" 2 1 (PAtom (AStr "tanh")) None.
End TaggingExamples.

Module SharedExamples.
(** Two adapters of rank 8, of which the second has a scaling factor. *)
Definition registered : ModelAdaptersConfig :=
  {| adapters := {[ "a" := "first"; "b" := "second" ]};
     config_map :=
       {[ "first" := VMapping RegistryExamples.rank8;
          "second" := VMapping (<[ "alpha" := PAtom (AInt 16) ]> RegistryExamples.rank8) ]};
     fusions := ∅; fusion_config_map := ∅ |}.
End SharedExamples.
(** * Tensor lemmas *)

Lemma traverse_pure {A B} (f : A → res B) (g : A → B) (l : list A) :
  (∀ a, a ∈ l → f a = Ok (g a)) → traverse f l = Ok (map g l).
Proof.
  induction l as [|a l IH]; intros Hf; simpl; [done|].
  rewrite (Hf a) by left. simpl.
  rewrite IH; [done|]. intros b Hb. apply Hf. by right.
Qed.

Lemma shape_is_spec m n (M : matrix) :
  shape_is m n M = true ↔ length M = m ∧ Forall (λ row, length row = n) M.
Proof.
  unfold shape_is. rewrite andb_true_iff, Nat.eqb_eq, forallb_forall, Forall_forall.
  split; intros [H1 H2]; split; try done; intros row Hrow.
  - apply Nat.eqb_eq, H2. by apply list_elem_of_In.
  - apply Nat.eqb_eq, H2. by apply list_elem_of_In.
Qed.

Lemma broadcast_rows_same (f : Qc → Qc → Qc) (u v : vec) :
  length u = length v →
  broadcast (λ a b, Ok (f a b)) u v = Ok (zip_with f u v).
Proof.
  intros Hlen. unfold broadcast.
  rewrite (proj2 (Nat.eqb_eq _ _) Hlen).
  rewrite (traverse_pure _ (λ p, f p.1 p.2)) by done.
  f_equal. clear Hlen. revert v. induction u as [|a u IH]; intros [|b v]; simpl; f_equal; auto.
Qed.

Lemma elementwise_same_shape (f : Qc → Qc → Qc) m n (s t : matrix) :
  shape_is m n s = true → shape_is m n t = true →
  elementwise f s t = Ok (zip_with (zip_with f) s t).
Proof.
  rewrite !shape_is_spec. intros [Hs Hsr] [Ht Htr].
  unfold elementwise, broadcast at 1.
  rewrite (proj2 (Nat.eqb_eq _ _)) by congruence.
  rewrite (traverse_pure _ (λ p, zip_with f p.1 p.2)).
  - f_equal. clear. revert t. induction s as [|a s IH]; intros [|b t]; simpl; f_equal; auto.
  - intros [a b] Hab. simpl. apply broadcast_rows_same.
    apply elem_of_zip_l in Hab as Ha. apply elem_of_zip_r in Hab as Hb.
    rewrite Forall_forall in Hsr, Htr. rewrite (Hsr a), (Htr b); done.
Qed.

Lemma elementwise_one_row (f : Qc → Qc → Qc) m n (s : matrix) (d : vec) :
  shape_is m n s = true → length d = n →
  elementwise f s [d] = Ok (map (λ row, zip_with f row d) s).
Proof.
  rewrite shape_is_spec. intros [Hs Hsr] Hd.
  assert (Hrow : ∀ row, row ∈ s → broadcast (λ a b, Ok (f a b)) row d = Ok (zip_with f row d)).
  { intros row Hrow. apply broadcast_rows_same.
    rewrite Forall_forall in Hsr. rewrite (Hsr row); done. }
  unfold elementwise, broadcast at 1.
  destruct (Nat.eqb (length s) (length [d])) eqn:Hlen.
  - apply Nat.eqb_eq in Hlen. destruct s as [|row [|? ?]]; try done. simpl.
    rewrite Hrow by left. done.
  - by apply traverse_pure.
Qed.

Lemma zip_with_undo (f g : Qc → Qc → Qc) (P : Qc → Prop) (u v : vec) :
  (∀ a b, P b → g (f a b) b = a) →
  length u = length v → Forall P v →
  zip_with g (zip_with f u v) v = u.
Proof.
  intros Hgf. revert v. induction u as [|a u IH]; intros [|b v] Hlen HP; try done.
  simpl in *. apply Forall_cons in HP as [Hb HP].
  rewrite Hgf by done. f_equal. apply IH; [lia|done].
Qed.

Lemma zip_with_rows_shape (f : Qc → Qc → Qc) m n (s t : matrix) :
  shape_is m n s = true → shape_is m n t = true →
  shape_is m n (zip_with (zip_with f) s t) = true.
Proof.
  rewrite !shape_is_spec. intros [Hs Hsr] [Ht Htr]. split.
  - rewrite length_zip_with. lia.
  - clear Hs Ht. revert t Htr.
    induction s as [|a s IH]; intros [|b t] Htr; simpl; try by constructor.
    apply Forall_cons in Hsr as [Ha Hsr]. apply Forall_cons in Htr as [Hb Htr].
    constructor; [|by apply IH]. rewrite length_zip_with. lia.
Qed.

Lemma map_row_shape (f : Qc → Qc → Qc) m n (s : matrix) (d : vec) :
  shape_is m n s = true → length d = n →
  shape_is m n (map (λ row, zip_with f row d) s) = true.
Proof.
  rewrite !shape_is_spec. intros [Hs Hsr] Hd. split.
  - by rewrite length_map.
  - apply Forall_map. eapply Forall_impl; [exact Hsr|].
    intros row Hrow. simpl in *. rewrite length_zip_with. lia.
Qed.

Lemma elementwise_undo (f g : Qc → Qc → Qc) (P : Qc → Prop) m n (w d : matrix) :
  (∀ a b, P b → g (f a b) b = a) →
  shape_is m n w = true → fits m n d → Forall (Forall P) d →
  ∃ w', elementwise f w d = Ok w' ∧ elementwise g w' d = Ok w.
Proof.
  intros Hgf Hw [Hd | (row & -> & Hrow)] HP.
  - exists (zip_with (zip_with f) w d). split; [by eapply elementwise_same_shape|].
    rewrite (elementwise_same_shape g m n) by (by try apply zip_with_rows_shape).
    f_equal. apply shape_is_spec in Hw as [Hwl Hwr]. apply shape_is_spec in Hd as [Hdl Hdr].
    assert (Hlen : length w = length d) by lia. clear Hwl Hdl.
    revert d Hdr HP Hlen. induction w as [|a w IH]; intros [|b d] Hdr HP Hlen; try done.
    apply Forall_cons in Hwr as [Ha Hwr]. apply Forall_cons in Hdr as [Hb Hdr].
    apply Forall_cons in HP as [HPb HP]. simpl in *. f_equal.
    + eapply zip_with_undo; [exact Hgf|lia|done].
    + apply IH; try done. lia.
  - exists (map (λ r, zip_with f r row) w). split; [by eapply elementwise_one_row|].
    rewrite (elementwise_one_row g m n) by (by try apply map_row_shape).
    f_equal. rewrite map_map. apply shape_is_spec in Hw as [_ Hwr].
    apply Forall_cons in HP as [HP _].
    induction w as [|a w IH]; [done|]. apply Forall_cons in Hwr as [Ha Hwr].
    simpl. f_equal; [|by apply IH].
    eapply zip_with_undo; [exact Hgf|lia|done].
Qed.

Lemma smul_fits m n (d : matrix) (c : Qc) : fits m n d → fits m n (smul d c).
Proof.
  intros [Hd | (row & -> & Hrow)].
  - left. apply shape_is_spec in Hd as [Hl Hr]. apply shape_is_spec. split.
    + unfold smul. by rewrite length_map.
    + unfold smul. apply Forall_map. eapply Forall_impl; [exact Hr|].
      intros row Hrow. simpl. by rewrite length_map.
  - right. exists (map (λ a, (a * c)%Qc) row). split; [done|]. by rewrite length_map.
Qed.

(** [com_inv] undoes [com] on tensors that fit, when the update can be
    undone at all. *)
Lemma com_inv_com (lora : LoRA) m n (w d : matrix) :
  shape_is m n w = true → fits m n d →
  composition_mode lora = "add"
  ∨ (composition_mode lora = "scale" ∧ nowhere_zero (smul d (scaling lora))) →
  ∃ w', com lora w d = Ok w' ∧ com_inv lora w' d = Ok w.
Proof.
  intros Hw Hd [Hmode | [Hmode Hnz]]; unfold com, com_inv; rewrite Hmode; simpl.
  - apply (elementwise_undo Qcplus Qcminus (λ _, True) m n); auto using smul_fits.
    + intros a b _. ring.
    + apply Forall_forall. intros row _. apply Forall_forall. done.
  - apply (elementwise_undo Qcmult Qcdiv (λ b, b ≠ Q2Qc 0) m n); auto using smul_fits.
    intros a b Hb. by apply Qcdiv_mult_l.
Qed.

Lemma cols_shape m n (M : matrix) : shape_is m n M = true → (0 < m)%nat → cols M = n.
Proof.
  rewrite shape_is_spec. intros [Hl Hr] Hm. destruct M as [|row M]; simpl in *; [lia|].
  by apply Forall_cons in Hr as [? _].
Qed.

Lemma transpose_shape m n (M : matrix) :
  shape_is m n M = true → (0 < m)%nat → shape_is n m (transpose M) = true.
Proof.
  intros HM Hm. pose proof (cols_shape m n M HM Hm) as Hc.
  apply shape_is_spec in HM as [Hl Hr]. apply shape_is_spec. unfold transpose. split.
  - by rewrite length_map, length_seq.
  - apply Forall_map, Forall_forall. intros j _. simpl. by rewrite length_map.
Qed.

Lemma matmul_shape m k n (a b : matrix) :
  shape_is m k a = true → shape_is k n b = true → (0 < k)%nat →
  ∃ c, matmul a b = Ok c ∧ shape_is m n c = true.
Proof.
  intros Ha Hb Hk. pose proof (transpose_shape k n b Hb Hk) as Ht.
  apply shape_is_spec in Ha as [Hal Har]. apply shape_is_spec in Hb as [Hbl Hbr].
  apply shape_is_spec in Ht as [Htl _].
  unfold matmul. rewrite (proj2 (forallb_forall _ a)).
  - eexists. split; [done|]. apply shape_is_spec. split.
    + by rewrite length_map.
    + apply Forall_map, Forall_forall. intros row _. simpl. by rewrite length_map.
  - intros row Hrow. apply Nat.eqb_eq. rewrite Forall_forall in Har.
    rewrite Hbl. apply Har. by apply list_elem_of_In.
Qed.

(** The update of a well-shaped module fits the stored weight. *)
Lemma delta_w_fits (self : Layer) (lora : LoRA) :
  well_shaped self lora = true → (0 < r lora)%Z →
  shape_is (weight_shape self).1 (weight_shape self).2 (weight self) = true
  ∧ ∃ d, Linear.delta_w self lora = Ok d
         ∧ fits (weight_shape self).1 (weight_shape self).2 d.
Proof.
  unfold well_shaped, Linear._get_lora_shapes. simpl.
  rewrite !andb_true_iff. intros [[[[HW HA] HB] Hin] Hout] Hr.
  apply Nat.ltb_lt in Hin, Hout. split; [done|].
  unfold Linear.delta_w. destruct (no_decomposition lora).
  - apply andb_true_iff in HB as [Hr1 Hsq]. apply Z.eqb_eq in Hr1. rewrite Hr1 in HA.
    apply shape_is_spec in HA as [HAl HAr]. simpl in HAl.
    destruct (lora_A lora) as [|row [|? ?]]; try done.
    apply Forall_cons in HAr as [Hrow _].
    eexists. split; [done|]. right. exists row. split.
    + unfold flatten. simpl. by rewrite app_nil_r.
    + unfold weight_shape. destruct (fan_in_fan_out self); simpl in *; [|done].
      apply Nat.eqb_eq in Hsq. lia.
  - destruct (matmul_shape _ _ _ _ _ HB HA) as (ba & -> & Hba); [lia|].
    simpl. eexists. split; [done|]. left. unfold T, weight_shape.
    destruct (fan_in_fan_out self); simpl; [|done].
    by apply transpose_shape.
Qed.

Lemma marker_eq_truthy (m : marker) (name : string) :
  name ≠ "" → marker_eq m name = true → marker_truthy m = true.
Proof.
  destruct m as [| |n]; simpl; try done. intros Hname Heq.
  apply String.eqb_eq in Heq as ->. by apply negb_true_iff, String.eqb_neq.
Qed.

(** * Merging and resetting at a Linear injection point *)

(** [merge_lora] at a point without a merged adapter stores the composed
    weight and marks the adapter. *)
Lemma merge_lora_unmerged (self : Layer) (name : string) (lora : LoRA) (d w' : matrix) :
  loras self !! name = Some lora → name ≠ "" →
  (0 < r lora)%Z →
  marker_truthy (merged self) = false →
  Linear.delta_w self lora = Ok d →
  com lora (weight self) d = Ok w' →
  Linear.merge_lora name self = Returns () (set_merged (MName name) (set_weight w' self)).
Proof.
  intros Hlora Hname Hr Hunmerged Hd Hcom.
  assert (Hne : marker_eq (merged self) name = false).
  { destruct (marker_eq (merged self) name) eqn:E; [|done].
    apply (marker_eq_truthy _ _ Hname) in E. congruence. }
  apply Z.ltb_lt in Hr.
  unfold Linear.merge_lora. rewrite Hlora, Hne, Hunmerged, Hr. simpl.
  rewrite Hd. simpl. by rewrite Hcom.
Qed.

(** [reset_lora] at a point with a merged adapter stores the weight that
    [com_inv] computes and clears the marker. *)
Lemma reset_lora_merged (self : Layer) (name : string) (lora : LoRA) (d w : matrix) :
  loras self !! name = Some lora → name ≠ "" →
  (0 < r lora)%Z →
  merged self = MName name →
  Linear.delta_w self lora = Ok d →
  com_inv lora (weight self) d = Ok w →
  Linear.reset_lora self = Returns () (set_merged MNone (set_weight w self)).
Proof.
  intros Hlora Hname Hr Hmerged Hd Hinv. apply Z.ltb_lt in Hr.
  unfold Linear.reset_lora, loras_getitem. rewrite Hmerged. simpl.
  replace (negb (String.eqb name "")) with true
    by (symmetry; by apply negb_true_iff, String.eqb_neq).
  rewrite Hlora, Hr, Hd. simpl. by rewrite Hinv.
Qed.

(** The update of a module and the weight it composes to, for an update
    that can be undone. *)
Lemma undoable_update (self : Layer) (lora : LoRA) :
  (0 < r lora)%Z → well_shaped self lora = true → invertible_update self lora →
  ∃ d w', Linear.delta_w self lora = Ok d
          ∧ com lora (weight self) d = Ok w'
          ∧ com_inv lora w' d = Ok (weight self).
Proof.
  intros Hr Hshape Hinv.
  destruct (delta_w_fits self lora Hshape Hr) as (HW & d & Hd & Hfits).
  assert (Hmode : composition_mode lora = "add"
                  ∨ (composition_mode lora = "scale" ∧ nowhere_zero (smul d (scaling lora)))).
  { destruct Hinv as [?|(? & d' & Hd' & ?)]; [by left|right].
    rewrite Hd in Hd'. by injection Hd' as <-. }
  destruct (com_inv_com lora _ _ (weight self) d HW Hfits Hmode) as (w' & Hcom & Hinvcom).
  by exists d, w'.
Qed.

Lemma set_weight_back (self : Layer) (m : marker) (w' : matrix) :
  set_merged MNone (set_weight (weight self) (set_merged m (set_weight w' self)))
  = set_merged MNone self.
Proof. by destruct self. Qed.

(** C1 (amended): at a Linear injection point without a merged adapter,
    [merge_lora name] followed by [reset_lora] returns and restores the
    wrapped weight matrix exactly, for every well-shaped adapter of rank
    [r > 0] whose composition can be undone: always in the "add" mode,
    and in the "scale" mode when no entry of [delta_w * scaling] is zero.
    The empty string is no key of the module dictionary. *)
Theorem merge_then_reset_restores (self : Layer) (name : string) (lora : LoRA) :
  loras self !! name = Some lora →
  loras self !! "" = None →
  (0 < r lora)%Z →
  marker_truthy (merged self) = false →
  well_shaped self lora = true →
  invertible_update self lora →
  ∃ merged_layer restored,
    Linear.merge_lora name self = Returns () merged_layer
    ∧ merged merged_layer = MName name
    ∧ Linear.reset_lora merged_layer = Returns () restored
    ∧ weight restored = weight self
    ∧ merged restored = MNone.
Proof.
  intros Hlora Hempty Hr Hunmerged Hshape Hinv.
  assert (Hname : name ≠ "") by (intros ->; congruence).
  destruct (undoable_update self lora Hr Hshape Hinv) as (d & w' & Hd & Hcom & Hback).
  exists (set_merged (MName name) (set_weight w' self)), (set_merged MNone self).
  split; [by eapply merge_lora_unmerged|]. split; [done|].
  split; [|done].
  rewrite <- (set_weight_back self (MName name) w').
  by apply (reset_lora_merged _ name lora d).
Qed.

Lemma merge_then_reset_restores_witness :
  ∃ merged_layer restored,
    Linear.merge_lora "a" Examples.point_scale = Returns () merged_layer
    ∧ merged merged_layer = MName "a"
    ∧ Linear.reset_lora merged_layer = Returns () restored
    ∧ weight restored = weight Examples.point_scale
    ∧ merged restored = MNone.
Proof.
  apply (merge_then_reset_restores Examples.point_scale "a" Examples.lora_scale).
  - reflexivity.
  - reflexivity.
  - reflexivity.
  - reflexivity.
  - reflexivity.
  - right. split; [reflexivity|]. eexists. split; [reflexivity|].
    apply (bool_decide_unpack _). vm_compute. exact I.
Defined.

(** C1, as stated, fails in the "scale" mode: a module whose update has a
    zero entry (here [lora_B] is still zero) scales the weight to zero,
    [reset_lora] does not bring it back, and two different weights are
    merged into the same one, so that nothing could. *)
Lemma merge_then_reset_scale_by_zero :
  let self := Examples.point_fresh (Examples.ints [[1; 2]]%Z) in
  let other := Examples.point_fresh (Examples.ints [[7; 9]]%Z) in
  loras self !! "a" = Some Examples.lora_scale_fresh
  ∧ (0 < r Examples.lora_scale_fresh)%Z
  ∧ well_shaped self Examples.lora_scale_fresh = true
  ∧ (∃ merged_layer restored,
       Linear.merge_lora "a" self = Returns () merged_layer
       ∧ Linear.reset_lora merged_layer = Returns () restored
       ∧ weight restored ≠ weight self)
  ∧ weight self ≠ weight other
  ∧ weight (final_state (Linear.merge_lora "a" self))
    = weight (final_state (Linear.merge_lora "a" other)).
Proof.
  simpl. repeat split; try reflexivity.
  - eexists _, _. split; [reflexivity|]. split; [reflexivity|].
    apply (bool_decide_unpack _). vm_compute. exact I.
  - apply (bool_decide_unpack _). vm_compute. exact I.
Qed.

(** * The errors of a forward call *)

Lemma no_setup_error_ok {A} (a : A) : no_setup_error (Ok a).
Proof. done. Qed.

Lemma no_setup_error_bind {A B} (m : res A) (k : A → res B) :
  no_setup_error m → (∀ a, no_setup_error (k a)) → no_setup_error (m ≫= k).
Proof.
  intros Hm Hk. destruct m as [a|e]; [apply Hk|].
  intros H. apply Hm. cbv in H. congruence.
Qed.

Lemma traverse_no_setup_error {A B} (f : A → res B) (l : list A) :
  (∀ a, no_setup_error (f a)) → no_setup_error (traverse f l).
Proof.
  intros Hf. induction l as [|a l IH]; simpl; [done|].
  apply no_setup_error_bind; [done|]. intros b.
  apply no_setup_error_bind; [done|]. done.
Qed.

Lemma broadcast_no_setup_error {A B C} (f : A → B → res C) (u : list A) (v : list B) :
  (∀ a b, no_setup_error (f a b)) → no_setup_error (broadcast f u v).
Proof.
  intros Hf. unfold broadcast. destruct (Nat.eqb _ _).
  - by apply traverse_no_setup_error.
  - destruct v as [|b [|? ?]]; destruct u as [|a [|? ?]];
      try done; by apply traverse_no_setup_error.
Qed.

Lemma elementwise_no_setup_error (f : Qc → Qc → Qc) (s t : matrix) :
  no_setup_error (elementwise f s t).
Proof.
  apply broadcast_no_setup_error. intros a b.
  apply broadcast_no_setup_error. done.
Qed.

Lemma matmul_no_setup_error (a b : matrix) : no_setup_error (matmul a b).
Proof. unfold matmul. by destruct (forallb _ _). Qed.

Lemma linear_no_setup_error (x w : matrix) (b : option vec) :
  no_setup_error (linear x w b).
Proof.
  apply no_setup_error_bind; [apply matmul_no_setup_error|].
  intros y. destruct b; [apply elementwise_no_setup_error|done].
Qed.

Lemma com_no_setup_error (lora : LoRA) (w d : matrix) : no_setup_error (com lora w d).
Proof.
  unfold com. repeat case_match; try done; apply elementwise_no_setup_error.
Qed.

Lemma conv1d_no_setup_error (input weight : matrix) (groups : nat) :
  no_setup_error (MergedLinear.conv1d input weight groups).
Proof. unfold MergedLinear.conv1d. by case_match. Qed.

Lemma expand_to_no_setup_error {A} (n : nat) (l : list A) :
  no_setup_error (MergedLinear.expand_to n l).
Proof. unfold MergedLinear.expand_to. by repeat case_match. Qed.

Lemma zero_pad_no_setup_error (self : Layer) (x : matrix) (lora : LoRA) :
  no_setup_error (MergedLinear.zero_pad self x lora).
Proof.
  unfold MergedLinear.zero_pad.
  apply no_setup_error_bind; [unfold MergedLinear.reshape; by case_match|]. intros y.
  apply no_setup_error_bind; [by case_match|]. intros ind.
  case_match; [done|].
  apply no_setup_error_bind; [apply expand_to_no_setup_error|]. intros rows.
  apply no_setup_error_bind; [|done].
  apply traverse_no_setup_error. intros row. apply expand_to_no_setup_error.
Qed.

Create HintDb setup.
#[local] Hint Resolve no_setup_error_ok matmul_no_setup_error linear_no_setup_error
  com_no_setup_error elementwise_no_setup_error conv1d_no_setup_error
  zero_pad_no_setup_error : setup.



(** * Forward calls at a point with a merged adapter *)

(** C10: while an adapter is merged, the forward call of [Linear] and of
    [MergedLinear] is the plain linear transform of the stored (merged)
    weight, whatever the active adapter setup is; in particular it does not
    raise the invalid-setup error. *)
Theorem forward_while_merged (self : Layer) (adapter_setup : option (list string))
    (x : matrix) :
  marker_truthy (merged self) = true →
  Linear.forward self adapter_setup x = linear x (T self (weight self)) (bias self)
  ∧ MergedLinear.forward self adapter_setup x = linear x (T self (weight self)) (bias self)
  ∧ no_setup_error (Linear.forward self adapter_setup x)
  ∧ no_setup_error (MergedLinear.forward self adapter_setup x).
Proof.
  intros Hmerged. unfold Linear.forward, MergedLinear.forward. rewrite Hmerged. simpl.
  repeat split; auto with setup.
Qed.

Lemma forward_while_merged_witness :
  let self := set_merged (MName "a") Examples.point_two in
  let x := Examples.ints [[1; 1]]%Z in
  Linear.forward self (Some ["a"; "b"]) x = linear x (T self (weight self)) (bias self)
  ∧ MergedLinear.forward self (Some ["a"; "b"]) x = linear x (T self (weight self)) (bias self)
  ∧ no_setup_error (Linear.forward self (Some ["a"; "b"]) x)
  ∧ no_setup_error (MergedLinear.forward self (Some ["a"; "b"]) x).
Proof.
  apply (forward_while_merged (set_merged (MName "a") Examples.point_two)).
  reflexivity.
Defined.

(** * Merging while another adapter is merged *)

(** C4: at a point where adapter [a] is merged, [merge_lora b] for another
    adapter [b] present at the point raises the already-merged error and
    leaves the layer, with its weight, as it was; this holds for [Linear]
    and [MergedLinear].  A call of [merge_lora b] that returns has found
    [b] itself merged (and done nothing) or no adapter merged. *)
Theorem merge_while_other_merged (self : Layer) (a b : string) :
  merged self = MName a → a ≠ "" → b ≠ a → is_Some (loras self !! b) →
  Linear.merge_lora b self = Raises (ValueError AlreadyMerged) self
  ∧ MergedLinear.merge_lora b self = Raises (ValueError AlreadyMerged) self
  ∧ weight (final_state (Linear.merge_lora b self)) = weight self
  ∧ weight (final_state (MergedLinear.merge_lora b self)) = weight self
  ∧ (∀ other : Layer, merged other ≠ MName b → is_Some (loras other !! b) →
       (raised (Linear.merge_lora b other) = None
        ∨ raised (MergedLinear.merge_lora b other) = None) →
       marker_truthy (merged other) = false).
Proof.
  intros Hmerged Ha Hba [lora Hlora].
  assert (Heq : marker_eq (merged self) b = false).
  { rewrite Hmerged. simpl. apply String.eqb_neq. congruence. }
  assert (Htruthy : marker_truthy (merged self) = true).
  { rewrite Hmerged. simpl. by apply negb_true_iff, String.eqb_neq. }
  assert (HL : Linear.merge_lora b self = Raises (ValueError AlreadyMerged) self).
  { unfold Linear.merge_lora. by rewrite Hlora, Heq, Htruthy. }
  assert (HM : MergedLinear.merge_lora b self = Raises (ValueError AlreadyMerged) self).
  { unfold MergedLinear.merge_lora. by rewrite Hlora, Heq, Htruthy. }
  rewrite HL, HM. repeat split; try done.
  intros other Hother [lora' Hlora'] Hret.
  assert (Hneq : marker_eq (merged other) b = false).
  { destruct (merged other) as [| |n]; try done. simpl.
    apply String.eqb_neq. congruence. }
  destruct (marker_truthy (merged other)) eqn:E; [|done]. exfalso.
  unfold Linear.merge_lora, MergedLinear.merge_lora in Hret.
  rewrite Hlora', Hneq, E in Hret. simpl in Hret. by destruct Hret.
Qed.

Lemma merge_while_other_merged_witness :
  let self := set_merged (MName "a") Examples.point_two in
  Linear.merge_lora "b" self = Raises (ValueError AlreadyMerged) self
  ∧ MergedLinear.merge_lora "b" self = Raises (ValueError AlreadyMerged) self
  ∧ weight (final_state (Linear.merge_lora "b" self)) = weight self
  ∧ weight (final_state (MergedLinear.merge_lora "b" self)) = weight self
  ∧ (∀ other : Layer, merged other ≠ MName "b" → is_Some (loras other !! "b") →
       (raised (Linear.merge_lora "b" other) = None
        ∨ raised (MergedLinear.merge_lora "b" other) = None) →
       marker_truthy (merged other) = false).
Proof.
  apply (merge_while_other_merged (set_merged (MName "a") Examples.point_two) "a" "b").
  - reflexivity.
  - discriminate.
  - discriminate.
  - by eexists.
Defined.

(** * Deleting an adapter *)

Lemma delete_adapter_returns (self : Layer) (name : string) :
  ∃ self', LoRALayer.delete_adapter name self = Returns () self'
           ∧ weight self' = weight self
           ∧ merged self' = merged self
           ∧ loras self' = delete name (loras self).
Proof.
  unfold LoRALayer.delete_adapter. destruct (loras self !! name) eqn:E.
  - by eexists.
  - exists self. repeat split. symmetry. by apply delete_id.
Qed.

(** C3, as stated, fails: [delete_adapter] does not unmerge.  Deleting the
    merged adapter ["a"] leaves the merged weight in place and the marker
    on the deleted name. *)
Lemma delete_merged_adapter_keeps_merge :
  ∃ merged_layer deleted,
    Linear.merge_lora "a" Examples.point_scale = Returns () merged_layer
    ∧ merged merged_layer = MName "a"
    ∧ LoRALayer.delete_adapter "a" merged_layer = Returns () deleted
    ∧ loras deleted !! "a" = None
    ∧ weight Examples.point_scale = Examples.ints [[1; 2]]%Z
    ∧ weight deleted = Examples.ints [[30; 80]]%Z
    ∧ weight deleted ≠ weight Examples.point_scale
    ∧ merged deleted = MName "a".
Proof.
  eexists _, _. split; [reflexivity|]. split; [reflexivity|].
  split; [reflexivity|]. split; [reflexivity|]. split; [reflexivity|].
  split; [|split; [|reflexivity]]; apply (bool_decide_unpack _); vm_compute; exact I.
Qed.

(** C3 (amended): [delete_adapter name] removes the module of the adapter
    and leaves the wrapped weight as it finds it; unmerging is the work of
    [reset_lora].  When [reset_lora] is called between [merge_lora name]
    and [delete_adapter name], the wrapped weight after the deletion is the
    weight before the merge, the marker is [None] and the adapter is gone
    (for an update that can be undone, as in C1). *)
Theorem reset_then_delete_restores (self : Layer) (name : string) (lora : LoRA) :
  loras self !! name = Some lora →
  loras self !! "" = None →
  (0 < r lora)%Z →
  marker_truthy (merged self) = false →
  well_shaped self lora = true →
  invertible_update self lora →
  ∃ merged_layer restored deleted,
    Linear.merge_lora name self = Returns () merged_layer
    ∧ Linear.reset_lora merged_layer = Returns () restored
    ∧ LoRALayer.delete_adapter name restored = Returns () deleted
    ∧ weight deleted = weight self
    ∧ merged deleted = MNone
    ∧ loras deleted !! name = None
    ∧ weight (final_state (LoRALayer.delete_adapter name merged_layer))
      = weight merged_layer.
Proof.
  intros Hlora Hempty Hr Hunmerged Hshape Hinv.
  assert (Hname : name ≠ "") by (intros ->; congruence).
  destruct (undoable_update self lora Hr Hshape Hinv) as (d & w' & Hd & Hcom & Hback).
  destruct (delete_adapter_returns (set_merged MNone self) name)
    as (deleted & Hdel & Hw & Hm & Hl).
  exists (set_merged (MName name) (set_weight w' self)), (set_merged MNone self), deleted.
  split; [by eapply merge_lora_unmerged|]. split.
  { rewrite <- (set_weight_back self (MName name) w').
    by apply (reset_lora_merged _ name lora d). }
  split; [done|]. split; [done|]. split; [done|]. split.
  - rewrite Hl. apply lookup_delete_eq.
  - destruct (delete_adapter_returns (set_merged (MName name) (set_weight w' self)) name)
      as (d' & -> & Hw' & _). done.
Qed.

Lemma reset_then_delete_restores_witness :
  ∃ merged_layer restored deleted,
    Linear.merge_lora "a" Examples.point_scale = Returns () merged_layer
    ∧ Linear.reset_lora merged_layer = Returns () restored
    ∧ LoRALayer.delete_adapter "a" restored = Returns () deleted
    ∧ weight deleted = weight Examples.point_scale
    ∧ merged deleted = MNone
    ∧ loras deleted !! "a" = None
    ∧ weight (final_state (LoRALayer.delete_adapter "a" merged_layer))
      = weight merged_layer.
Proof.
  apply (reset_then_delete_restores Examples.point_scale "a" Examples.lora_scale).
  - reflexivity.
  - reflexivity.
  - reflexivity.
  - reflexivity.
  - reflexivity.
  - right. split; [reflexivity|]. eexists. split; [reflexivity|].
    apply (bool_decide_unpack _). vm_compute. exact I.
Defined.

(** * Write-once configuration objects *)




(** * Anonymous configurations in the registry *)





(** * Fusion keys *)

(** C9, as stated, fails: [add_fusion] joins the names in the order in
    which they are given.  The fusion of ["b"] and ["a"] is stored under
    ["b,a"], and a lookup under the sorted names finds nothing. *)
Lemma fusion_key_not_sorted :
  ∃ self',
    add_fusion numeral_digest (FusionList ["b"; "a"]) ConfigNone RegistryExamples.fresh
    = Returns () self'
    ∧ sorted_names ["b"; "a"] = ["a"; "b"]
    ∧ sorted_fusion_key ["b"; "a"] = "a,b"
    ∧ fusions self' !! sorted_fusion_key ["b"; "a"] = None
    ∧ get_fusion (FusionList (sorted_names ["b"; "a"])) self' = None
    ∧ get_fusion (FusionStr (sorted_fusion_key ["b"; "a"])) self' = None
    ∧ fusions self' !! "b,a" = Some "dynamic".
Proof. eexists. repeat split; reflexivity. Qed.

(** C9 (amended): a fusion added by a list of adapter names is stored
    under the names joined with commas in the order given, and a lookup by
    the same list, or by that joined string, finds its configuration. *)
Theorem fusion_stored_under_joined_names (digest : list (string * pyval) → string)
    (self : ModelAdaptersConfig) (names : list string) (config : config_arg) :
  fusions self !! String.concat "," names = None →
  valid_fusion_config self config = true →
  ∃ self' config_name,
    add_fusion digest (FusionList names) config self = Returns () self'
    ∧ fusions self' !! String.concat "," names = Some config_name
    ∧ is_Some (get_fusion (FusionList names) self')
    ∧ get_fusion (FusionStr (String.concat "," names)) self'
      = get_fusion (FusionList names) self'
    ∧ (∀ m, config = ConfigMapping m →
         get_fusion (FusionList names) self' = Some (VMapping m)).
Proof.
  intros Hfree Hvalid. unfold add_fusion, has_key. simpl.
  rewrite bool_decide_eq_false_2 by (rewrite Hfree; by intros [? ?]).
  assert (Hknown : ∀ s (m : gmap string config_value),
            bool_decide (is_Some (ADAPTERFUSION_CONFIG_MAP !! s))
            || bool_decide (is_Some (m !! s)) = true →
            is_Some (match m !! s with
                     | Some c => Some c
                     | None => VMapping <$> ADAPTERFUSION_CONFIG_MAP !! s
                     end)).
  { intros s m H. destruct (m !! s); [by eexists|].
    rewrite orb_true_iff in H. destruct H as [H|H]; apply bool_decide_eq_true in H.
    - destruct H as [c ->]. by eexists.
    - by destruct H. }
  destruct config as [|s|m|]; simpl in Hvalid; try done.
  - eexists _, _. split; [reflexivity|]. unfold get_fusion. simpl.
    rewrite lookup_insert_eq. repeat split; try done. by apply Hknown.
  - unfold has_key in Hvalid.
    replace (negb (bool_decide (is_Some (ADAPTERFUSION_CONFIG_MAP !! s)))
             && negb (bool_decide (is_Some (fusion_config_map self !! s))))
      with false by (rewrite <- negb_orb, Hvalid; done).
    eexists _, _. split; [reflexivity|]. unfold get_fusion. simpl.
    rewrite lookup_insert_eq. repeat split; try done. by apply Hknown.
  - eexists _, _. split; [reflexivity|]. unfold get_fusion. simpl.
    rewrite !lookup_insert_eq. split; [done|]. split; [by eexists|]. split; [done|].
    intros m' Hm. by injection Hm as ->.
Qed.

Lemma fusion_stored_under_joined_names_witness :
  ∃ self' config_name,
    add_fusion numeral_digest (FusionList ["b"; "a"]) (ConfigStr "static")
      RegistryExamples.fresh = Returns () self'
    ∧ fusions self' !! String.concat "," ["b"; "a"] = Some config_name
    ∧ is_Some (get_fusion (FusionList ["b"; "a"]) self')
    ∧ get_fusion (FusionStr (String.concat "," ["b"; "a"])) self'
      = get_fusion (FusionList ["b"; "a"]) self'
    ∧ (∀ m, ConfigStr "static" = ConfigMapping m →
         get_fusion (FusionList ["b"; "a"]) self' = Some (VMapping m)).
Proof.
  apply (fusion_stored_under_joined_names numeral_digest RegistryExamples.fresh
           ["b"; "a"] (ConfigStr "static")).
  - reflexivity.
  - reflexivity.
Defined.

(** * Head dispatch *)

(** C7: without a head name argument and without an active head,
    [forward_head] returns the outputs it was given; more generally it
    does so whenever no head name resolves.  When the resolved head name
    is not in the head table, it raises the unknown-head error. *)
Theorem forward_head_fallback {outputs args : Type} (self : @Heads.Model outputs args)
    (all_outputs : outputs) (head_name : option string) (a : args) :
  (Heads.active_head self = None →
     Heads.forward_head self all_outputs None a = Ok all_outputs)
  ∧ (Heads.resolved_head_name self head_name = None →
       Heads.forward_head self all_outputs head_name a = Ok all_outputs)
  ∧ (∀ name, Heads.resolved_head_name self head_name = Some name →
       Heads.heads self !! name = None →
       Heads.forward_head self all_outputs head_name a = Err (ValueError UnknownHeadName)).
Proof.
  unfold Heads.forward_head, Heads.resolved_head_name. repeat split.
  - by intros ->.
  - destruct (Heads.py_not _) eqn:E; [done|].
    destruct (Heads.py_or _ _); done.
  - intros name Hname Hhead. destruct (Heads.py_not _) eqn:E; [done|].
    rewrite Hname, Hhead. done.
Qed.

Lemma forward_head_fallback_witness :
  Heads.forward_head HeadExamples.model 7%nat None () = Ok 7%nat
  ∧ Heads.forward_head HeadExamples.model 7%nat (Some "ner") ()
    = Err (ValueError UnknownHeadName).
Proof.
  split.
  - apply (forward_head_fallback HeadExamples.model 7%nat None ()). reflexivity.
  - apply (forward_head_fallback HeadExamples.model 7%nat (Some "ner") ()) with "ner";
      reflexivity.
Defined.

(** * The question-answering head *)

Lemma traverse_ok {A B} (f : A → res B) (l : list A) :
  (∀ a, a ∈ l → ∃ b, f a = Ok b) → ∃ bs, traverse f l = Ok bs.
Proof.
  induction l as [|a l IH]; intros Hf; simpl; [by eexists|].
  destruct (Hf a) as [b ->]; [by left|].
  destruct IH as [bs ->]; [intros x Hx; apply Hf; by right|].
  by eexists.
Qed.

Lemma clamp_range (hi x : Z) : (0 ≤ hi)%Z → (0 ≤ Heads.clamp 0 hi x ≤ hi)%Z.
Proof. unfold Heads.clamp. lia. Qed.

Lemma clamp_above (hi x : Z) : (0 ≤ hi)%Z → (hi ≤ x)%Z → Heads.clamp 0 hi x = hi.
Proof. unfold Heads.clamp. lia. Qed.

Lemma clamp_below (hi x : Z) : (0 ≤ hi)%Z → (x < 0)%Z → Heads.clamp 0 hi x = 0%Z.
Proof. unfold Heads.clamp. lia. Qed.

Lemma cross_entropy_clamped (nll : vec → nat → Qc) (n : nat) (input : matrix)
    (positions : list Z) :
  Forall (λ row, length row = n) input →
  length positions = length input →
  ∃ l, Heads.cross_entropy nll (Z.of_nat n) input
         (Heads.Labels1 (map (Heads.clamp 0 (Z.of_nat n)) positions)) = Ok l.
Proof.
  intros Hrows Hlen. unfold Heads.cross_entropy.
  rewrite length_map, (proj2 (Nat.eqb_eq _ _)) by done. simpl.
  destruct (traverse_ok (λ p : vec * Z, Heads.loss_term nll (Z.of_nat n) p.1 p.2)
              (zip input (map (Heads.clamp 0 (Z.of_nat n)) positions))) as [terms ->];
    [|by eexists].
  intros [row c] Hin. simpl.
  apply elem_of_zip_l in Hin as Hrow. apply elem_of_zip_r in Hin as Hc. simpl in *.
  rewrite Forall_forall in Hrows. apply Hrows in Hrow.
  apply list_elem_of_fmap in Hc as (x & -> & _).
  pose proof (clamp_range (Z.of_nat n) x ltac:(lia)) as Hrange.
  unfold Heads.loss_term. destruct (Z.eqb_spec (Heads.clamp 0 (Z.of_nat n) x) (Z.of_nat n));
    [by eexists|].
  rewrite Hrow.
  replace ((0 <=? Heads.clamp 0 (Z.of_nat n) x)%Z
           && (Heads.clamp 0 (Z.of_nat n) x <? Z.of_nat n)%Z) with true; [by eexists|].
  symmetry. apply andb_true_iff. split; [apply Z.leb_le|apply Z.ltb_lt]; lia.
Qed.

(** C8, as stated, fails for the positions below the input: [clamp_(0, n)]
    moves a negative position to [0], which is a position of the input and
    not the ignored index.  For a sequence of two positions the start label
    [-1] leaves the call as [0], and the loss has the term of position [0]
    for it. *)
Lemma negative_position_not_ignored :
  Heads.clamp 0 2 (-1) = 0%Z
  ∧ Heads.clamp 0 128 (-1) = 0%Z
  ∧ (∀ nll : vec → nat → Qc,
       Heads.forward nll HeadExamples.logits
         (Some (Heads.Labels1 [(-1)%Z])) (Some (Heads.Labels1 [200%Z]))
       = Ok ({| Heads.loss := Some Heads.NaN;
                Heads.start_logits := [[Z2Qc 1; Z2Qc 3]];
                Heads.end_logits := [[Z2Qc 2; Z2Qc 4]] |},
             Some (Heads.Labels1 [0%Z]), Some (Heads.Labels1 [2%Z])))
  ∧ (∀ nll : vec → nat → Qc,
       Heads.cross_entropy nll 2 [[Z2Qc 1; Z2Qc 3]] (Heads.Labels1 [Heads.clamp 0 2 (-1)])
       = Ok (Heads.Num (nll [Z2Qc 1; Z2Qc 3] 0%nat))).
Proof.
  repeat split. intros nll.
  change (Heads.clamp 0 2 (-1)) with 0%Z. unfold Heads.cross_entropy, Heads.loss_term.
  simpl. do 2 f_equal.
  change (Z2Qc (Z.of_nat 1)) with 1%Qc. change (Z.to_nat 0) with 0%nat.
  set (x := nll _ _). field. discriminate.
Qed.

(** C8 (amended): with both label tensors given, one label per example,
    no label value is rejected: the call returns, the labels leave it
    clamped to [0 .. n] for the sequence length [n], and the loss is half
    the sum of the start and the end cross-entropy on the clamped labels.
    A label [p >= n] is clamped to [n], the ignored index, and gives no
    term of the loss; a negative label is clamped to [0]. *)
Theorem qa_forward_clamps_labels (nll : vec → nat → Qc) (logits : list (list (Qc * Qc)))
    (starts ends : list Z) :
  let start_logits := map (map fst) logits in
  let end_logits := map (map snd) logits in
  let n := Z.of_nat (cols start_logits) in
  Forall (λ row, length row = cols start_logits) logits →
  length starts = length logits →
  length ends = length logits →
  ∃ start_loss end_loss,
    Heads.cross_entropy nll n start_logits (Heads.Labels1 (map (Heads.clamp 0 n) starts))
    = Ok start_loss
    ∧ Heads.cross_entropy nll n end_logits (Heads.Labels1 (map (Heads.clamp 0 n) ends))
      = Ok end_loss
    ∧ Heads.forward nll logits (Some (Heads.Labels1 starts)) (Some (Heads.Labels1 ends))
      = Ok ({| Heads.loss := Some (Heads.scalar_div (Heads.scalar_add start_loss end_loss) 2);
               Heads.start_logits := start_logits;
               Heads.end_logits := end_logits |},
            Some (Heads.Labels1 (map (Heads.clamp 0 n) starts)),
            Some (Heads.Labels1 (map (Heads.clamp 0 n) ends)))
    ∧ (∀ p, (n ≤ p)%Z →
         Heads.clamp 0 n p = n
         ∧ ∀ row, Heads.loss_term nll n row (Heads.clamp 0 n p) = Ok None)
    ∧ (∀ p, (p < 0)%Z → Heads.clamp 0 n p = 0%Z).
Proof.
  intros start_logits end_logits n Hrows Hs He.
  assert (Hrows_s : Forall (λ row, length row = cols start_logits) start_logits).
  { subst start_logits. apply Forall_map. eapply Forall_impl; [exact Hrows|].
    intros row Hrow. simpl in *. by rewrite length_map. }
  assert (Hrows_e : Forall (λ row, length row = cols start_logits) end_logits).
  { subst end_logits. apply Forall_map. eapply Forall_impl; [exact Hrows|].
    intros row Hrow. simpl in *. by rewrite length_map. }
  destruct (cross_entropy_clamped nll _ start_logits starts Hrows_s) as [start_loss Hsl];
    [subst start_logits; by rewrite length_map|].
  destruct (cross_entropy_clamped nll _ end_logits ends Hrows_e) as [end_loss Hel];
    [subst end_logits; by rewrite length_map|].
  exists start_loss, end_loss. fold n in Hsl, Hel.
  split; [done|]. split; [done|]. split.
  - subst n start_logits end_logits.
    unfold Heads.forward, Heads.more_than_one_dim, Heads.clamp_. cbv zeta.
    rewrite Hsl. cbn [mbind res_bind]. rewrite Hel. done.
  - split.
    + intros p Hp. rewrite clamp_above by (subst n; lia). split; [done|].
      intros row. unfold Heads.loss_term. by rewrite Z.eqb_refl.
    + intros p Hp. apply clamp_below; [subst n; lia|done].
Qed.

Lemma qa_forward_clamps_labels_witness :
  let nll := HeadExamples.negated_logit in
  let start_logits := map (map fst) HeadExamples.logits in
  let end_logits := map (map snd) HeadExamples.logits in
  let n := Z.of_nat (cols start_logits) in
  ∃ start_loss end_loss,
    Heads.cross_entropy nll n start_logits (Heads.Labels1 (map (Heads.clamp 0 n) [200%Z]))
    = Ok start_loss
    ∧ Heads.cross_entropy nll n end_logits (Heads.Labels1 (map (Heads.clamp 0 n) [1%Z]))
      = Ok end_loss
    ∧ Heads.forward nll HeadExamples.logits
        (Some (Heads.Labels1 [200%Z])) (Some (Heads.Labels1 [1%Z]))
      = Ok ({| Heads.loss := Some (Heads.scalar_div (Heads.scalar_add start_loss end_loss) 2);
               Heads.start_logits := start_logits;
               Heads.end_logits := end_logits |},
            Some (Heads.Labels1 (map (Heads.clamp 0 n) [200%Z])),
            Some (Heads.Labels1 (map (Heads.clamp 0 n) [1%Z])))
    ∧ (∀ p, (n ≤ p)%Z →
         Heads.clamp 0 n p = n
         ∧ ∀ row, Heads.loss_term nll n row (Heads.clamp 0 n p) = Ok None)
    ∧ (∀ p, (p < 0)%Z → Heads.clamp 0 n p = 0%Z).
Proof.
  apply (qa_forward_clamps_labels HeadExamples.negated_logit HeadExamples.logits
           [200%Z] [1%Z]).
  - repeat constructor.
  - reflexivity.
  - reflexivity.
Defined.

(** * Further properties of the injection points *)

(** A second [merge_lora] of the same name changes nothing: whenever
    [merge_lora name] returns, calling it again on the resulting layer
    returns that layer. *)
Theorem merge_lora_idempotent (self : Layer) (name : string) (self' : Layer) :
  (Linear.merge_lora name self = Returns () self' →
     Linear.merge_lora name self' = Returns () self')
  ∧ (MergedLinear.merge_lora name self = Returns () self' →
       MergedLinear.merge_lora name self' = Returns () self').
Proof.
  pose proof (String.eqb_refl name) as Hrefl.
  split; intros H.
  - unfold Linear.merge_lora in *. destruct (loras self !! name) as [lora|] eqn:Hl.
    + destruct (marker_eq (merged self) name) eqn:He.
      { injection H as <-. by rewrite Hl, He. }
      destruct (marker_truthy (merged self)); simpl in H; [done|].
      destruct (0 <? r lora)%Z.
      * unfold assign_weight in H. destruct (_ ≫= _) as [w|e]; [|done].
        injection H as <-. simpl. by rewrite Hl, Hrefl.
      * injection H as <-. simpl. by rewrite Hl, Hrefl.
    + injection H as <-. by rewrite Hl.
  - unfold MergedLinear.merge_lora in *. destruct (loras self !! name) as [lora|] eqn:Hl.
    + destruct (marker_eq (merged self) name) eqn:He.
      { injection H as <-. by rewrite Hl, He. }
      destruct (marker_truthy (merged self)); simpl in H; [done|].
      destruct ((0 <? r lora)%Z && MergedLinear.any (enable_lora lora)).
      * unfold assign_weight in H. destruct (_ ≫= _) as [w|e]; [|done].
        injection H as <-. simpl. by rewrite Hl, Hrefl.
      * injection H as <-. simpl. by rewrite Hl, Hrefl.
    + injection H as <-. by rewrite Hl.
Qed.

Lemma merge_lora_idempotent_witness :
  ∃ merged_layer,
    Linear.merge_lora "a" Examples.point_scale = Returns () merged_layer
    ∧ Linear.merge_lora "a" merged_layer = Returns () merged_layer.
Proof.
  eexists. split; [reflexivity|].
  apply (proj1 (merge_lora_idempotent Examples.point_scale "a" _)). reflexivity.
Defined.

(** [reset_lora] leaves no adapter marked as merged, and is idempotent:
    whenever it returns, the marker of the resulting layer is not set and
    a second [reset_lora] returns the same layer.  On a layer without a
    merged adapter it changes nothing. *)
Theorem reset_lora_idempotent (self self' : Layer) :
  (Linear.reset_lora self = Returns () self' →
     marker_truthy (merged self') = false ∧ Linear.reset_lora self' = Returns () self')
  ∧ (MergedLinear.reset_lora self = Returns () self' →
       marker_truthy (merged self') = false
       ∧ MergedLinear.reset_lora self' = Returns () self')
  ∧ (marker_truthy (merged self) = false →
       Linear.reset_lora self = Returns () self
       ∧ MergedLinear.reset_lora self = Returns () self).
Proof.
  split; [|split].
  - unfold Linear.reset_lora. destruct (marker_truthy (merged self)) eqn:Ht.
    + destruct (merged self) as [| |name]; try done.
      destruct (loras_getitem self name) as [lora|e]; [|done].
      destruct (0 <? r lora)%Z.
      * unfold assign_weight. destruct (_ ≫= _) as [w|e]; [|done].
        intros [= <-]. done.
      * intros [= <-]. done.
    + intros [= <-]. by rewrite Ht.
  - unfold MergedLinear.reset_lora. destruct (marker_truthy (merged self)) eqn:Ht.
    + destruct (merged self) as [| |name]; try done.
      destruct (loras_getitem self name) as [lora|e]; [|done].
      destruct ((0 <? r lora)%Z && MergedLinear.any (enable_lora lora)).
      * unfold assign_weight. destruct (_ ≫= _) as [w|e]; [|done].
        intros [= <-]. done.
      * intros [= <-]. done.
    + intros [= <-]. by rewrite Ht.
  - intros Ht. unfold Linear.reset_lora, MergedLinear.reset_lora. by rewrite Ht.
Qed.

Lemma reset_lora_idempotent_witness :
  let merged_layer := final_state (Linear.merge_lora "a" Examples.point_scale) in
  ∃ restored,
    Linear.reset_lora merged_layer = Returns () restored
    ∧ marker_truthy (merged restored) = false
    ∧ Linear.reset_lora restored = Returns () restored.
Proof.
  eexists. split; [reflexivity|].
  apply (proj1 (reset_lora_idempotent
                  (final_state (Linear.merge_lora "a" Examples.point_scale)) _)).
  reflexivity.
Defined.

(** [merge_lora] and [reset_lora] are all-or-nothing and touch only the
    weight and the marker: when one of them raises, the layer is left as
    it was, and when it returns, the adapters, the bias, the dimensions
    and the orientation of the layer are the same as before. *)
Theorem merge_reset_frame (self : Layer) (name : string) (o : outcome Layer unit) :
  o = Linear.merge_lora name self ∨ o = MergedLinear.merge_lora name self
  ∨ o = Linear.reset_lora self ∨ o = MergedLinear.reset_lora self →
  (∀ e, raised o = Some e → final_state o = self)
  ∧ loras (final_state o) = loras self
  ∧ bias (final_state o) = bias self
  ∧ in_features (final_state o) = in_features self
  ∧ out_features (final_state o) = out_features self
  ∧ fan_in_fan_out (final_state o) = fan_in_fan_out self.
Proof.
  intros [-> | [-> | [-> | ->]]];
    unfold Linear.merge_lora, MergedLinear.merge_lora, Linear.reset_lora,
      MergedLinear.reset_lora, assign_weight, loras_getitem;
    repeat case_match; simpl; repeat split; try done.
Qed.

Lemma merge_reset_frame_witness :
  let o := Linear.merge_lora "b" (set_merged (MName "a") Examples.point_two) in
  (∀ e, raised o = Some e → final_state o = set_merged (MName "a") Examples.point_two)
  ∧ loras (final_state o) = loras Examples.point_two
  ∧ bias (final_state o) = bias Examples.point_two
  ∧ in_features (final_state o) = in_features Examples.point_two
  ∧ out_features (final_state o) = out_features Examples.point_two
  ∧ fan_in_fan_out (final_state o) = fan_in_fan_out Examples.point_two.
Proof.
  apply (merge_reset_frame (set_merged (MName "a") Examples.point_two) "b"). by left.
Defined.

(** Deleting the adapter that is merged leaves the marker on a name that
    is gone: from then on [reset_lora] raises [KeyError] for that name and
    every [merge_lora] of an adapter still present raises the
    already-merged error, each leaving the layer as it is. *)
Theorem delete_while_merged_blocks (self : Layer) (name : string) :
  merged self = MName name → name ≠ "" →
  ∃ deleted,
    LoRALayer.delete_adapter name self = Returns () deleted
    ∧ Linear.reset_lora deleted = Raises (KeyError name) deleted
    ∧ MergedLinear.reset_lora deleted = Raises (KeyError name) deleted
    ∧ (∀ other, is_Some (loras deleted !! other) →
         Linear.merge_lora other deleted = Raises (ValueError AlreadyMerged) deleted
         ∧ MergedLinear.merge_lora other deleted
           = Raises (ValueError AlreadyMerged) deleted).
Proof.
  intros Hmerged Hname.
  destruct (delete_adapter_returns self name) as (deleted & Hdel & _ & Hm & Hl).
  exists deleted. split; [done|].
  assert (Hgone : loras deleted !! name = None) by (rewrite Hl; apply lookup_delete_eq).
  assert (Htruthy : marker_truthy (merged deleted) = true).
  { rewrite Hm, Hmerged. simpl. by apply negb_true_iff, String.eqb_neq. }
  split; [|split].
  - unfold Linear.reset_lora, loras_getitem. by rewrite Htruthy, Hm, Hmerged, Hgone.
  - unfold MergedLinear.reset_lora, loras_getitem. by rewrite Htruthy, Hm, Hmerged, Hgone.
  - intros other [lora Hother].
    assert (Hne : marker_eq (merged deleted) other = false).
    { rewrite Hm, Hmerged. simpl. apply String.eqb_neq. intros ->. congruence. }
    unfold Linear.merge_lora, MergedLinear.merge_lora.
    by rewrite Hother, Hne, Htruthy.
Qed.

Lemma delete_while_merged_blocks_witness :
  let self := set_merged (MName "a") Examples.point_two in
  ∃ deleted,
    LoRALayer.delete_adapter "a" self = Returns () deleted
    ∧ Linear.reset_lora deleted = Raises (KeyError "a") deleted
    ∧ MergedLinear.reset_lora deleted = Raises (KeyError "a") deleted
    ∧ (∀ other, is_Some (loras deleted !! other) →
         Linear.merge_lora other deleted = Raises (ValueError AlreadyMerged) deleted
         ∧ MergedLinear.merge_lora other deleted
           = Raises (ValueError AlreadyMerged) deleted).
Proof.
  apply (delete_while_merged_blocks (set_merged (MName "a") Examples.point_two) "a").
  - reflexivity.
  - discriminate.
Defined.

(** * Merging and resetting at a MergedLinear injection point *)

Lemma bind_ok {A B} (m : res A) (k : A → res B) (b : B) :
  m ≫= k = Ok b → ∃ a, m = Ok a ∧ k a = Ok b.
Proof. destruct m as [a|e]; [by exists a|done]. Qed.

Lemma expand_to_length {A} (n : nat) (l l' : list A) :
  MergedLinear.expand_to n l = Ok l' → length l' = n.
Proof.
  unfold MergedLinear.expand_to. destruct (Nat.eqb_spec (length l) n).
  - by intros [= <-].
  - destruct l as [|a [|? ?]]; try done. intros [= <-]. apply length_replicate.
Qed.

Lemma traverse_length {A B} (f : A → res B) (l : list A) (l' : list B) :
  traverse f l = Ok l' → length l' = length l.
Proof.
  revert l'. induction l as [|a l IH]; intros l' H; simpl in H.
  - by injection H as <-.
  - apply bind_ok in H as (b & _ & H). apply bind_ok in H as (bs & Hbs & H).
    injection H as <-. simpl. f_equal. by apply IH.
Qed.

Lemma scatter_length (fill : Qc) (mask : list bool) (ys : vec) :
  length (MergedLinear.scatter fill mask ys) = length mask.
Proof.
  revert ys. induction mask as [|[] mask IH]; intros ys; simpl; [done| |]; by rewrite IH.
Qed.

(** The padded update has a row for every row of [x] and a column for
    every output feature. *)
Lemma zero_pad_shape (self : Layer) (x p : matrix) (lora : LoRA) :
  MergedLinear.zero_pad self x lora = Ok p →
  shape_is (length x) (out_features self) p = true.
Proof.
  unfold MergedLinear.zero_pad. intros H.
  apply bind_ok in H as (y & _ & H). apply bind_ok in H as (ind & _ & H).
  destruct (Nat.eqb_spec (length ind) (out_features self)) as [Hind|]; [|done].
  simpl in H. apply bind_ok in H as (rows & Hrows & H).
  apply bind_ok in H as (block & Hblock & H). injection H as <-.
  apply shape_is_spec. split.
  - rewrite length_map. apply traverse_length in Hblock. rewrite Hblock.
    by apply expand_to_length in Hrows.
  - apply Forall_map, Forall_forall. intros row _. simpl.
    by rewrite scatter_length.
Qed.

Lemma merged_linear_undo (self : Layer) (name : string) (lora : LoRA)
    (d p : matrix) :
  loras self !! name = Some lora →
  loras self !! "" = None →
  marker_truthy (merged self) = false →
  MergedLinear.delta_w self lora = Ok d →
  MergedLinear.zero_pad self d lora = Ok p →
  shape_is (length d) (out_features self) (weight self) = true →
  composition_mode lora = "add"
  ∨ (composition_mode lora = "scale" ∧ nowhere_zero (smul p (scaling lora))) →
  ∃ merged_layer restored,
    MergedLinear.merge_lora name self = Returns () merged_layer
    ∧ merged merged_layer = MName name
    ∧ MergedLinear.reset_lora merged_layer = Returns () restored
    ∧ weight restored = weight self
    ∧ merged restored = MNone.
Proof.
  intros Hlora Hempty Hunmerged Hd Hp HW Hmode.
  assert (Hname : name ≠ "") by (intros ->; congruence).
  assert (Hne : marker_eq (merged self) name = false).
  { destruct (marker_eq (merged self) name) eqn:E; [|done].
    apply (marker_eq_truthy _ _ Hname) in E. congruence. }
  assert (Htruthy : negb (String.eqb name "") = true)
    by (by apply negb_true_iff, String.eqb_neq).
  pose proof (zero_pad_shape self d p lora Hp) as Hpshape.
  destruct (com_inv_com lora _ _ (weight self) p HW (or_introl Hpshape) Hmode)
    as (w' & Hcom & Hback).
  unfold MergedLinear.merge_lora, MergedLinear.reset_lora.
  rewrite Hlora, Hne, Hunmerged. simpl.
  destruct ((0 <? r lora)%Z && MergedLinear.any (enable_lora lora)) eqn:Hguard.
  - exists (set_merged (MName name) (set_weight w' self)), (set_merged MNone self).
    rewrite Hd. simpl. rewrite Hp. simpl. rewrite Hcom. simpl.
    split; [done|]. split; [done|].
    unfold loras_getitem. simpl. rewrite Htruthy, Hlora, Hguard.
    replace (MergedLinear.delta_w (set_merged (MName name) (set_weight w' self)) lora)
      with (MergedLinear.delta_w self lora) by done.
    rewrite Hd. simpl.
    replace (MergedLinear.zero_pad (set_merged (MName name) (set_weight w' self)) d lora)
      with (MergedLinear.zero_pad self d lora) by done.
    rewrite Hp. simpl. rewrite Hback. simpl.
    split; [by rewrite set_weight_back|done].
  - exists (set_merged (MName name) self), (set_merged MNone self).
    split; [done|]. split; [done|].
    unfold loras_getitem. simpl. rewrite Htruthy, Hlora, Hguard. done.
Qed.

(** At a MergedLinear point without a merged adapter, [merge_lora name]
    followed by [reset_lora] returns and restores the weight, when the
    padded update is computed for a weight with a row per row of the
    update and a column per output feature, and the composition can be
    undone (it adds, or scales without a zero entry). *)
Theorem merged_linear_merge_then_reset (self : Layer) (name : string) (lora : LoRA)
    (d p : matrix) :
  loras self !! name = Some lora →
  loras self !! "" = None →
  marker_truthy (merged self) = false →
  MergedLinear.delta_w self lora = Ok d →
  MergedLinear.zero_pad self d lora = Ok p →
  shape_is (length d) (out_features self) (weight self) = true →
  composition_mode lora = "add"
  ∨ (composition_mode lora = "scale" ∧ nowhere_zero (smul p (scaling lora))) →
  ∃ merged_layer restored,
    MergedLinear.merge_lora name self = Returns () merged_layer
    ∧ merged merged_layer = MName name
    ∧ MergedLinear.reset_lora merged_layer = Returns () restored
    ∧ weight restored = weight self
    ∧ merged restored = MNone.
Proof. apply merged_linear_undo. Qed.

Lemma merged_linear_merge_then_reset_witness :
  ∃ merged_layer restored,
    MergedLinear.merge_lora "qv" MergedExamples.point = Returns () merged_layer
    ∧ merged merged_layer = MName "qv"
    ∧ MergedLinear.reset_lora merged_layer = Returns () restored
    ∧ weight restored = weight MergedExamples.point
    ∧ merged restored = MNone.
Proof.
  eapply (merged_linear_merge_then_reset MergedExamples.point "qv" MergedExamples.lora_qv).
  - reflexivity.
  - reflexivity.
  - reflexivity.
  - reflexivity.
  - reflexivity.
  - reflexivity.
  - by left.
Defined.

(** * Adding an adapter *)

Lemma zeros_shape (shape : nat * nat) : shape_is shape.1 shape.2 (zeros shape) = true.
Proof.
  apply shape_is_spec. unfold zeros. split; [apply length_replicate|].
  apply Forall_replicate. apply length_replicate.
Qed.



Lemma dropout_accepted (nn_Dropout : Qc → try (matrix → matrix)) (rate : Qc) :
  ((Q2Qc 0 < rate)%Qc → ∃ f, nn_Dropout rate = Value f) →
  ∃ f, (if decide (Q2Qc 0 < rate)%Qc then nn_Dropout rate else Value (λ x : matrix, x))
       = Value f.
Proof. intros Hacc. destruct (decide (Q2Qc 0 < rate)%Qc); [by apply Hacc|by eexists]. Qed.

(** The constructor of [LoRA] first sets up dropout, and an exception of
    [nn.Dropout] for a positive rate is the exception of the constructor.
    Past that, it rejects [no_decomposition] for a rank above one, and for
    a positive rank every initialisation other than "lora" and "bert"; for
    a rank that is not positive it accepts any initialisation.  Whenever
    the constructor raises, [add_adapter] raises the same exception and
    registers nothing. *)
Theorem lora_init_rejects (draw : string → string → nat * nat → matrix)
    (nn_Dropout : Qc → try (matrix → matrix)) (module_name_ok : string → bool)
    (module_name_error : string → pyexn)
    (self : Layer) (config : LoRAConfig.t) (key name : string) :
  let shapes := Linear._get_lora_shapes self (LoRAConfig.r config) in
  let init := LoRA__init__ draw nn_Dropout shapes.1 shapes.2 config in
  let accepted := (Q2Qc 0 < LoRAConfig.dropout config)%Qc →
                  ∃ f, nn_Dropout (LoRAConfig.dropout config) = Value f in
  key ∈ LoRAConfig.attn_matrices config →
  (∀ e, (Q2Qc 0 < LoRAConfig.dropout config)%Qc →
        nn_Dropout (LoRAConfig.dropout config) = Exception e → init = Exception e)
  ∧ (accepted → (1 < LoRAConfig.r config)%Z → LoRAConfig.no_decomposition config = true →
     init = Exception (PyValueError "Can only use 'no_decomposition' when r == 1."))
  ∧ (accepted → (0 < LoRAConfig.r config)%Z →
       ¬ ((1 < LoRAConfig.r config)%Z ∧ LoRAConfig.no_decomposition config = true) →
       LoRAConfig.init_weights config ≠ "lora" → LoRAConfig.init_weights config ≠ "bert" →
       init = Exception (PyValueError ("Unknown init_weights type: "
                                       ++ LoRAConfig.init_weights config)))
  ∧ (accepted → (LoRAConfig.r config ≤ 0)%Z →
       ∃ lora, init = Value lora ∧ r lora = LoRAConfig.r config)
  ∧ (∀ e, init = Exception e →
       Linear_add_adapter draw nn_Dropout module_name_ok module_name_error (Some key) (Some config)
         name self = (Exception e, self)).
Proof.
  intros shapes init accepted Hkey. subst init shapes accepted. unfold LoRA__init__.
  split; [|split; [|split; [|split]]].
  - intros e Hrate He. by rewrite decide_True, He.
  - intros [f ->]%dropout_accepted Hr Hno. simpl.
    by rewrite (proj2 (Z.ltb_lt _ _) Hr), Hno.
  - intros [f ->]%dropout_accepted Hr Hnot Hlora Hbert. simpl.
    destruct ((1 <? LoRAConfig.r config)%Z && LoRAConfig.no_decomposition config) eqn:E.
    { apply andb_true_iff in E as [E1 E2]. apply Z.ltb_lt in E1. by destruct Hnot. }
    rewrite (proj2 (Z.ltb_lt _ _) Hr).
    apply String.eqb_neq in Hlora, Hbert. by rewrite Hlora, Hbert.
  - intros [f ->]%dropout_accepted Hr. simpl.
    replace (1 <? LoRAConfig.r config)%Z with false by (symmetry; apply Z.ltb_ge; lia).
    replace (0 <? LoRAConfig.r config)%Z with false by (symmetry; apply Z.ltb_ge; lia).
    simpl. by eexists.
  - intros e He.
    unfold Linear_add_adapter, LoRALayer_add_adapter.
    rewrite bool_decide_eq_true_2 by done. unfold LoRA__init__. by rewrite He.
Qed.

Lemma lora_init_rejects_witness :
  let config :=
    {| LoRAConfig.r := 4; LoRAConfig.alpha := Q2Qc 8;
       LoRAConfig.composition_mode := "scale"; LoRAConfig.no_decomposition := true;
       LoRAConfig.dropout := Q2Qc 0; LoRAConfig.init_weights := "lora";
       LoRAConfig.attn_matrices := ["q"] |} in
  Linear_add_adapter AddExamples.ones AddExamples.eval_dropout AddExamples.plain_name AddExamples.name_error
    (Some "q") (Some config) "task" AddExamples.query
  = (Exception (PyValueError "Can only use 'no_decomposition' when r == 1."),
     AddExamples.query).
Proof.
  intros config.
  destruct (lora_init_rejects AddExamples.ones AddExamples.eval_dropout
              AddExamples.plain_name AddExamples.name_error AddExamples.query config "q" "task")
    as (_ & Hrank & _ & _ & Hadd); [by left|].
  apply Hadd, Hrank; [|reflexivity|reflexivity].
  intros _. by eexists.
Defined.

(** ** Tensors of zeros *)

Lemma dot_zeros_l (k : nat) (v : vec) : dot (replicate k (Q2Qc 0)) v = Q2Qc 0.
Proof.
  unfold dot. revert v. induction k as [|k IH]; intros [|b v]; simpl; try done.
  rewrite IH. ring.
Qed.

Lemma dot_zeros_r (k : nat) (u : vec) : dot u (replicate k (Q2Qc 0)) = Q2Qc 0.
Proof.
  unfold dot. revert u. induction k as [|k IH]; intros [|a u]; simpl; try done.
  rewrite IH. ring.
Qed.

Lemma map_replicate {A B} (f : A → B) (n : nat) (x : A) :
  map f (replicate n x) = replicate n (f x).
Proof. induction n; simpl; by f_equal. Qed.

Lemma map_const_replicate {A B} (b : B) (l : list A) :
  map (λ _, b) l = replicate (length l) b.
Proof. induction l; simpl; by f_equal. Qed.

Lemma nth_zeros (j n : nat) : nth j (replicate n (Q2Qc 0)) (Q2Qc 0) = Q2Qc 0.
Proof. revert j. induction n as [|n IH]; intros [|j]; simpl; auto. Qed.

Lemma transpose_zeros (m n : nat) : (0 < m)%nat → transpose (zeros (m, n)) = zeros (n, m).
Proof.
  intros Hm. unfold transpose, zeros. simpl.
  replace (cols (replicate m (replicate n (Q2Qc 0)))) with n
    by (destruct m; [lia|simpl; by rewrite length_replicate]).
  erewrite map_ext; [|intros j; rewrite map_replicate, nth_zeros; reflexivity].
  by rewrite map_const_replicate, length_seq.
Qed.

Lemma matmul_zeros_l (m k n : nat) (b : matrix) :
  shape_is k n b = true → (0 < k)%nat →
  matmul (zeros (m, k)) b = Ok (zeros (m, n)).
Proof.
  intros Hb Hk. pose proof (transpose_shape k n b Hb Hk) as Ht.
  apply shape_is_spec in Hb as [Hbl _]. apply shape_is_spec in Ht as [Htl _].
  unfold matmul, zeros. simpl.
  rewrite (proj2 (forallb_forall _ _)).
  - f_equal. rewrite map_replicate. f_equal.
    erewrite map_ext; [|intros col; apply dot_zeros_l].
    by rewrite map_const_replicate, Htl.
  - intros row Hrow. apply list_elem_of_In, elem_of_replicate in Hrow as [-> _].
    apply Nat.eqb_eq. rewrite length_replicate. lia.
Qed.

Lemma matmul_zeros_r (m k n : nat) (a : matrix) :
  shape_is m k a = true → (0 < k)%nat →
  matmul a (zeros (k, n)) = Ok (zeros (m, n)).
Proof.
  intros Ha Hk. apply shape_is_spec in Ha as [Hal Har].
  unfold matmul. rewrite (proj2 (forallb_forall _ _)).
  - f_equal. rewrite transpose_zeros by done. unfold zeros. simpl.
    erewrite map_ext;
      [|intros row; rewrite map_replicate, dot_zeros_r; reflexivity].
    by rewrite map_const_replicate, Hal.
  - intros row Hrow. apply Nat.eqb_eq. rewrite Forall_forall in Har.
    unfold zeros. simpl. rewrite length_replicate. apply Har. by apply list_elem_of_In.
Qed.

Lemma smul_zeros (shape : nat * nat) (c : Qc) : smul (zeros shape) c = zeros shape.
Proof.
  unfold smul, zeros. rewrite !map_replicate. do 2 f_equal. ring.
Qed.

Lemma zip_with_add_zeros (row : vec) :
  zip_with Qcplus row (replicate (length row) (Q2Qc 0)) = row.
Proof. induction row as [|a row IH]; simpl; [done|]. rewrite IH. f_equal. ring. Qed.

Lemma elementwise_add_zeros (m n : nat) (w : matrix) :
  shape_is m n w = true → elementwise Qcplus w (zeros (m, n)) = Ok w.
Proof.
  intros Hw. rewrite (elementwise_same_shape Qcplus m n) by (done || apply zeros_shape).
  f_equal. apply shape_is_spec in Hw as [<- Hr]. unfold zeros. simpl.
  induction w as [|row w IH]; simpl; [done|].
  apply Forall_cons in Hr as [<- Hr]. rewrite zip_with_add_zeros. f_equal. by apply IH.
Qed.

(** ** What add_adapter registers *)

Lemma add_adapter_registers (draw : string → string → nat * nat → matrix)
    (nn_Dropout : Qc → try (matrix → matrix)) (module_name_ok : string → bool)
    (module_name_error : string → pyexn)
    (attn_key : option string) (matched : option LoRAConfig.t) (name : string)
    (self self' : Layer) :
  Linear_add_adapter draw nn_Dropout module_name_ok module_name_error attn_key matched name self
  = (Value true, self') →
  ∃ config lora,
    matched = Some config
    ∧ LoRA__init__ draw nn_Dropout
        (Linear._get_lora_shapes self (LoRAConfig.r config)).1
        (Linear._get_lora_shapes self (LoRAConfig.r config)).2 config = Value lora
    ∧ module_name_ok name = true
    ∧ self' = set_loras (<[name := lora]> (loras self)) self.
Proof.
  unfold Linear_add_adapter, LoRALayer_add_adapter. intros H.
  destruct matched as [config|]; [|done].
  destruct attn_key as [key|]; [|done].
  destruct (bool_decide _); [|done].
  destruct (LoRA__init__ _ _ _ _ _) as [lora|e] eqn:Hinit; [|done].
  destruct (module_name_ok name) eqn:Hok; [|done].
  injection H as <-. by exists config, lora.
Qed.

Lemma well_shaped_set_loras (self : Layer) (l : gmap string LoRA) (lora : LoRA) :
  well_shaped (set_loras l self) lora = well_shaped self lora.
Proof. done. Qed.

(** The module that the constructor builds for a layer has the shapes
    that the merge of the layer relies on. *)
Lemma init_well_shaped (draw : string → string → nat * nat → matrix)
    (nn_Dropout : Qc → try (matrix → matrix)) (self : Layer) (config : LoRAConfig.t)
    (lora : LoRA) :
  (∀ init param shape, shape_is shape.1 shape.2 (draw init param shape) = true) →
  shape_is (weight_shape self).1 (weight_shape self).2 (weight self) = true →
  (0 < in_features self)%nat → (0 < out_features self)%nat →
  (0 < LoRAConfig.r config)%Z →
  (LoRAConfig.no_decomposition config = true →
     fan_in_fan_out self = false ∨ in_features self = out_features self) →
  LoRA__init__ draw nn_Dropout
    (Linear._get_lora_shapes self (LoRAConfig.r config)).1
    (Linear._get_lora_shapes self (LoRAConfig.r config)).2 config = Value lora →
  r lora = LoRAConfig.r config
  ∧ composition_mode lora = LoRAConfig.composition_mode config
  ∧ no_decomposition lora = LoRAConfig.no_decomposition config
  ∧ well_shaped self lora = true.
Proof.
  intros Hdraw HW Hin Hout Hr Hno. unfold LoRA__init__.
  destruct (if decide (Q2Qc 0 < LoRAConfig.dropout config)%Qc
            then nn_Dropout (LoRAConfig.dropout config) else Value (λ x : matrix, x))
    as [f|e]; [simpl|done].
  destruct ((1 <? LoRAConfig.r config)%Z && LoRAConfig.no_decomposition config) eqn:Hguard;
    [done|].
  rewrite (proj2 (Z.ltb_lt _ _) Hr).
  assert (Hsq : LoRAConfig.no_decomposition config = true →
                (LoRAConfig.r config =? 1)%Z
                && (negb (fan_in_fan_out self)
                    || Nat.eqb (in_features self) (out_features self)) = true).
  { intros Hnd. rewrite Hnd, andb_true_r in Hguard. apply Z.ltb_ge in Hguard.
    apply andb_true_iff. split; [apply Z.eqb_eq; lia|].
    destruct (Hno Hnd) as [-> | ->]; [done|]. rewrite Nat.eqb_refl. apply orb_true_r. }
  assert (Hdims : Nat.ltb 0 (in_features self) && Nat.ltb 0 (out_features self) = true).
  { apply andb_true_iff. split; by apply Nat.ltb_lt. }
  apply andb_true_iff in Hdims as [Hin' Hout'].
  pose proof (λ init, Hdraw init "lora_A" (Z.to_nat (LoRAConfig.r config), in_features self))
    as HA.
  pose proof (Hdraw "bert" "lora_B" (out_features self, Z.to_nat (LoRAConfig.r config)))
    as HB.
  pose proof (zeros_shape (out_features self, Z.to_nat (LoRAConfig.r config))) as HZ.
  simpl in HA, HB, HZ.
  intros H.
  destruct (String.eqb (LoRAConfig.init_weights config) "lora");
    [|destruct (String.eqb (LoRAConfig.init_weights config) "bert"); [|done]];
    injection H as <-; simpl;
    (split; [done|split; [done|split; [done|]]]);
    unfold well_shaped; simpl; rewrite HW, HA, Hin', Hout'; simpl;
    (destruct (LoRAConfig.no_decomposition config); [by rewrite Hsq|]);
    by rewrite ?HB, ?HZ.
Qed.

Lemma linear_shape (x w : matrix) (b : option vec) (m n : nat) (y : matrix) :
  shape_is m n w = true → (0 < m)%nat → (0 < n)%nat →
  match b with Some v => length v = m | None => True end →
  linear x w b = Ok y →
  shape_is (length x) n x = true ∧ shape_is (length x) m y = true.
Proof.
  intros Hw Hm Hn Hb H. unfold linear in H. apply bind_ok in H as (y0 & Hy0 & H).
  pose proof (transpose_shape m n w Hw Hm) as Ht.
  pose proof (transpose_shape n m _ Ht Hn) as Htt.
  apply shape_is_spec in Ht as [Htl _]. apply shape_is_spec in Htt as [Httl _].
  unfold matmul in Hy0. destruct (forallb _ x) eqn:Hx; [|done]. injection Hy0 as <-.
  assert (Hxs : shape_is (length x) n x = true).
  { apply shape_is_spec. split; [done|]. apply Forall_forall. intros row Hrow.
    rewrite forallb_forall in Hx. rewrite <- Htl. apply Nat.eqb_eq, Hx.
    by apply list_elem_of_In. }
  split; [done|].
  assert (Hy0 : shape_is (length x) m (map (λ row, map (dot row) (transpose (transpose w))) x)
                = true).
  { apply shape_is_spec. split; [by rewrite length_map|].
    apply Forall_map, Forall_forall. intros row _. simpl. by rewrite length_map. }
  destruct b as [v|]; [|by injection H as <-].
  rewrite (elementwise_one_row Qcplus (length x) m) in H by done.
  injection H as <-. by apply map_row_shape.
Qed.

(** An adapter that [add_adapter] has just added to a [Linear] point
    can be merged and reset: for a positive rank the module has the shapes
    of the layer, and when its composition can be undone, [merge_lora]
    followed by [reset_lora] returns and gives back the weight the layer
    had when the adapter was added.  The initialiser is to give each
    parameter its requested shape, and the module dictionary to refuse the
    empty name. *)
Theorem added_adapter_merges_and_resets (draw : string → string → nat * nat → matrix)
    (nn_Dropout : Qc → try (matrix → matrix)) (module_name_ok : string → bool)
    (module_name_error : string → pyexn)
    (attn_key : option string) (config : LoRAConfig.t) (name : string)
    (self self' : Layer) :
  (∀ init param shape, shape_is shape.1 shape.2 (draw init param shape) = true) →
  module_name_ok "" = false →
  shape_is (weight_shape self).1 (weight_shape self).2 (weight self) = true →
  (0 < in_features self)%nat → (0 < out_features self)%nat →
  loras self !! "" = None →
  marker_truthy (merged self) = false →
  (0 < LoRAConfig.r config)%Z →
  (LoRAConfig.no_decomposition config = true →
     fan_in_fan_out self = false ∨ in_features self = out_features self) →
  Linear_add_adapter draw nn_Dropout module_name_ok module_name_error attn_key (Some config) name self
  = (Value true, self') →
  ∃ lora,
    loras self' !! name = Some lora
    ∧ r lora = LoRAConfig.r config
    ∧ well_shaped self' lora = true
    ∧ (invertible_update self' lora →
         ∃ merged_layer restored,
           Linear.merge_lora name self' = Returns () merged_layer
           ∧ Linear.reset_lora merged_layer = Returns () restored
           ∧ weight restored = weight self
           ∧ merged restored = MNone).
Proof.
  intros Hdraw Hok HW Hin Hout Hempty Hunmerged Hr Hno Hadd.
  apply add_adapter_registers in Hadd as (config' & lora & [= <-] & Hinit & Hname & ->).
  assert (Hne : name ≠ "") by (intros ->; congruence).
  destruct (init_well_shaped draw nn_Dropout self config lora Hdraw HW Hin Hout Hr Hno
              Hinit) as (Hrank & _ & _ & Hshape).
  exists lora. simpl. rewrite lookup_insert_eq.
  split; [done|]. split; [done|]. split; [done|]. intros Hinv.
  set (self' := set_loras (<[name := lora]> (loras self)) self) in *.
  assert (Hr' : (0 < r lora)%Z) by lia.
  destruct (undoable_update self' lora Hr' Hshape Hinv) as (d & w' & Hd & Hcom & Hback).
  assert (Hl : loras self' !! name = Some lora) by apply lookup_insert_eq.
  exists (set_merged (MName name) (set_weight w' self')), (set_merged MNone self').
  split; [by eapply merge_lora_unmerged|]. split; [|done].
  rewrite <- (set_weight_back self' (MName name) w').
  by apply (reset_lora_merged _ name lora d).
Qed.

Lemma added_adapter_merges_and_resets_witness :
  let self' :=
    (Linear_add_adapter AddExamples.ones AddExamples.eval_dropout AddExamples.plain_name AddExamples.name_error
       (Some "q") (Some AddExamples.config) "task" AddExamples.query).2 in
  ∃ lora,
    loras self' !! "task" = Some lora
    ∧ r lora = 2%Z
    ∧ well_shaped self' lora = true
    ∧ (invertible_update self' lora →
         ∃ merged_layer restored,
           Linear.merge_lora "task" self' = Returns () merged_layer
           ∧ Linear.reset_lora merged_layer = Returns () restored
           ∧ weight restored = weight AddExamples.query
           ∧ merged restored = MNone).
Proof.
  intros self'.
  apply (added_adapter_merges_and_resets AddExamples.ones AddExamples.eval_dropout
           AddExamples.plain_name AddExamples.name_error (Some "q") AddExamples.config "task"
           AddExamples.query self').
  - intros init param shape. apply shape_is_spec. unfold AddExamples.ones.
    split; [apply length_replicate|]. apply Forall_replicate, length_replicate.
  - reflexivity.
  - reflexivity.
  - simpl. lia.
  - simpl. lia.
  - reflexivity.
  - reflexivity.
  - reflexivity.
  - discriminate.
  - reflexivity.
Defined.

Lemma set_weight_same (self : Layer) : set_weight (weight self) self = self.
Proof. by destruct self. Qed.

Lemma effective_weight_shape (self : Layer) :
  shape_is (weight_shape self).1 (weight_shape self).2 (weight self) = true →
  (0 < in_features self)%nat →
  shape_is (out_features self) (in_features self) (T self (weight self)) = true.
Proof.
  unfold weight_shape, T. destruct (fan_in_fan_out self); simpl; [|done].
  intros HW Hin. by apply transpose_shape.
Qed.

(** An adapter that [add_adapter] has just added with the "lora"
    initialisation (its [lora_B] is zero) and the "add" composition does
    not change what the layer computes: merging it leaves the weight as it
    is, and a forward call with the adapter active gives the result of the
    call without an adapter.  The bias has a value per output feature and
    dropout keeps the shape of its input. *)
Theorem fresh_lora_adapter_is_neutral (draw : string → string → nat * nat → matrix)
    (nn_Dropout : Qc → try (matrix → matrix)) (module_name_ok : string → bool)
    (module_name_error : string → pyexn)
    (attn_key : option string) (config : LoRAConfig.t) (name : string)
    (self self' : Layer) :
  (∀ init param shape, shape_is shape.1 shape.2 (draw init param shape) = true) →
  (∀ p f x m n, nn_Dropout p = Value f → shape_is m n x = true →
     shape_is m n (f x) = true) →
  module_name_ok "" = false →
  shape_is (weight_shape self).1 (weight_shape self).2 (weight self) = true →
  match bias self with Some b => length b = out_features self | None => True end →
  (0 < in_features self)%nat → (0 < out_features self)%nat →
  marker_truthy (merged self) = false →
  (0 < LoRAConfig.r config)%Z →
  LoRAConfig.init_weights config = "lora" →
  LoRAConfig.composition_mode config = "add" →
  LoRAConfig.no_decomposition config = false →
  Linear_add_adapter draw nn_Dropout module_name_ok module_name_error attn_key (Some config) name self
  = (Value true, self') →
  Linear.merge_lora name self' = Returns () (set_merged (MName name) self')
  ∧ ∀ x, Linear.forward self' (Some [name]) x = Linear.forward self' None x.
Proof.
  intros Hdraw Hdrop Hok HW Hbias Hin Hout Hunmerged Hr Hinit Hmode Hno Hadd.
  apply add_adapter_registers in Hadd as (config' & lora & [= <-] & Hlora & Hname & ->).
  assert (Hne : name ≠ "") by (intros ->; congruence).
  unfold LoRA__init__ in Hlora.
  destruct (if decide (Q2Qc 0 < LoRAConfig.dropout config)%Qc
            then nn_Dropout (LoRAConfig.dropout config) else Value (λ x : matrix, x))
    as [f|e] eqn:Hf; [|done].
  simpl in Hlora.
  rewrite Hno, andb_false_r, (proj2 (Z.ltb_lt _ _) Hr), Hinit in Hlora. simpl in Hlora.
  injection Hlora as <-.
  set (lora := {| r := LoRAConfig.r config |}).
  set (self' := set_loras (<[name := lora]> (loras self)) self).
  assert (Hl : loras self' !! name = Some lora) by apply lookup_insert_eq.
  assert (Hrn : (0 < Z.to_nat (LoRAConfig.r config))%nat) by lia.
  pose proof (Hdraw "lora" "lora_A" (Z.to_nat (LoRAConfig.r config), in_features self))
    as HA. simpl in HA.
  assert (Hscale : ∀ shape, smul (zeros shape) (scaling lora) = zeros shape)
    by (intros; apply smul_zeros).
  split.
  - assert (Hd : Linear.delta_w self' lora = Ok (zeros (weight_shape self))).
    { unfold Linear.delta_w. simpl.
      rewrite (matmul_zeros_l _ _ (in_features self)) by done. simpl. f_equal.
      unfold T, weight_shape. simpl. destruct (fan_in_fan_out self); [|done].
      by apply transpose_zeros. }
    assert (Hcom : com lora (weight self') (zeros (weight_shape self)) = Ok (weight self')).
    { unfold com. simpl. rewrite Hmode. simpl. rewrite Hscale.
      destruct (weight_shape self) as [m n]. by apply elementwise_add_zeros. }
    rewrite (merge_lora_unmerged self' name lora _ _ Hl Hne Hr Hunmerged Hd Hcom).
    by rewrite set_weight_same.
  - intros x. unfold Linear.forward, loras_getitem.
    change (merged self') with (merged self). change (weight self') with (weight self).
    change (bias self') with (bias self). change (T self') with (T self).
    rewrite Hunmerged, Hl. cbn [negb].
    destruct (linear x (T self (weight self)) (bias self)) as [result|e] eqn:Hplain;
      [|done].
    destruct (linear_shape _ _ _ _ _ _ (effective_weight_shape self HW Hin) Hout Hin
                Hbias Hplain) as [Hx Hresult].
    assert (Hdx' : shape_is (length x) (in_features self) (lora_dropout lora x) = true).
    { simpl. destruct (decide (Q2Qc 0 < LoRAConfig.dropout config)%Qc).
      - by apply (Hdrop _ _ _ _ _ Hf).
      - by injection Hf as <-. }
    destruct (matmul_shape _ _ _ _ _ Hdx' (transpose_shape _ _ _ HA Hrn) Hin)
      as (xa & Hxa & Hxas).
    unfold mbind, res_bind.
    change (r lora) with (LoRAConfig.r config).
    change (no_decomposition lora) with false.
    change (lora_A lora)
      with (draw "lora" "lora_A" (Z.to_nat (LoRAConfig.r config), in_features self)).
    change (lora_B lora)
      with (zeros (out_features self, Z.to_nat (LoRAConfig.r config))).
    rewrite (proj2 (Z.ltb_lt _ _) Hr), Hxa.
    rewrite transpose_zeros by done.
    rewrite (matmul_zeros_r (length x)) by done.
    unfold com. change (composition_mode lora) with (LoRAConfig.composition_mode config).
    rewrite Hmode. cbn [String.eqb Ascii.eqb Bool.eqb]. rewrite Hscale.
    by apply elementwise_add_zeros.
Qed.

Lemma fresh_lora_adapter_is_neutral_witness :
  let self' :=
    (Linear_add_adapter AddExamples.ones AddExamples.eval_dropout AddExamples.plain_name AddExamples.name_error
       (Some "q") (Some AddExamples.config) "task" AddExamples.query).2 in
  Linear.merge_lora "task" self' = Returns () (set_merged (MName "task") self')
  ∧ ∀ x, Linear.forward self' (Some ["task"]) x = Linear.forward self' None x.
Proof.
  intros self'.
  apply (fresh_lora_adapter_is_neutral AddExamples.ones AddExamples.eval_dropout
           AddExamples.plain_name AddExamples.name_error (Some "q") AddExamples.config "task"
           AddExamples.query self').
  - intros init param shape. apply shape_is_spec. unfold AddExamples.ones.
    split; [apply length_replicate|]. apply Forall_replicate, length_replicate.
  - intros p f x m n Hf Hx. unfold AddExamples.eval_dropout in Hf.
    destruct (decide _) in Hf; [|done]. by injection Hf as <-.
  - reflexivity.
  - reflexivity.
  - exact I.
  - simpl. lia.
  - simpl. lia.
  - reflexivity.
  - reflexivity.
  - reflexivity.
  - reflexivity.
  - reflexivity.
  - reflexivity.
Defined.

(** ** Transposition and products of tensors *)

Lemma nth_map_seq {A} (f : nat → A) (n i : nat) (d : A) :
  (i < n)%nat → nth i (map f (seq 0 n)) d = f i.
Proof.
  intros Hi. rewrite (nth_indep _ d (f 0%nat)) by (by rewrite length_map, length_seq).
  rewrite map_nth, seq_nth by done. done.
Qed.

Lemma map_nth_seq (a : vec) (n : nat) :
  length a = n → map (λ j, nth j a (Q2Qc 0)) (seq 0 n) = a.
Proof.
  intros <-. apply (nth_ext _ _ (Q2Qc 0) (Q2Qc 0)).
  - by rewrite length_map, length_seq.
  - intros i Hi. rewrite length_map, length_seq in Hi. by rewrite nth_map_seq.
Qed.

Lemma transpose_rows (n : nat) (M : matrix) :
  cols M = n → transpose M = map (λ j, map (λ row, nth j row (Q2Qc 0)) M) (seq 0 n).
Proof. by intros <-. Qed.

Lemma nth_column (M : matrix) (i j : nat) :
  nth i (map (λ row, nth j row (Q2Qc 0)) M) (Q2Qc 0) = nth j (nth i M []) (Q2Qc 0).
Proof.
  revert i. induction M as [|row M IH]; intros [|i]; simpl; auto; by destruct j.
Qed.

Lemma transpose_involutive (m n : nat) (M : matrix) :
  shape_is m n M = true → (0 < m)%nat → (0 < n)%nat → transpose (transpose M) = M.
Proof.
  intros HM Hm Hn. pose proof (transpose_shape m n M HM Hm) as Ht.
  rewrite (transpose_rows m) by (by eapply cols_shape).
  rewrite (transpose_rows n M) by (by eapply cols_shape).
  apply shape_is_spec in HM as [Hl Hr].
  apply (nth_ext _ _ [] []).
  - by rewrite length_map, length_seq.
  - intros i Hi. rewrite length_map, length_seq in Hi. rewrite nth_map_seq by done.
    rewrite map_map.
    erewrite map_ext; [|intros j; apply nth_column].
    apply map_nth_seq. rewrite Forall_forall in Hr. apply Hr.
    apply list_elem_of_In, nth_In. lia.
Qed.

Lemma nth_zip_with (f : Qc → Qc → Qc) (a b : vec) (j : nat) :
  length a = length b → (j < length a)%nat →
  nth j (zip_with f a b) (Q2Qc 0) = f (nth j a (Q2Qc 0)) (nth j b (Q2Qc 0)).
Proof.
  revert b j. induction a as [|x a IH]; intros [|y b] [|j] Hlen Hj; simpl in *;
    try lia; [done|]. apply IH; lia.
Qed.

Lemma map_zip_with {A B C D} (h : B → C → D) (g1 : A → B) (g2 : A → C) (l : list A) :
  map (λ j, h (g1 j) (g2 j)) l = zip_with h (map g1 l) (map g2 l).
Proof. induction l; simpl; by f_equal. Qed.

Lemma column_zip_with (f : Qc → Qc → Qc) (n j : nat) (W D : matrix) :
  Forall (λ row, length row = n) W → Forall (λ row, length row = n) D → (j < n)%nat →
  map (λ row, nth j row (Q2Qc 0)) (zip_with (zip_with f) W D)
  = zip_with f (map (λ row, nth j row (Q2Qc 0)) W) (map (λ row, nth j row (Q2Qc 0)) D).
Proof.
  intros HW. revert D. induction HW as [|w W Hw HW IH]; intros [|d D] HD Hj; simpl;
    try done.
  apply Forall_cons in HD as [Hd HD]. f_equal; [|by apply IH].
  apply nth_zip_with; lia.
Qed.

Lemma transpose_zip_with (f : Qc → Qc → Qc) (m n : nat) (W D : matrix) :
  shape_is m n W = true → shape_is m n D = true → (0 < m)%nat →
  transpose (zip_with (zip_with f) W D) = zip_with (zip_with f) (transpose W) (transpose D).
Proof.
  intros HW HD Hm.
  rewrite (transpose_rows n) by (eapply cols_shape; [by apply zip_with_rows_shape|done]).
  rewrite (transpose_rows n W), (transpose_rows n D) by (by eapply cols_shape).
  apply shape_is_spec in HW as [_ HW]. apply shape_is_spec in HD as [_ HD].
  rewrite <- map_zip_with. apply map_ext_in. intros j Hj. apply in_seq in Hj.
  apply (column_zip_with f n); try done. lia.
Qed.

Lemma nth_scale (c : Qc) (row : vec) (j : nat) :
  nth j (map (λ a, a * c)%Qc row) (Q2Qc 0) = (nth j row (Q2Qc 0) * c)%Qc.
Proof.
  revert j. induction row as [|a row IH]; intros [|j]; simpl; try done; ring.
Qed.

Lemma transpose_smul (D : matrix) (c : Qc) : transpose (smul D c) = smul (transpose D) c.
Proof.
  unfold transpose, smul.
  replace (cols (map (map (λ a, a * c)%Qc) D)) with (cols D)
    by (destruct D; simpl; by rewrite ?length_map).
  rewrite !map_map. apply map_ext. intros j. rewrite !map_map.
  apply map_ext. intros row. apply nth_scale.
Qed.

Lemma dot_cons (a b : Qc) (u v : vec) : dot (a :: u) (b :: v) = (a * b + dot u v)%Qc.
Proof. done. Qed.

Lemma dot_nil_l (v : vec) : dot [] v = Q2Qc 0.
Proof. done. Qed.

Lemma dot_nil_r (u : vec) : dot u [] = Q2Qc 0.
Proof. by destruct u. Qed.

Lemma dot_add_r (x w d : vec) :
  length w = length d → dot x (zip_with Qcplus w d) = (dot x w + dot x d)%Qc.
Proof.
  revert w d. induction x as [|a x IH]; intros [|b w] [|c d] Hlen; simpl in *;
    try lia; try (unfold dot; simpl; ring).
  rewrite !dot_cons, IH by lia. ring.
Qed.

Lemma dot_scale_r (x d : vec) (c : Qc) :
  dot x (map (λ a, a * c)%Qc d) = (dot x d * c)%Qc.
Proof.
  revert d. induction x as [|a x IH]; intros [|b d]; simpl;
    try (unfold dot; simpl; ring).
  rewrite !dot_cons, IH. ring.
Qed.

Lemma dot_scale_l (x d : vec) (c : Qc) :
  dot x (map (λ a, c * a)%Qc d) = (c * dot x d)%Qc.
Proof.
  revert d. induction x as [|a x IH]; intros [|b d]; simpl;
    try (unfold dot; simpl; ring).
  rewrite !dot_cons, IH. ring.
Qed.

(** [x . (b^T A) = (A x) . b] *)
Lemma dot_row_times_matrix (n : nat) (A : matrix) (brow x : vec) :
  Forall (λ row, length row = n) A →
  dot x (map (λ j, dot brow (map (λ row, nth j row (Q2Qc 0)) A)) (seq 0 n))
  = dot (map (dot x) A) brow.
Proof.
  intros HA. revert brow. induction HA as [|a A Ha HA IH]; intros brow.
  - simpl. erewrite map_ext; [|intros j; apply dot_nil_r].
    rewrite map_const_replicate, dot_zeros_r. by destruct brow.
  - destruct brow as [|β brow].
    + rewrite dot_nil_r. erewrite map_ext; [|intros j; apply dot_nil_l].
      by rewrite map_const_replicate, dot_zeros_r.
    + simpl. rewrite dot_cons.
      erewrite map_ext; [|intros j; apply dot_cons].
      rewrite (map_zip_with Qcplus (λ j, β * nth j a (Q2Qc 0))%Qc
                 (λ j, dot brow (map (λ row, nth j row (Q2Qc 0)) A))).
      rewrite dot_add_r by (by rewrite !length_map).
      rewrite IH.
      rewrite <- (map_map (λ j, nth j a (Q2Qc 0)) (λ v, β * v)%Qc).
      rewrite map_nth_seq by done. rewrite dot_scale_l. ring.
Qed.

(** [x @ m.T] for a tensor [m] with rows as long as those of [x]. *)
Lemma matmul_transpose (b m n : nat) (x M : matrix) :
  shape_is b n x = true → shape_is m n M = true → (0 < m)%nat → (0 < n)%nat →
  matmul x (transpose M) = Ok (map (λ row, map (dot row) M) x).
Proof.
  intros Hx HM Hm Hn. pose proof (transpose_shape m n M HM Hm) as Ht.
  apply shape_is_spec in Ht as [Htl _]. apply shape_is_spec in Hx as [_ Hx].
  unfold matmul. rewrite (proj2 (forallb_forall _ _)).
  - by rewrite (transpose_involutive m n).
  - intros row Hrow. apply Nat.eqb_eq. rewrite Forall_forall in Hx.
    rewrite Htl. apply Hx. by apply list_elem_of_In.
Qed.

(** ** Merging keeps what the layer computes *)

Lemma map_dot_zip_with (n : nat) (x : vec) (W D : matrix) :
  Forall (λ row, length row = n) W → Forall (λ row, length row = n) D →
  map (dot x) (zip_with (zip_with Qcplus) W D)
  = zip_with Qcplus (map (dot x) W) (map (dot x) D).
Proof.
  intros HW. revert D. induction HW as [|w W Hw HW IH]; intros [|d D] HD; simpl;
    try done.
  apply Forall_cons in HD as [Hd HD]. rewrite dot_add_r by lia. f_equal. by apply IH.
Qed.

Lemma zip_with_add_swap (u d b : vec) :
  zip_with Qcplus (zip_with Qcplus u d) b = zip_with Qcplus (zip_with Qcplus u b) d.
Proof.
  revert d b. induction u as [|a u IH]; intros [|c d] [|e b]; simpl; try done.
  rewrite IH. f_equal. ring.
Qed.

(** One row of [x @ (w + s * (B @ A)).T]. *)
Lemma merged_row (k n : nat) (s : Qc) (x : vec) (Wt A B : matrix) :
  Forall (λ row, length row = n) Wt →
  shape_is k n A = true → (0 < k)%nat →
  map (dot x) (zip_with (zip_with Qcplus) Wt (smul (product_rows A B) s))
  = zip_with Qcplus (map (dot x) Wt)
      (map (λ a, a * s)%Qc (map (dot (map (dot x) A)) B)).
Proof.
  intros HW HA Hk. pose proof (cols_shape k n A HA Hk) as Hc.
  apply shape_is_spec in HA as [_ HA].
  rewrite (map_dot_zip_with n); [|done|].
  - f_equal. unfold smul, product_rows. rewrite !map_map. apply map_ext. intros brow.
    rewrite dot_scale_r. f_equal. rewrite (transpose_rows n) by done. rewrite map_map.
    by apply dot_row_times_matrix.
  - unfold smul, product_rows. rewrite map_map. apply Forall_map, Forall_forall.
    intros brow _. simpl. rewrite !length_map. unfold transpose.
    by rewrite length_map, length_seq.
Qed.

Lemma effective_merged_weight (self : Layer) (W ba : matrix) (s : Qc) :
  shape_is (weight_shape self).1 (weight_shape self).2 W = true →
  shape_is (out_features self) (in_features self) ba = true →
  (0 < in_features self)%nat → (0 < out_features self)%nat →
  T self (zip_with (zip_with Qcplus) W (smul (T self ba) s))
  = zip_with (zip_with Qcplus) (T self W) (smul ba s).
Proof.
  unfold T, weight_shape. destruct (fan_in_fan_out self); simpl; [|done].
  intros HW Hba Hin Hout.
  pose proof (transpose_shape _ _ _ Hba Hout) as Hbat.
  rewrite (transpose_zip_with Qcplus (in_features self) (out_features self));
    [|done| |done].
  - by rewrite transpose_smul, (transpose_involutive (out_features self) (in_features self)).
  - destruct (smul_fits _ _ _ s (or_introl Hbat)) as [H|(row & H & _)]; [done|].
    apply shape_is_spec in Hbat as [Hl Hr]. apply shape_is_spec. unfold smul.
    split; [by rewrite length_map|]. apply Forall_map. eapply Forall_impl; [exact Hr|].
    intros r' Hr'. simpl. by rewrite length_map.
Qed.

Lemma matmul_wrong_rows (m n : nat) (x M : matrix) :
  shape_is m n M = true → (0 < m)%nat →
  shape_is (length x) n x = false →
  matmul x (transpose M) = Err RuntimeError.
Proof.
  intros HM Hm Hx. pose proof (transpose_shape m n M HM Hm) as Ht.
  apply shape_is_spec in Ht as [Htl _].
  unfold shape_is in Hx. rewrite Nat.eqb_refl in Hx. simpl in Hx.
  unfold matmul. by rewrite Htl, Hx.
Qed.

Lemma matmul_product_rows (m k : nat) (A B : matrix) :
  shape_is m k B = true → length A = k → matmul B A = Ok (product_rows A B).
Proof.
  intros HB HA. apply shape_is_spec in HB as [_ HB]. unfold matmul.
  rewrite (proj2 (forallb_forall _ _)); [done|]. intros row Hrow.
  apply Nat.eqb_eq. rewrite Forall_forall in HB. rewrite HA. apply HB.
  by apply list_elem_of_In.
Qed.

(** Merging an adapter does not change what the layer computes: in the
    "add" mode, for a decomposed update and without dropout (as in
    evaluation), a forward call on the merged layer returns, for every
    input and every active setup, what the forward call on the unmerged
    layer returns with the adapter active.  The bias has a value per output
    feature. *)
Theorem merge_preserves_forward (self : Layer) (name : string) (lora : LoRA) :
  loras self !! name = Some lora →
  loras self !! "" = None →
  (0 < r lora)%Z →
  marker_truthy (merged self) = false →
  well_shaped self lora = true →
  composition_mode lora = "add" →
  no_decomposition lora = false →
  (∀ x, lora_dropout lora x = x) →
  match bias self with Some b => length b = out_features self | None => True end →
  ∃ merged_layer,
    Linear.merge_lora name self = Returns () merged_layer
    ∧ ∀ adapter_setup x,
        Linear.forward merged_layer adapter_setup x
        = Linear.forward self (Some [name]) x.
Proof.
  intros Hlora Hempty Hr Hunmerged Hshape Hmode Hno Hdrop Hbias.
  assert (Hname : name ≠ "") by (intros ->; congruence).
  pose proof Hshape as Hshape'. unfold well_shaped in Hshape'. rewrite Hno in Hshape'.
  simpl in Hshape'. rewrite !andb_true_iff in Hshape'.
  destruct Hshape' as [[[[HW HA] HB] Hin] Hout]. apply Nat.ltb_lt in Hin, Hout.
  assert (Hk : (0 < Z.to_nat (r lora))%nat) by lia.
  set (k := Z.to_nat (r lora)) in *. set (s := scaling lora).
  set (ba := product_rows (lora_A lora) (lora_B lora)).
  assert (Hba : matmul (lora_B lora) (lora_A lora) = Ok ba).
  { apply (matmul_product_rows (out_features self) k); [done|]. by apply shape_is_spec in HA as [? _]. }
  assert (Hbas : shape_is (out_features self) (in_features self) ba = true).
  { destruct (matmul_shape _ _ _ _ _ HB HA Hk) as (c & Hc & Hcs). congruence. }
  assert (Hd : Linear.delta_w self lora = Ok (T self ba)).
  { unfold Linear.delta_w. by rewrite Hno, Hba. }
  assert (Hds : shape_is (weight_shape self).1 (weight_shape self).2 (T self ba) = true).
  { unfold T, weight_shape. destruct (fan_in_fan_out self); simpl; [|done].
    by apply transpose_shape. }
  assert (Hss : shape_is (weight_shape self).1 (weight_shape self).2
                  (smul (T self ba) s) = true).
  { destruct (smul_fits _ _ _ s (or_introl Hds)) as [H|(row & Hrow & Hlen)]; [done|].
    apply shape_is_spec in Hds as [Hl Hrs]. apply shape_is_spec. unfold smul.
    split; [by rewrite length_map|]. apply Forall_map. eapply Forall_impl; [exact Hrs|].
    intros r' Hr'. simpl. by rewrite length_map. }
  set (W' := zip_with (zip_with Qcplus) (weight self) (smul (T self ba) s)).
  assert (Hcom : com lora (weight self) (T self ba) = Ok W').
  { unfold com. rewrite Hmode. simpl. by eapply elementwise_same_shape. }
  exists (set_merged (MName name) (set_weight W' self)).
  split; [by eapply merge_lora_unmerged|]. intros adapter_setup x.
  pose proof (effective_weight_shape self HW Hin) as HWt.
  set (Wt := T self (weight self)) in *.
  assert (HE : T self W' = zip_with (zip_with Qcplus) Wt (smul ba s))
    by (by apply effective_merged_weight).
  assert (HEs : shape_is (out_features self) (in_features self) (T self W') = true).
  { rewrite HE. apply zip_with_rows_shape; [done|].
    destruct (smul_fits _ _ _ s (or_introl Hbas)) as [H|(row & Hrow & Hlen)]; [done|].
    apply shape_is_spec in Hbas as [Hl Hrs]. apply shape_is_spec. unfold smul.
    split; [by rewrite length_map|]. apply Forall_map. eapply Forall_impl; [exact Hrs|].
    intros r' Hr'. simpl. by rewrite length_map. }
  unfold Linear.forward, loras_getitem. simpl.
  replace (negb (String.eqb name "")) with true
    by (symmetry; by apply negb_true_iff, String.eqb_neq).
  rewrite Hunmerged, Hlora. simpl.
  change (T (set_merged (MName name) (set_weight W' self)) W') with (T self W').
  fold Wt. unfold linear.
  destruct (shape_is (length x) (in_features self) x) eqn:Hx.
  - rewrite (matmul_transpose (length x) (out_features self) (in_features self))
      by done.
    rewrite (matmul_transpose (length x) (out_features self) (in_features self) x Wt)
      by done.
    rewrite (proj2 (Z.ltb_lt _ _) Hr), Hno, Hdrop.
    set (xa := map (λ row, map (dot row) (lora_A lora)) x).
    set (plain0 := map (λ row, map (dot row) Wt) x).
    assert (Hxa : matmul x (transpose (lora_A lora)) = Ok xa)
      by (by apply (matmul_transpose (length x) k (in_features self))).
    assert (Hxas : shape_is (length x) k xa = true).
    { apply shape_is_spec. subst xa. split; [by rewrite length_map|].
      apply Forall_map, Forall_forall. intros row _. simpl. rewrite length_map.
      by apply shape_is_spec in HA as [? _]. }
    set (delta := map (λ row, map (dot row) (lora_B lora)) xa).
    assert (Hdelta : matmul xa (transpose (lora_B lora)) = Ok delta)
      by (by apply (matmul_transpose (length x) (out_features self) k)).
    assert (Hdeltas : shape_is (length x) (out_features self) (smul delta s) = true).
    { apply shape_is_spec. subst delta xa. unfold smul. rewrite !length_map.
      split; [done|]. rewrite !map_map. apply Forall_map, Forall_forall.
      intros row _. simpl. rewrite !length_map. by apply shape_is_spec in HB as [? _]. }
    assert (Hplains : shape_is (length x) (out_features self) plain0 = true).
    { apply shape_is_spec. subst plain0. split; [by rewrite length_map|].
      apply Forall_map, Forall_forall. intros row _. simpl. rewrite length_map.
      by apply shape_is_spec in HWt as [? _]. }
    assert (Hrows : ∀ xi, map (dot xi) (T self W')
                          = zip_with Qcplus (map (dot xi) Wt)
                              (map (λ a, a * s)%Qc
                                 (map (dot (map (dot xi) (lora_A lora))) (lora_B lora)))).
    { intros xi. rewrite HE. apply (merged_row k (in_features self)); try done.
      by apply shape_is_spec in HWt as [_ ?]. }
    simpl. rewrite Hxa. simpl. rewrite Hdelta. simpl.
    unfold com. rewrite Hmode. simpl.
    destruct (bias self) as [b|].
    + rewrite !(elementwise_one_row Qcplus (length x) (out_features self)); try done.
      * simpl.
        rewrite (elementwise_same_shape Qcplus (length x) (out_features self));
          [|by apply map_row_shape|done].
        f_equal. subst plain0 delta xa. unfold smul. rewrite !map_map.
        rewrite <- map_zip_with. apply map_ext. intros xi.
        rewrite Hrows. apply zip_with_add_swap.
      * apply shape_is_spec. split; [by rewrite length_map|].
        apply Forall_map, Forall_forall. intros row _. simpl. rewrite length_map.
        by apply shape_is_spec in HEs as [? _].
    + simpl.
      rewrite (elementwise_same_shape Qcplus (length x) (out_features self)) by done.
      f_equal. subst plain0 delta xa. unfold smul. rewrite !map_map.
      rewrite <- map_zip_with. apply map_ext. intros xi. apply Hrows.
  - rewrite (matmul_wrong_rows (out_features self) (in_features self)) by done.
    rewrite (matmul_wrong_rows (out_features self) (in_features self) x Wt) by done.
    done.
Qed.

Lemma merge_preserves_forward_witness :
  ∃ merged_layer,
    Linear.merge_lora "b" Examples.point_two = Returns () merged_layer
    ∧ ∀ adapter_setup x,
        Linear.forward merged_layer adapter_setup x
        = Linear.forward Examples.point_two (Some ["b"]) x.
Proof.
  apply (merge_preserves_forward Examples.point_two "b" Examples.lora_add).
  - reflexivity.
  - reflexivity.
  - reflexivity.
  - reflexivity.
  - reflexivity.
  - reflexivity.
  - reflexivity.
  - reflexivity.
  - exact I.
Defined.

(** * The constructors of the configuration classes *)

Lemma traverse_err {A B} (f : A → res B) (l : list A) (e : exn) :
  (∀ a, a ∈ l → (∃ b, f a = Ok b) ∨ f a = Err e) →
  (∃ a, a ∈ l ∧ f a = Err e) →
  traverse f l = Err e.
Proof.
  induction l as [|a l IH]; intros Hall (a' & Ha' & He); [by apply elem_of_nil in Ha'|].
  simpl. destruct (f a) as [b|e'] eqn:Hfa; simpl.
  - rewrite IH; [done| |].
    + intros x Hx. apply Hall. by right.
    + apply elem_of_cons in Ha' as [-> | Ha']; [congruence|]. by exists a'.
  - destruct (Hall a) as [[b Hb] | Hb]; [by left|congruence|congruence].
Qed.

Lemma bind_fields_accepts (cls_fields : list (string * option pyval)) (kwargs : instance) :
  accepts_kwargs cls_fields kwargs = true →
  bind_fields cls_fields kwargs
  = Ok (map (λ f, (f.1, bound_value kwargs f)) cls_fields).
Proof.
  unfold accepts_kwargs, bind_fields. intros [Hdom Hall]%andb_true_iff.
  rewrite Hdom. apply traverse_pure. intros f Hf.
  rewrite forallb_forall in Hall. specialize (Hall f (proj1 (list_elem_of_In _ _) Hf)).
  unfold bound_value. destruct (kwargs !! f.1) as [v|] eqn:Hkw; [done|].
  destruct f.2 as [d|] eqn:Hd; [done|].
  apply orb_true_iff in Hall as [H|H]; apply bool_decide_eq_true in H;
    destruct H as [? H]; congruence.
Qed.

Lemma bind_fields_rejects (cls_fields : list (string * option pyval)) (kwargs : instance) :
  accepts_kwargs cls_fields kwargs = false →
  bind_fields cls_fields kwargs = Err TypeError.
Proof.
  unfold accepts_kwargs, bind_fields. destruct (bool_decide (dom kwargs ⊆ _)); [|done].
  simpl. intros Hall.
  assert (Hex : ∃ f, f ∈ cls_fields ∧ kwargs !! f.1 = None ∧ f.2 = None).
  { clear -Hall. induction cls_fields as [|f l IH]; [done|]. simpl in Hall.
    apply andb_false_iff in Hall as [Hf | Hl].
    - exists f. split; [by left|]. apply orb_false_iff in Hf as [H1 H2].
      apply bool_decide_eq_false in H1, H2.
      split; [by destruct (kwargs !! f.1); [destruct H1; eauto|]|].
      by destruct f.2; [destruct H2; eauto|].
    - destruct (IH Hl) as (f' & ? & ?). exists f'. split; [by right|done]. }
  apply traverse_err.
  - intros f _. cbv beta. destruct (kwargs !! f.1); [eauto|]. destruct f.2; eauto.
  - destruct Hex as (f & Hf & Hk & Hd). exists f. split; [done|]. cbv beta.
    by rewrite Hk, Hd.
Qed.

Lemma assign_all_fresh (setattr : string → pyval → instance → outcome instance unit)
    (items : list (string * pyval)) (self : instance) :
  (∀ k v (s : instance), k ∈ items.*1 → s !! k = None →
     setattr k v s = Returns () (<[k := v]> s)) →
  NoDup items.*1 →
  (∀ k, k ∈ items.*1 → self !! k = None) →
  assign_all setattr items self = Returns () (list_to_map items ∪ self).
Proof.
  intros Hset. revert self. induction items as [|[k v] items IH]; intros self Hnd Hfresh.
  - simpl. by rewrite (left_id_L ∅ (∪)).
  - apply NoDup_cons in Hnd as [Hk Hnd]. simpl.
    rewrite Hset; [|by left|apply Hfresh; by left].
    rewrite IH; [| |done|].
    + f_equal. rewrite <- insert_union_r by (by apply not_elem_of_list_to_map).
      by rewrite insert_union_l.
    + intros k' v' s Hk' Hs. apply Hset; [by right|done].
    + intros k' Hk'. rewrite lookup_insert_ne by (intros ->; done).
      apply Hfresh. by right.
Qed.

Lemma field_defaults_lookup (cls_fields : list (string * option pyval)) :
  NoDup cls_fields.*1 →
  ∀ f, f ∈ cls_fields → field_defaults cls_fields !! f.1 = f.2.
Proof.
  intros Hnd. unfold field_defaults. induction cls_fields as [|g l IH]; intros f Hf;
    [by apply elem_of_nil in Hf|].
  simpl in Hnd. apply NoDup_cons in Hnd as [Hg Hnd]. simpl.
  apply elem_of_cons in Hf as [-> | Hf].
  - destruct g as [k [d|]]; simpl; [by rewrite lookup_insert_eq|].
    apply not_elem_of_list_to_map. intros Hin. apply Hg.
    apply list_elem_of_fmap in Hin as ([k' v'] & -> & Hin).
    apply list_elem_of_omap in Hin as (h & Hh & Heq).
    destruct h as [k'' [d''|]]; simpl in Heq; [|done]. injection Heq as <- <-.
    apply list_elem_of_fmap. by exists (k'', Some d'').
  - assert (g.1 ≠ f.1).
    { intros Heq. apply Hg. rewrite Heq. apply list_elem_of_fmap. by exists f. }
    destruct g as [k [d|]]; simpl in *; [rewrite lookup_insert_ne by done|]; by apply IH.
Qed.

Lemma field_defaults_undeclared (cls_fields : list (string * option pyval)) (k : string) :
  k ∉ cls_fields.*1 → field_defaults cls_fields !! k = None.
Proof.
  intros Hk. apply not_elem_of_list_to_map. intros Hin. apply Hk.
  apply list_elem_of_fmap in Hin as ([k' v'] & -> & Hin).
  apply list_elem_of_omap in Hin as (h & Hh & Heq).
  destruct h as [k'' [d''|]]; simpl in Heq; [|done]. injection Heq as <- <-.
  apply list_elem_of_fmap. by exists (k'', Some d'').
Qed.

Lemma bound_items_keys (cls_fields : list (string * option pyval)) (kwargs : instance) :
  (map (λ f, (f.1, bound_value kwargs f)) cls_fields).*1 = cls_fields.*1.
Proof. induction cls_fields as [|f l IH]; simpl; by f_equal. Qed.

Lemma required_fields_given (cls_fields : list (string * option pyval)) (kwargs : instance) :
  accepts_kwargs cls_fields kwargs = true →
  ∀ f, f ∈ cls_fields → kwargs !! f.1 = None → is_Some f.2.
Proof.
  intros [_ Hall]%andb_true_iff f Hf Hkw.
  rewrite forallb_forall in Hall. specialize (Hall f (proj1 (list_elem_of_In _ _) Hf)).
  apply orb_true_iff in Hall as [H|H]; apply bool_decide_eq_true in H; [|done].
  destruct H as [? H]. congruence.
Qed.

Lemma bound_items_map (cls_fields : list (string * option pyval)) (kwargs : instance) :
  NoDup cls_fields.*1 →
  accepts_kwargs cls_fields kwargs = true →
  (list_to_map (map (λ f, (f.1, bound_value kwargs f)) cls_fields) : instance)
  = kwargs ∪ field_defaults cls_fields.
Proof.
  intros Hnd Hacc. pose proof (required_fields_given _ _ Hacc) as Hreq.
  apply andb_true_iff in Hacc as [Hdom _]. apply bool_decide_eq_true in Hdom.
  apply map_eq. intros k. rewrite lookup_union.
  destruct (decide (k ∈ cls_fields.*1)) as [Hk | Hk].
  - apply list_elem_of_fmap in Hk as (f & -> & Hf).
    rewrite (field_defaults_lookup _ Hnd f Hf).
    assert (Hl : (list_to_map (map (λ f, (f.1, bound_value kwargs f)) cls_fields) : instance)
                 !! f.1 = Some (bound_value kwargs f)).
    { apply elem_of_list_to_map; [by rewrite bound_items_keys|].
      apply (list_elem_of_fmap_2 (λ f, (f.1, bound_value kwargs f))). done. }
    rewrite Hl. unfold bound_value. specialize (Hreq f Hf).
    destruct (kwargs !! f.1) as [v|] eqn:Hkw; [by destruct f.2|].
    by destruct (Hreq eq_refl) as [d ->].
  - rewrite (not_elem_of_list_to_map_1 _ k) by (by rewrite bound_items_keys).
    assert (kwargs !! k = None) as ->.
    { apply not_elem_of_dom. intros Hin. apply Hk. apply Hdom in Hin.
      by apply elem_of_list_to_set in Hin. }
    by rewrite field_defaults_undeclared.
Qed.
Lemma adapter_setattr_fresh (k : string) (v : pyval) (s : instance) :
  k ≠ "invertible_adapter" → s !! k = None →
  AdapterConfig.__setattr__ k v s = Returns () (<[k := v]> s).
Proof.
  intros Hk Hs. unfold AdapterConfig.__setattr__. rewrite Hs.
  by apply String.eqb_neq in Hk as ->.
Qed.

Lemma fusion_setattr_fresh (k : string) (v : pyval) (s : instance) :
  s !! k = None → AdapterFusionConfig.__setattr__ k v s = Returns () (<[k := v]> s).
Proof. intros Hs. unfold AdapterFusionConfig.__setattr__. by rewrite Hs. Qed.

Lemma dataclass_init_result (setattr : string → pyval → instance → outcome instance unit)
    (cls_fields : list (string * option pyval)) (kwargs : instance) :
  (∀ k v (s : instance), k ∈ cls_fields.*1 → s !! k = None →
     setattr k v s = Returns () (<[k := v]> s)) →
  NoDup cls_fields.*1 →
  dataclass_init setattr cls_fields kwargs
  = if accepts_kwargs cls_fields kwargs
    then Returns () (kwargs ∪ field_defaults cls_fields)
    else Raises TypeError ∅.
Proof.
  intros Hset Hnd. unfold dataclass_init.
  destruct (accepts_kwargs cls_fields kwargs) eqn:Hacc.
  - rewrite (bind_fields_accepts _ _ Hacc).
    rewrite assign_all_fresh.
    + by rewrite (right_id_L ∅ (∪)), bound_items_map.
    + intros k v s Hk. apply Hset. by rewrite bound_items_keys in Hk.
    + by rewrite bound_items_keys.
    + intros k _. apply lookup_empty.
  - by rewrite (bind_fields_rejects _ _ Hacc).
Qed.

Lemma adapter_config_init (cls_fields : list (string * option pyval)) (kwargs : instance) :
  NoDup cls_fields.*1 → "invertible_adapter" ∉ cls_fields.*1 →
  AdapterConfig.__init__ cls_fields kwargs
  = if accepts_kwargs cls_fields kwargs
    then Returns () (kwargs ∪ field_defaults cls_fields)
    else Raises TypeError ∅.
Proof.
  intros Hnd Hinv. apply dataclass_init_result; [|done].
  intros k v s Hk. apply adapter_setattr_fresh. by intros ->.
Qed.

(** The generated constructor of a configuration class sets exactly the
    declared fields, each to its keyword argument if it is given and else
    to its default: for [AdapterConfig] classes without an
    [invertible_adapter] field, and for [AdapterFusionConfig] classes.  An
    unknown keyword, or a field with neither keyword nor default, raises
    [TypeError] and nothing is built. *)
Theorem constructor_binds_fields (cls_fields : list (string * option pyval))
    (kwargs : instance) :
  NoDup cls_fields.*1 →
  let built := if accepts_kwargs cls_fields kwargs
               then Returns () (kwargs ∪ field_defaults cls_fields)
               else Raises TypeError ∅ in
  ("invertible_adapter" ∉ cls_fields.*1 → AdapterConfig.__init__ cls_fields kwargs = built)
  ∧ AdapterFusionConfig.__init__ cls_fields kwargs = built.
Proof.
  intros Hnd built. split.
  - intros Hinv. by apply adapter_config_init.
  - apply dataclass_init_result; [|done]. intros k v s _. apply fusion_setattr_fresh.
Qed.

Lemma pfeiffer_fields_nodup : NoDup AdapterConfig.PfeifferConfig_fields.*1.
Proof. apply (bool_decide_unpack _). by vm_compute. Qed.

Lemma pfeiffer_no_invertible_field :
  "invertible_adapter" ∉ (AdapterConfig.PfeifferConfig_fields.*1).
Proof. apply (bool_decide_unpack _). by vm_compute. Qed.

Lemma constructor_binds_fields_witness :
  NoDup AdapterConfig.PfeifferConfig_fields.*1
  ∧ ("invertible_adapter" ∉ AdapterConfig.PfeifferConfig_fields.*1)
  ∧ AdapterConfig.__init__ AdapterConfig.PfeifferConfig_fields
      {["reduction_factor" := PAtom (AInt 8)]}
    = Returns () ({["reduction_factor" := PAtom (AInt 8)]}
                  ∪ field_defaults AdapterConfig.PfeifferConfig_fields).
Proof.
  split; [apply pfeiffer_fields_nodup|]. split; [apply pfeiffer_no_invertible_field|].
  pose proof (proj1 (constructor_binds_fields AdapterConfig.PfeifferConfig_fields
                       {["reduction_factor" := PAtom (AInt 8)]} pfeiffer_fields_nodup)
                pfeiffer_no_invertible_field) as H.
  assert (Hacc : accepts_kwargs AdapterConfig.PfeifferConfig_fields
                   {["reduction_factor" := PAtom (AInt 8)]} = true) by (by vm_compute).
  by rewrite Hacc in H.
Defined.

Lemma list_to_map_filter_lookup (P : string * pyval → Prop) `{∀ kv, Decision (P kv)}
    (l : list (string * pyval)) (k : string) :
  NoDup l.*1 →
  (list_to_map (filter P l) : instance) !! k
  = match (list_to_map l : instance) !! k with
    | Some v => if decide (P (k, v)) then Some v else None
    | None => None
    end.
Proof.
  intros Hnd.
  assert (Hndf : NoDup (filter P l).*1).
  { clear -Hnd. induction l as [|[k' v'] l IH]; [done|].
    apply NoDup_cons in Hnd as [Hk Hnd]. rewrite filter_cons.
    destruct (decide (P (k', v'))); [|by apply IH].
    simpl. apply NoDup_cons. split; [|by apply IH].
    intros Hin. apply Hk. apply list_elem_of_fmap in Hin as (kv & -> & Hin).
    apply list_elem_of_filter in Hin as [_ Hin]. apply list_elem_of_fmap. by exists kv. }
  destruct (list_to_map l !! k) as [v|] eqn:Hl.
  - apply elem_of_list_to_map in Hl; [|done].
    destruct (decide (P (k, v))) as [HP | HP].
    + apply elem_of_list_to_map; [done|]. by apply list_elem_of_filter.
    + apply not_elem_of_list_to_map. intros Hin.
      apply list_elem_of_fmap in Hin as ([k' v'] & -> & Hin).
      apply list_elem_of_filter in Hin as [HP' Hin]. simpl in *.
      assert (v' = v) as ->; [|done].
      apply (elem_of_list_to_map (M := gmap string)) in Hin; [|done].
      apply (elem_of_list_to_map (M := gmap string)) in Hl; [|done]. congruence.
  - apply not_elem_of_list_to_map in Hl. apply not_elem_of_list_to_map.
    intros Hin. apply Hl. apply list_elem_of_fmap in Hin as (kv & -> & Hin).
    apply list_elem_of_filter in Hin as [_ Hin]. apply list_elem_of_fmap. by exists kv.
Qed.

Lemma filter_keys_nodup (P : string * pyval → Prop) `{∀ kv, Decision (P kv)}
    (l : list (string * pyval)) :
  NoDup l.*1 → NoDup (filter P l).*1.
Proof.
  intros Hnd. induction l as [|[k' v'] l IH]; [done|].
  apply NoDup_cons in Hnd as [Hk Hnd]. rewrite filter_cons.
  destruct (decide (P (k', v'))); [|by apply IH].
  simpl. apply NoDup_cons. split; [|by apply IH].
  intros Hin. apply Hk. apply list_elem_of_fmap in Hin as (kv & -> & Hin).
  apply list_elem_of_filter in Hin as [_ Hin]. apply list_elem_of_fmap. by exists kv.
Qed.

Lemma forallb_ext_elem {A} (f g : A → bool) (l : list A) :
  (∀ x, x ∈ l → f x = g x) → forallb f l = forallb g l.
Proof.
  induction l as [|a l IH]; intros Hfg; [done|]. simpl.
  rewrite (Hfg a) by (by left). f_equal. apply IH. intros x Hx. apply Hfg. by right.
Qed.

Lemma from_dict_result (cls_fields : list (string * option pyval))
    (config : list (string * pyval)) :
  NoDup cls_fields.*1 → "invertible_adapter" ∉ cls_fields.*1 →
  NoDup config.*1 → "invertible_adapter" ∉ config.*1 →
  AdapterConfig.from_dict cls_fields config
  = if gives_required cls_fields config
    then Returns () (list_to_map config ∪ field_defaults cls_fields)
    else Raises TypeError ∅.
Proof.
  intros Hnd Hinv Hndc Hinvc. unfold AdapterConfig.from_dict.
  rewrite adapter_config_init by done.
  set (defined_kwargs :=
         filter (λ kv : string * pyval, bool_decide (kv.1 ∈ cls_fields.*1) = true) config).
  set (new_kwargs :=
         filter (λ kv : string * pyval, bool_decide (kv.1 ∈ cls_fields.*1) = false) config).
  assert (Hdef : ∀ k, (list_to_map defined_kwargs : instance) !! k
                      = if decide (k ∈ cls_fields.*1) then (list_to_map config : instance) !! k
                        else None).
  { intros k. unfold defined_kwargs. rewrite list_to_map_filter_lookup by done.
    destruct (list_to_map config !! k) as [v|]; [|by case_decide].
    simpl. by repeat case_decide. }
  assert (Hnew : ∀ k, (list_to_map new_kwargs : instance) !! k
                      = if decide (k ∈ cls_fields.*1) then None
                        else (list_to_map config : instance) !! k).
  { intros k. unfold new_kwargs. rewrite list_to_map_filter_lookup by done.
    destruct (list_to_map config !! k) as [v|]; [|by case_decide].
    simpl. by repeat case_decide. }
  assert (Hacc : accepts_kwargs cls_fields (list_to_map defined_kwargs)
                 = gives_required cls_fields config).
  { unfold accepts_kwargs, gives_required. rewrite bool_decide_eq_true_2.
    - simpl. apply forallb_ext_elem. intros f Hf. f_equal.
      apply bool_decide_ext. rewrite Hdef.
      rewrite decide_True by (apply list_elem_of_fmap; by exists f).
      rewrite <- elem_of_dom, dom_list_to_map_L. by rewrite elem_of_list_to_set.
    - intros k Hk. apply elem_of_dom in Hk. rewrite Hdef in Hk.
      case_decide; [by apply elem_of_list_to_set|by destruct Hk]. }
  rewrite Hacc. destruct (gives_required cls_fields config); [|done].
  rewrite assign_all_fresh.
  - f_equal. apply map_eq. intros k. rewrite !lookup_union, Hnew, Hdef.
    case_decide; [|by rewrite (left_id_L None (∪))].
    by rewrite (left_id_L None (∪)).
  - intros k v s Hk Hs. apply adapter_setattr_fresh; [|done]. intros ->.
    apply Hinvc. apply list_elem_of_fmap in Hk as (kv & -> & Hk).
    apply list_elem_of_filter in Hk as [_ Hk]. apply list_elem_of_fmap. by exists kv.
  - by apply filter_keys_nodup.
  - intros k Hk. apply list_elem_of_fmap in Hk as ([k' v'] & -> & Hk).
    apply list_elem_of_filter in Hk as [Hk _]. simpl in *.
    apply bool_decide_eq_false in Hk.
    rewrite lookup_union, Hdef, decide_False by done.
    by rewrite field_defaults_undeclared.
Qed.



Lemma to_dict_items (cls_fields : list (string * option pyval)) (self : instance) :
  (∀ f, f ∈ cls_fields → is_Some (self !! f.1)) →
  to_dict cls_fields self = Ok (map (λ f, (f.1, mapping_get self f.1)) cls_fields).
Proof.
  intros Hall. apply traverse_pure. intros f Hf. unfold mapping_get.
  by destruct (Hall f Hf) as [v ->].
Qed.

Lemma field_items_keys (cls_fields : list (string * option pyval)) (self : instance) :
  (map (λ f : string * option pyval, (f.1, mapping_get self f.1)) cls_fields).*1
  = cls_fields.*1.
Proof. induction cls_fields as [|f l IH]; simpl; by f_equal. Qed.

Lemma field_items_map (cls_fields : list (string * option pyval)) (self : instance) :
  NoDup cls_fields.*1 →
  (∀ f, f ∈ cls_fields → is_Some (self !! f.1)) →
  (list_to_map (map (λ f : string * option pyval, (f.1, mapping_get self f.1)) cls_fields)
     : instance)
  = declared_fields cls_fields self.
Proof.
  intros Hnd Hall. apply map_eq. intros k. unfold declared_fields.
  destruct (decide (k ∈ cls_fields.*1)) as [Hk | Hk].
  - pose proof Hk as Hk'. apply list_elem_of_fmap in Hk as (f & -> & Hf).
    destruct (Hall f Hf) as [v Hv].
    transitivity (Some v).
    + apply elem_of_list_to_map; [by rewrite field_items_keys|].
      apply list_elem_of_fmap. exists f. split; [|done]. unfold mapping_get. by rewrite Hv.
    + symmetry. by apply map_lookup_filter_Some.
  - rewrite (not_elem_of_list_to_map_1 _ k) by (by rewrite field_items_keys).
    symmetry. apply map_lookup_filter_None. right. intros v _. done.
Qed.

Lemma declared_fields_all (cls_fields : list (string * option pyval)) (self : instance) :
  dom self ⊆ list_to_set cls_fields.*1 → declared_fields cls_fields self = self.
Proof.
  intros Hdom. apply map_filter_id. intros k v Hk. simpl.
  assert (Hin : k ∈ dom self) by (apply elem_of_dom; by exists v).
  apply Hdom in Hin. by apply elem_of_list_to_set in Hin.
Qed.

Lemma declared_fields_defaults (cls_fields : list (string * option pyval)) (self : instance) :
  NoDup cls_fields.*1 →
  (∀ f, f ∈ cls_fields → is_Some (self !! f.1)) →
  declared_fields cls_fields self ∪ field_defaults cls_fields
  = declared_fields cls_fields self.
Proof.
  intros Hnd Hall. apply map_eq. intros k. rewrite lookup_union.
  destruct (decide (k ∈ cls_fields.*1)) as [Hk | Hk].
  - pose proof Hk as Hk'. apply list_elem_of_fmap in Hk as (f & -> & Hf).
    destruct (Hall f Hf) as [v Hv].
    assert (declared_fields cls_fields self !! f.1 = Some v) as ->.
    { by apply map_lookup_filter_Some. }
    by destruct (field_defaults cls_fields !! f.1).
  - rewrite field_defaults_undeclared by done. by rewrite (right_id_L None (∪)).
Qed.

Lemma gives_required_all (cls_fields : list (string * option pyval))
    (config : list (string * pyval)) :
  config.*1 = cls_fields.*1 → gives_required cls_fields config = true.
Proof.
  intros Hkeys. unfold gives_required. apply forallb_forall. intros f Hf%list_elem_of_In.
  apply orb_true_iff. left. apply bool_decide_eq_true. rewrite Hkeys.
  apply list_elem_of_fmap. by exists f.
Qed.

(** [from_dict(to_dict(config))] gives the configuration back without its
    custom attributes: [to_dict] lists the declared fields in declaration
    order, and [from_dict] builds from them an object that holds the
    declared fields of [config] with their values.  For a configuration without
    custom attributes the result is the configuration itself. *)
Theorem to_dict_from_dict_round_trip (cls_fields : list (string * option pyval))
    (self : instance) :
  NoDup cls_fields.*1 → "invertible_adapter" ∉ cls_fields.*1 →
  (∀ f, f ∈ cls_fields → is_Some (self !! f.1)) →
  ∃ items,
    to_dict cls_fields self = Ok items
    ∧ items.*1 = cls_fields.*1
    ∧ AdapterConfig.from_dict cls_fields items
      = Returns () (declared_fields cls_fields self)
    ∧ (dom self ⊆ list_to_set cls_fields.*1 → declared_fields cls_fields self = self).
Proof.
  intros Hnd Hinv Hall. eexists. split; [by apply to_dict_items|].
  split; [apply field_items_keys|]. split; [|apply declared_fields_all].
  rewrite from_dict_result; rewrite ?field_items_keys; try done.
  rewrite gives_required_all by apply field_items_keys.
  by rewrite field_items_map, declared_fields_defaults.
Qed.

Lemma tagged_fields_present :
  ∀ f, f ∈ AdapterConfig.PfeifferConfig_fields → is_Some (FieldExamples.tagged !! f.1).
Proof. apply Forall_forall, (bool_decide_unpack _). by vm_compute. Qed.

Lemma to_dict_from_dict_round_trip_witness :
  ∃ items,
    to_dict AdapterConfig.PfeifferConfig_fields FieldExamples.tagged = Ok items
    ∧ items.*1 = AdapterConfig.PfeifferConfig_fields.*1
    ∧ AdapterConfig.from_dict AdapterConfig.PfeifferConfig_fields items
      = Returns () (declared_fields AdapterConfig.PfeifferConfig_fields FieldExamples.tagged)
    ∧ (dom FieldExamples.tagged ⊆ list_to_set AdapterConfig.PfeifferConfig_fields.*1 →
       declared_fields AdapterConfig.PfeifferConfig_fields FieldExamples.tagged
       = FieldExamples.tagged).
Proof.
  apply (to_dict_from_dict_round_trip AdapterConfig.PfeifferConfig_fields
           FieldExamples.tagged pfeiffer_fields_nodup pfeiffer_no_invertible_field
           tagged_fields_present).
Defined.

Lemma kept_fields_lookup (cls_fields : list (string * option pyval))
    (changes self : instance) (k : string) :
  (list_to_map
     (omap (λ o : option (string * pyval), o)
        (map (λ f : string * option pyval,
                match changes !! f.1 with
                | Some _ => None
                | None => Some (f.1, mapping_get self f.1)
                end) cls_fields)) : instance) !! k
  = if decide (k ∈ cls_fields.*1 ∧ changes !! k = None)
    then Some (mapping_get self k) else None.
Proof.
  induction cls_fields as [|f l IH]; [simpl; by rewrite lookup_empty|].
  cbn [map omap list_omap fmap list_fmap].
  - destruct (changes !! f.1) eqn:Hc; cbn [map omap list_omap list_to_map foldr fst snd].
    + rewrite IH. destruct (decide (k ∈ l.*1 ∧ changes !! k = None)) as [[Hin Hn]|Hno].
      * rewrite decide_True; [done|]. split; [by right|done].
      * rewrite decide_False; [done|].
        intros [[-> | Hin]%elem_of_cons Hn]; [congruence|]. by apply Hno.
    + destruct (decide (k = f.1)) as [-> | Hne].
      * rewrite lookup_insert_eq. rewrite decide_True; [done|]. split; [by left|done].
      * rewrite lookup_insert_ne by done. rewrite IH.
        destruct (decide (k ∈ l.*1 ∧ changes !! k = None)) as [[Hin Hn]|Hno].
        -- rewrite decide_True; [done|]. split; [by right|done].
        -- rewrite decide_False; [done|].
           intros [[-> | Hin]%elem_of_cons Hn]; [done|]. by apply Hno.
Qed.

(** [replace] builds a new object of the class from the declared fields of
    [self], with the values of [changes] in place of those it names; custom
    attributes of [self] are not carried over.  A change that names no
    declared field raises [TypeError]. *)
Theorem replace_overrides_fields (cls_fields : list (string * option pyval))
    (changes self : instance) :
  NoDup cls_fields.*1 → "invertible_adapter" ∉ cls_fields.*1 →
  (∀ f, f ∈ cls_fields → is_Some (self !! f.1)) →
  replace_fields AdapterConfig.__setattr__ cls_fields changes self
  = if bool_decide (dom changes ⊆ list_to_set cls_fields.*1)
    then Returns () (changes ∪ declared_fields cls_fields self)
    else Raises TypeError ∅.
Proof.
  intros Hnd Hinv Hall. unfold replace_fields.
  rewrite (traverse_pure _
             (λ f : string * option pyval,
                match changes !! f.1 with
                | Some _ => None
                | None => Some (f.1, mapping_get self f.1)
                end)).
  2:{ intros f Hf. destruct (changes !! f.1); [done|]. unfold mapping_get.
      by destruct (Hall f Hf) as [v ->]. }
  set (kept := list_to_map _).
  assert (Hkept : ∀ k, kept !! k = if decide (k ∈ cls_fields.*1 ∧ changes !! k = None)
                                   then Some (mapping_get self k) else None).
  { intros k. apply kept_fields_lookup. }
  fold (AdapterConfig.__init__ cls_fields (changes ∪ kept)).
  rewrite adapter_config_init by done.
  assert (Hacc : accepts_kwargs cls_fields (changes ∪ kept)
                 = bool_decide (dom changes ⊆ list_to_set cls_fields.*1)).
  { unfold accepts_kwargs.
    assert (forallb (λ f : string * option pyval,
                       bool_decide (is_Some ((changes ∪ kept) !! f.1))
                       || bool_decide (is_Some f.2)) cls_fields = true) as ->.
    { apply forallb_forall. intros f Hf%list_elem_of_In. apply orb_true_iff. left.
      apply bool_decide_eq_true. apply lookup_union_is_Some.
      destruct (changes !! f.1) eqn:Hc; [by left|right].
      rewrite Hkept, decide_True; [done|]. split; [|done].
      apply list_elem_of_fmap. by exists f. }
    rewrite andb_true_r. apply bool_decide_ext. split.
    - intros Hsub k Hk. apply Hsub. rewrite dom_union. apply elem_of_union. by left.
    - intros Hsub k Hk. rewrite dom_union in Hk. apply elem_of_union in Hk as [Hk | Hk];
        [by apply Hsub|].
      apply elem_of_dom in Hk. rewrite Hkept in Hk.
      destruct (decide (k ∈ cls_fields.*1 ∧ changes !! k = None)) as [[H _]|];
        [|by destruct Hk].
      by apply elem_of_list_to_set. }
  rewrite Hacc. case_bool_decide as Hsub; [|done]. f_equal.
  apply map_eq. intros k. rewrite !lookup_union, Hkept.
  destruct (changes !! k) as [c|] eqn:Hc.
  - rewrite decide_False by (by intros [_ ?]). rewrite (right_id_L None (∪)).
    by rewrite !union_Some_l.
  - rewrite !(left_id_L None (∪)). unfold declared_fields.
    destruct (decide (k ∈ cls_fields.*1)) as [Hk | Hk].
    + rewrite decide_True by done. pose proof Hk as Hk'.
      apply list_elem_of_fmap in Hk as (f & -> & Hf). destruct (Hall f Hf) as [v Hv].
      unfold mapping_get. rewrite Hv. simpl.
      assert (filter (λ kv : string * pyval, kv.1 ∈ cls_fields.*1) self !! f.1 = Some v) as ->.
      { by apply map_lookup_filter_Some. }
      by destruct (field_defaults cls_fields !! f.1).
    + rewrite decide_False by (by intros [? _]). rewrite (left_id_L None (∪)).
      rewrite field_defaults_undeclared by done. symmetry.
      apply map_lookup_filter_None. right. by intros v _.
Qed.


Lemma replace_overrides_fields_witness :
  replace_fields AdapterConfig.__setattr__ AdapterConfig.PfeifferConfig_fields
    {["reduction_factor" := PAtom (AInt 2)]} FieldExamples.tagged
  = Returns () ({["reduction_factor" := PAtom (AInt 2)]}
                ∪ declared_fields AdapterConfig.PfeifferConfig_fields FieldExamples.tagged).
Proof.
  pose proof (replace_overrides_fields AdapterConfig.PfeifferConfig_fields
                {["reduction_factor" := PAtom (AInt 2)]} FieldExamples.tagged
                pfeiffer_fields_nodup pfeiffer_no_invertible_field tagged_fields_present)
    as H.
  rewrite bool_decide_eq_true_2 in H; [done|].
  apply (bool_decide_unpack _). by vm_compute.
Defined.

(** * The registry of adapters *)

Section RegistryFacts.
Variable digest : list (string * pyval) → string.

Lemma add_returns (name : string) (config : config_arg) (self self' : ModelAdaptersConfig) :
  add digest name config self = Returns () self' →
  adapters self !! name = None
  ∧ ∃ config_name, adapters self' = <[name := config_name]> (adapters self)
    ∧ fusions self' = fusions self ∧ fusion_config_map self' = fusion_config_map self
    ∧ match config with
      | ConfigNone => config_name = DEFAULT_ADAPTER_CONFIG ∧ config_map self' = config_map self
      | ConfigStr s =>
          config_name = s ∧ config_map self' = config_map self
          ∧ (is_Some (ADAPTER_CONFIG_MAP !! s) ∨ is_Some (config_map self !! s))
      | ConfigMapping m =>
          config_name = get_adapter_config_hash digest m
          ∧ config_map self' = <[config_name := VMapping m]> (config_map self)
      | ConfigOther => False
      end.
Proof.
  unfold add, has_key. case_bool_decide as Hname; [done|].
  assert (adapters self !! name = None) as Hnone.
  { destruct (adapters self !! name) eqn:E; [|done]. destruct Hname. by eexists. }
  intros Hadd. split; [done|].
  destruct config as [|s|m|]; simpl in Hadd.
  - injection Hadd as <-. by eexists.
  - repeat case_bool_decide; simpl in Hadd; try done; injection Hadd as <-;
      eexists; repeat split; eauto.
  - injection Hadd as <-. by eexists.
  - done.
Qed.

Lemma contains_lookup (item : string) (self : ModelAdaptersConfig) :
  contains item self = bool_decide (is_Some (adapters self !! item)).
Proof. done. Qed.

(** Adding an adapter registers its name, once: the name was not in the
    registry, is in it afterwards, the registry has one more adapter, and
    adding the name again raises the adapter-exists error.  [get] then
    returns the configuration that was added: the mapping itself, or for an
    identifier (the default identifier when no configuration is given) that
    the configuration map does not define, the built-in configuration of
    that name. *)
Theorem add_then_get (name : string) (config : config_arg)
    (self self' : ModelAdaptersConfig) :
  add digest name config self = Returns () self' →
  contains name self = false ∧ contains name self' = true
  ∧ registry_len self' = S (registry_len self)
  ∧ (∀ config', add digest name config' self' = Raises (ValueError AdapterExists) self')
  ∧ (∀ m, config = ConfigMapping m → get name self' = Ok (Some m))
  ∧ (∀ s, config = ConfigStr s ∨ (config = ConfigNone ∧ s = DEFAULT_ADAPTER_CONFIG) →
       config_map self !! s = None →
       ∃ c, ADAPTER_CONFIG_MAP !! s = Some c ∧ get name self' = Ok (Some c)).
Proof.
  intros Hadd. destruct (add_returns _ _ _ _ Hadd) as (Hfresh & config_name & Had & _ & _ & Hc).
  split; [by rewrite contains_lookup, Hfresh|].
  split; [by rewrite contains_lookup, Had, lookup_insert_eq|].
  split; [unfold registry_len; rewrite Had; by apply map_size_insert_None|].
  split.
  { intros config'. unfold add, has_key. by rewrite Had, lookup_insert_eq. }
  split.
  - intros m ->. destruct Hc as [-> Hcm]. unfold get.
    by rewrite Had, lookup_insert_eq, Hcm, lookup_insert_eq.
  - intros s [-> | [-> ->]] Hs.
    + destruct Hc as (-> & Hcm & [[c Hb] | [c Hb]]); [|congruence].
      exists c. split; [done|]. unfold get.
      by rewrite Had, lookup_insert_eq, Hcm, Hs, Hb.
    + destruct Hc as (-> & Hcm). eexists. split; [reflexivity|]. unfold get.
      by rewrite Had, lookup_insert_eq, Hcm, Hs.
Qed.

(** Adding an adapter leaves the other adapters as they are, unless the
    hash of the added mapping is the configuration name of a registered
    adapter and stands for another configuration there. *)
Theorem add_keeps_other_adapters (name other : string) (config : config_arg)
    (self self' : ModelAdaptersConfig) :
  add digest name config self = Returns () self' →
  other ≠ name →
  (∀ m, config = ConfigMapping m →
     config_map self !! get_adapter_config_hash digest m = Some (VMapping m)
     ∨ adapters self !! other ≠ Some (get_adapter_config_hash digest m)) →
  contains other self' = contains other self ∧ get other self' = get other self.
Proof.
  intros Hadd Hne Hhash.
  destruct (add_returns _ _ _ _ Hadd) as (Hfresh & config_name & Had & _ & _ & Hc).
  split; [by rewrite !contains_lookup, Had, lookup_insert_ne|].
  unfold get. rewrite Had, lookup_insert_ne by done.
  destruct (adapters self !! other) as [c|] eqn:Hother; [|done].
  destruct config as [|s|m|]; [by destruct Hc as [_ ->]|by destruct Hc as (_ & -> & _)| |done].
  destruct Hc as [-> ->].
  destruct (decide (c = get_adapter_config_hash digest m)) as [-> | Hneq].
  - destruct (Hhash m eq_refl) as [Hbound | Hunused]; [|done].
    by rewrite lookup_insert_eq, Hbound.
  - by rewrite lookup_insert_ne.
Qed.
End RegistryFacts.

Lemma add_then_get_witness :
  ∃ self',
    add numeral_digest "a" (ConfigMapping RegistryExamples.rank8) RegistryExamples.fresh
    = Returns () self'
    ∧ contains "a" RegistryExamples.fresh = false ∧ contains "a" self' = true
    ∧ registry_len self' = S (registry_len RegistryExamples.fresh)
    ∧ (∀ config', add numeral_digest "a" config' self'
                  = Raises (ValueError AdapterExists) self')
    ∧ (∀ m, ConfigMapping RegistryExamples.rank8 = ConfigMapping m →
         get "a" self' = Ok (Some m))
    ∧ (∀ s, ConfigMapping RegistryExamples.rank8 = ConfigStr s
            ∨ (ConfigMapping RegistryExamples.rank8 = ConfigNone
               ∧ s = DEFAULT_ADAPTER_CONFIG) →
         config_map RegistryExamples.fresh !! s = None →
         ∃ c, ADAPTER_CONFIG_MAP !! s = Some c ∧ get "a" self' = Ok (Some c)).
Proof.
  eexists. split; [reflexivity|].
  apply (add_then_get numeral_digest "a" (ConfigMapping RegistryExamples.rank8)
           RegistryExamples.fresh).
  reflexivity.
Defined.

Lemma add_keeps_other_adapters_witness :
  ∃ self self',
    add numeral_digest "a" (ConfigMapping RegistryExamples.rank8) RegistryExamples.fresh
    = Returns () self
    ∧ add numeral_digest "b" (ConfigMapping RegistryExamples.rank8) self = Returns () self'
    ∧ contains "a" self' = contains "a" self ∧ get "a" self' = get "a" self.
Proof.
  eexists _, _. split; [reflexivity|]. split; [reflexivity|].
  apply (add_keeps_other_adapters numeral_digest "b" "a"
           (ConfigMapping RegistryExamples.rank8)).
  - reflexivity.
  - done.
  - intros m [= <-]. left. apply lookup_insert_eq.
Defined.
Lemma py_eq_refl (v : pyval) : py_eq v v = true.
Proof. by apply bool_decide_eq_true. Qed.

Lemma py_eq_sym (v w : pyval) : py_eq v w = true → py_eq w v = true.
Proof. unfold py_eq. rewrite !bool_decide_eq_true. congruence. Qed.

Lemma py_eq_trans (u v w : pyval) : py_eq u v = true → py_eq v w = true → py_eq u w = true.
Proof. unfold py_eq. rewrite !bool_decide_eq_true. congruence. Qed.

Lemma config_len_zero (config : instance) : config_len config = 0 ↔ config = ∅.
Proof. apply map_size_empty_iff. Qed.

Lemma common_config_loop_value (self : ModelAdaptersConfig) (attribute : string)
    (adapter_names : list string) (i : nat) (common_value v : pyval) :
  common_config_loop self attribute i adapter_names common_value = Value v
  ↔ (∀ name, name ∈ adapter_names →
       ∃ config, get name self = Ok (Some config) ∧ config ≠ ∅
                 ∧ py_eq (mapping_get config attribute) v = true)
    ∧ match last adapter_names with
      | Some name => ∃ config, get name self = Ok (Some config)
                               ∧ v = mapping_get config attribute
      | None => v = common_value
      end
    ∧ (adapter_names ≠ [] → 0 < i → py_eq common_value v = true).
Proof.
  revert i common_value. induction adapter_names as [|name rest IH]; intros i common_value.
  - simpl. split.
    + intros [= ->]. split; [by intros name Hin%elem_of_nil|done].
    + by intros (_ & -> & _).
  - cbn [common_config_loop]. split.
    + destruct (get name self) as [[config|]|e] eqn:Hget; simpl; try done.
      destruct (Nat.eqb (config_len config) 0) eqn:Hlen; [done|].
      apply Nat.eqb_neq in Hlen.
      destruct (Nat.ltb 0 i && negb (py_eq (mapping_get config attribute) common_value))
        eqn:Hcmp; [done|].
      intros (Hall & Hlast & Hnext)%IH.
      assert (Hv : py_eq (mapping_get config attribute) v = true).
      { destruct rest as [|name' rest']; [|apply Hnext; [done|lia]].
        simpl in Hlast. subst v. apply py_eq_refl. }
      split; [|split].
      * intros name' [-> | Hin]%elem_of_cons; [|by apply Hall].
        exists config. split; [done|]. split; [|done]. by rewrite <- config_len_zero.
      * rewrite last_cons. destruct (last rest); [done|]. subst v. by exists config.
      * intros _ Hi. apply andb_false_iff in Hcmp as [Hcmp | Hcmp].
        -- apply Nat.ltb_ge in Hcmp. lia.
        -- apply negb_false_iff in Hcmp. apply py_eq_sym in Hcmp.
           by apply (py_eq_trans _ _ _ Hcmp).
    + intros (Hall & Hlast & Hnext).
      destruct (Hall name) as (config & Hget & Hne & Hv); [by left|].
      rewrite Hget. simpl.
      rewrite (proj2 (Nat.eqb_neq _ _)) by (by rewrite config_len_zero).
      assert (Nat.ltb 0 i && negb (py_eq (mapping_get config attribute) common_value)
              = false) as ->.
      { destruct (Nat.ltb 0 i) eqn:Hi; [|done]. apply Nat.ltb_lt in Hi. simpl.
        apply negb_false_iff. apply (py_eq_trans _ v); [done|].
        apply py_eq_sym. by apply Hnext. }
      apply IH. split; [|split].
      * intros name' Hin. apply Hall. by right.
      * rewrite last_cons in Hlast. destruct (last rest); [done|].
        destruct Hlast as (config' & Hget' & ->). congruence.
      * done.
Qed.

(** [common_config_value] returns a value exactly when every listed adapter
    is registered with a configuration that is not empty and their values
    of the attribute (read as [None] where a configuration lacks it) are all
    equal, by [==], to the returned one, which is the value of the last
    adapter, or [None] for an empty list. *)
Theorem common_config_value_shared (self : ModelAdaptersConfig)
    (adapter_names : list string) (attribute : string) (v : pyval) :
  common_config_value adapter_names attribute self = Value v
  ↔ (∀ name, name ∈ adapter_names →
       ∃ config, get name self = Ok (Some config) ∧ config ≠ ∅
                 ∧ py_eq (mapping_get config attribute) v = true)
    ∧ match last adapter_names with
      | Some name => ∃ config, get name self = Ok (Some config)
                               ∧ v = mapping_get config attribute
      | None => v = PAtom ANone
      end.
Proof.
  unfold common_config_value. rewrite common_config_loop_value. split.
  - by intros (? & ? & _).
  - intros [? ?]. split; [done|]. split; [done|]. lia.
Qed.

Lemma common_config_value_shared_witness :
  (∀ name, name ∈ ["a"; "b"] →
     ∃ config, get name SharedExamples.registered = Ok (Some config) ∧ config ≠ ∅
               ∧ py_eq (mapping_get config "r") (PAtom (AInt 8)) = true)
  ∧ ∃ config, get "b" SharedExamples.registered = Ok (Some config)
              ∧ PAtom (AInt 8) = mapping_get config "r".
Proof.
  apply (proj1 (common_config_value_shared SharedExamples.registered ["a"; "b"] "r"
                  (PAtom (AInt 8)))).
  by vm_compute.
Defined.

(** * The heads of a model *)

Lemma dict_set_fresh {K V} (same : K → K → bool) (k : K) (v : V) (d : list (K * V)) :
  (∀ kv, kv ∈ d → same kv.1 k = false) → dict_set same k v d = d ++ [(k, v)].
Proof.
  intros Hfresh. unfold dict_set.
  assert (existsb (λ kv : K * V, same kv.1 k) d = false) as ->; [|done].
  apply not_true_is_false. intros (kv & Hin%list_elem_of_In & Hsame)%existsb_exists.
  by rewrite Hfresh in Hsame.
Qed.

Lemma dict_of_distinct {K V K'} (same : K → K → bool) (key : K → K') (items : list (K * V)) :
  (∀ a b, same a b = true ↔ key a = key b) →
  NoDup (key <$> items.*1) → dict_of same items = items.
Proof.
  intros Hsame. unfold dict_of.
  assert (Hgen : ∀ acc, NoDup (key <$> (acc ++ items).*1) →
            foldl (λ d kv, dict_set same kv.1 kv.2 d) acc items = acc ++ items).
  { induction items as [|[k v] items IH]; intros acc Hnd; simpl.
    - by rewrite app_nil_r.
    - rewrite dict_set_fresh.
      + rewrite IH; rewrite <- app_assoc; done.
      + intros kv Hin. apply not_true_is_false. intros Heq%Hsame.
        rewrite !fmap_app in Hnd. apply NoDup_app in Hnd as (_ & Hdisj & _).
        apply (Hdisj (key k)).
        * rewrite <- Heq. apply list_elem_of_fmap. exists kv.1. split; [done|].
          apply list_elem_of_fmap. by exists kv.
        * simpl. by left. }
  intros Hnd. by apply (Hgen []).
Qed.

Lemma string_eqb_same (a b : string) : String.eqb a b = true ↔ id a = id b.
Proof. apply String.eqb_eq. Qed.

Lemma same_atom_normal (a b : atom) : same_atom a b = true ↔ normal_atom a = normal_atom b.
Proof. apply bool_decide_eq_true. Qed.

Lemma swap_swap {A B} (l : list (A * B)) :
  map (λ kv : B * A, (kv.2, kv.1)) (map (λ kv : A * B, (kv.2, kv.1)) l) = l.
Proof. induction l as [|[a b] l IH]; simpl; by f_equal. Qed.

Lemma swap_keys {A B} (l : list (A * B)) :
  (map (λ kv : A * B, (kv.2, kv.1)) l).*1 = l.*2.
Proof. induction l as [|[a b] l IH]; simpl; by f_equal. Qed.

Lemma swap_values {A B} (l : list (A * B)) :
  (map (λ kv : A * B, (kv.2, kv.1)) l).*2 = l.*1.
Proof. induction l as [|[a b] l IH]; simpl; by f_equal. Qed.
Section HeadFacts.
Context {outputs args : Type}.
Variable module_name_ok : string → bool.
Variable module_name_error : string → pyexn.

(** The label map of a head of one of the four classes, as
    [add_prediction_head] leaves it. *)
Lemma head_config_lookups (head_type : string) (num_labels layers : Z)
    (activation_function : pyval) (id2label : option (list (atom * string))) :
  let config := head_config head_type num_labels layers activation_function id2label in
  config !! "num_labels" = Some (PAtom (AInt num_labels))
  ∧ config !! "num_choices" = None
  ∧ config !! "layers" = Some (PAtom (AInt layers))
  ∧ config !! "activation_function" = Some activation_function
  ∧ config !! "label2id"
    = Some match id2label with
           | Some (kv :: items) =>
               PDict (dict_of String.eqb
                        (map (λ kv : atom * string, (kv.2, kv.1))
                           (dict_of same_atom (kv :: items))))
           | _ => PAtom ANone
           end.
Proof.
  unfold head_config. repeat split.
Qed.

Lemma set_active_head_labelled (name : string) (head : @FlexibleHeads.Head outputs args) (self : @FlexibleHeads.Model outputs args)
    (items : list (string * atom)) :
  FlexibleHeads.heads self !! name = Some head →
  FlexibleHeads.config head !! "label2id" = Some (PDict items) →
  FlexibleHeads.set_active_head (Some name) self
  = (Value (),
     {| FlexibleHeads.heads := FlexibleHeads.heads self;
        FlexibleHeads.prediction_heads := FlexibleHeads.prediction_heads self;
        FlexibleHeads.label2id := PDict items;
        FlexibleHeads.id2label :=
          Some (dict_of same_atom
                  (map (λ kv : string * atom, (kv.2, kv.1)) (dict_of String.eqb items)));
        FlexibleHeads._active_head := Some name |}).
Proof.
  intros Hhead Hlabel. unfold FlexibleHeads.set_active_head. simpl. rewrite Hhead, Hlabel.
  unfold FlexibleHeads.get_labels_dict. simpl. by rewrite Hhead, Hlabel.
Qed.

Lemma fill_label2id_standard (head_type : string) (num_labels layers : Z)
    (activation_function : pyval) (id2label : option (list (atom * string))) :
  let config := head_config head_type num_labels layers activation_function id2label in
  FlexibleHeads.fill_label2id config
  = (Ok (),
     match id2label with
     | Some (kv :: items) => config
     | _ => <["label2id" :=
                FlexibleHeads.default_label2id (seq 0 (Z.to_nat num_labels))]> config
     end).
Proof.
  intros config. unfold FlexibleHeads.fill_label2id.
  destruct (head_config_lookups head_type num_labels layers activation_function id2label)
    as (Hn & Hc & _ & _ & Hl).
  fold config in Hn, Hc, Hl. rewrite Hl.
  by destruct id2label as [[|kv items]|].
Qed.

Lemma add_prediction_head_standard (head : @FlexibleHeads.Head outputs args)
    (overwrite_ok : bool) (self : @FlexibleHeads.Model outputs args)
    (head_type : string) (num_labels layers : Z) (activation_function : pyval)
    (id2label : option (list (atom * string))) :
  FlexibleHeads.config head
  = head_config head_type num_labels layers activation_function id2label →
  module_name_ok (FlexibleHeads.name head) = true →
  has_key (FlexibleHeads.name head) (FlexibleHeads.heads self) && negb overwrite_ok = false →
  let label2id := standard_label2id num_labels id2label in
  let config := <["label2id" := PDict label2id]> (FlexibleHeads.config head) in
  FlexibleHeads.add_prediction_head module_name_ok module_name_error head overwrite_ok self
  = (Value (),
     {| FlexibleHeads.heads :=
          <[FlexibleHeads.name head :=
              {| FlexibleHeads.name := FlexibleHeads.name head;
                 FlexibleHeads.config := config;
                 FlexibleHeads.call := FlexibleHeads.call head |}]>
            (FlexibleHeads.heads self);
        FlexibleHeads.prediction_heads :=
          <[FlexibleHeads.name head := config]> (FlexibleHeads.prediction_heads self);
        FlexibleHeads.label2id := PDict label2id;
        FlexibleHeads.id2label :=
          Some (dict_of same_atom
                  (map (λ kv : string * atom, (kv.2, kv.1)) (dict_of String.eqb label2id)));
        FlexibleHeads._active_head := Some (FlexibleHeads.name head) |}).
Proof.
  intros Hconfig Hok Hfree label2id config. unfold FlexibleHeads.add_prediction_head.
  assert (negb (has_key (FlexibleHeads.name head) (FlexibleHeads.heads self)) || overwrite_ok
          = true) as ->.
  { by destruct (has_key _ _), overwrite_ok. }
  rewrite Hok, Hconfig, fill_label2id_standard.
  assert (match id2label with
          | Some (_ :: _) =>
              head_config head_type num_labels layers activation_function id2label
          | _ => <["label2id" :=
                     FlexibleHeads.default_label2id (seq 0 (Z.to_nat num_labels))]>
                   (head_config head_type num_labels layers activation_function id2label)
          end = config) as ->.
  { unfold config, label2id. rewrite Hconfig.
    by destruct id2label as [[|kv items]|]. }
  erewrite set_active_head_labelled; [done| |].
  - simpl. apply lookup_insert_eq.
  - simpl. unfold config. apply lookup_insert_eq.
Qed.

(** A head of the four classes is added when its name is free or
    [overwrite_ok] is set, and else the call raises and leaves the model as
    it is.  The added head is the active head, [forward_head] without a
    head name runs it, the heads of other names are kept, and
    [config.prediction_heads] holds its [config] under its name. *)
Theorem add_prediction_head_activates (head : @FlexibleHeads.Head outputs args)
    (overwrite_ok : bool) (self : @FlexibleHeads.Model outputs args)
    (head_type : string) (num_labels layers : Z) (activation_function : pyval)
    (id2label : option (list (atom * string))) :
  FlexibleHeads.config head
  = head_config head_type num_labels layers activation_function id2label →
  module_name_ok (FlexibleHeads.name head) = true →
  FlexibleHeads.name head ≠ "" →
  if has_key (FlexibleHeads.name head) (FlexibleHeads.heads self) && negb overwrite_ok
  then
    FlexibleHeads.add_prediction_head module_name_ok module_name_error head overwrite_ok self
    = (Exception (PyValueError
         ("Model already contains a head with name '" ++ FlexibleHeads.name head
          ++ "'. Use overwrite_ok=True to force overwrite.")), self)
  else
    ∃ self',
      FlexibleHeads.add_prediction_head module_name_ok module_name_error head overwrite_ok self
      = (Value (), self')
      ∧ FlexibleHeads._active_head self' = Some (FlexibleHeads.name head)
      ∧ (∀ all_outputs a,
           Heads.forward_head (FlexibleHeads.dispatch self') all_outputs None a
           = FlexibleHeads.call head all_outputs a)
      ∧ (∀ other, other ≠ FlexibleHeads.name head →
           FlexibleHeads.heads self' !! other = FlexibleHeads.heads self !! other)
      ∧ FlexibleHeads.prediction_heads self' !! FlexibleHeads.name head
        = FlexibleHeads.config <$> (FlexibleHeads.heads self' !! FlexibleHeads.name head).
Proof.
  intros Hconfig Hok Hname.
  destruct (has_key _ _ && negb overwrite_ok) eqn:Htaken.
  - unfold FlexibleHeads.add_prediction_head.
    apply andb_true_iff in Htaken as [-> ->%negb_true_iff]. done.
  - eexists. split; [by eapply add_prediction_head_standard|]. simpl.
    split; [done|]. split; [|split].
    + intros all_outputs a. unfold Heads.forward_head, FlexibleHeads.dispatch. simpl.
      destruct (FlexibleHeads.name head) as [|c n] eqn:Hn; [done|]. simpl.
      by rewrite lookup_fmap, lookup_insert_eq.
    + intros other Hother. by rewrite lookup_insert_ne.
    + by rewrite !lookup_insert_eq.
Qed.

Lemma labels_of_added_head (head : @FlexibleHeads.Head outputs args)
    (overwrite_ok : bool) (self : @FlexibleHeads.Model outputs args)
    (head_type : string) (num_labels layers : Z) (activation_function : pyval)
    (id2label : option (list (atom * string))) (labels : list (string * atom)) :
  FlexibleHeads.config head
  = head_config head_type num_labels layers activation_function id2label →
  module_name_ok (FlexibleHeads.name head) = true →
  has_key (FlexibleHeads.name head) (FlexibleHeads.heads self) && negb overwrite_ok = false →
  standard_label2id num_labels id2label = labels →
  NoDup labels.*1 → NoDup (normal_atom <$> labels.*2) →
  ∃ self',
    FlexibleHeads.add_prediction_head module_name_ok module_name_error head overwrite_ok self
    = (Value (), self')
    ∧ FlexibleHeads.label2id self' = PDict labels
    ∧ FlexibleHeads.id2label self'
      = Some (map (λ kv : string * atom, (kv.2, kv.1)) labels)
    ∧ FlexibleHeads.get_labels_dict None self'
      = Value (Some (map (λ kv : string * atom, (kv.2, kv.1)) labels))
    ∧ FlexibleHeads.get_labels None self' = Value (Some labels.*1).
Proof.
  intros Hconfig Hok Hfree Hlabels Hnd1 Hnd2.
  assert (Hitems : dict_of String.eqb labels = labels).
  { apply (dict_of_distinct _ id); [apply string_eqb_same|]. by rewrite list_fmap_id. }
  assert (Hids : dict_of same_atom (map (λ kv : string * atom, (kv.2, kv.1)) labels)
                 = map (λ kv : string * atom, (kv.2, kv.1)) labels).
  { apply (dict_of_distinct _ normal_atom); [apply same_atom_normal|].
    by rewrite swap_keys. }
  eexists. split; [by eapply add_prediction_head_standard|]. simpl.
  rewrite Hlabels, Hitems, Hids. split; [done|]. split; [done|].
  assert (Hget : FlexibleHeads.get_labels_dict None
            {| FlexibleHeads.heads :=
                 <[FlexibleHeads.name head :=
                     {| FlexibleHeads.name := FlexibleHeads.name head;
                        FlexibleHeads.config :=
                          <["label2id" := PDict labels]> (FlexibleHeads.config head);
                        FlexibleHeads.call := FlexibleHeads.call head |}]>
                   (FlexibleHeads.heads self);
               FlexibleHeads.prediction_heads :=
                 <[FlexibleHeads.name head :=
                     <["label2id" := PDict labels]> (FlexibleHeads.config head)]>
                   (FlexibleHeads.prediction_heads self);
               FlexibleHeads.label2id := PDict labels;
               FlexibleHeads.id2label :=
                 Some (map (λ kv : string * atom, (kv.2, kv.1)) labels);
               FlexibleHeads._active_head := Some (FlexibleHeads.name head) |}
          = Value (Some (map (λ kv : string * atom, (kv.2, kv.1)) labels))).
  { unfold FlexibleHeads.get_labels_dict. simpl.
    rewrite !lookup_insert_eq. simpl. rewrite lookup_insert_eq. simpl.
    by rewrite Hitems, Hids. }
  split; [done|]. unfold FlexibleHeads.get_labels. rewrite Hget. simpl.
  by rewrite swap_values.
Qed.

(** The labels of a head come back from the model: when a head of the four
    classes was made with an [id2label] that is not empty and whose labels
    differ from each other, then after [add_prediction_head] the
    [config.id2label] of the model and [get_labels_dict()] are that
    [id2label], [config.label2id] is its inverse, and [get_labels()] lists
    the labels in its order. *)
Theorem given_labels_round_trip (head : @FlexibleHeads.Head outputs args)
    (overwrite_ok : bool) (self : @FlexibleHeads.Model outputs args)
    (head_type : string) (num_labels layers : Z) (activation_function : pyval)
    (id2label : list (atom * string)) :
  FlexibleHeads.config head
  = head_config head_type num_labels layers activation_function (Some id2label) →
  module_name_ok (FlexibleHeads.name head) = true →
  has_key (FlexibleHeads.name head) (FlexibleHeads.heads self) && negb overwrite_ok = false →
  id2label ≠ [] → NoDup (normal_atom <$> id2label.*1) → NoDup id2label.*2 →
  ∃ self',
    FlexibleHeads.add_prediction_head module_name_ok module_name_error head overwrite_ok self
    = (Value (), self')
    ∧ FlexibleHeads.label2id self'
      = PDict (map (λ kv : atom * string, (kv.2, kv.1)) id2label)
    ∧ FlexibleHeads.id2label self' = Some id2label
    ∧ FlexibleHeads.get_labels_dict None self' = Value (Some id2label)
    ∧ FlexibleHeads.get_labels None self' = Value (Some id2label.*2).
Proof.
  intros Hconfig Hok Hfree Hne Hids Hlabels.
  destruct (labels_of_added_head head overwrite_ok self head_type num_labels layers
              activation_function (Some id2label)
              (map (λ kv : atom * string, (kv.2, kv.1)) id2label))
    as (self' & Hadd & Hl & Hi & Hd & Hg); try done.
  - destruct id2label as [|kv items]; [done|]. unfold standard_label2id.
    rewrite (dict_of_distinct same_atom normal_atom) by (done || apply same_atom_normal).
    apply (dict_of_distinct _ id); [apply string_eqb_same|].
    by rewrite list_fmap_id, swap_keys.
  - by rewrite swap_keys.
  - by rewrite swap_values.
  - exists self'. rewrite swap_swap in Hi, Hd. rewrite swap_keys in Hg. done.
Qed.

Lemma default_labels_distinct (n : nat) :
  let labels := map (λ num : nat, (("LABEL_" ++ pretty num)%string, AInt (Z.of_nat num)))
                  (seq 0 n) in
  NoDup labels.*1 ∧ NoDup (normal_atom <$> labels.*2).
Proof.
  simpl. split.
  - rewrite <- list_fmap_compose. apply NoDup_fmap_2; [|apply NoDup_seq].
    intros i j Hij. simpl in Hij. apply (inj (String.append "LABEL_")) in Hij.
    by apply (inj pretty) in Hij.
  - rewrite <- !list_fmap_compose. apply NoDup_fmap_2; [|apply NoDup_seq].
    intros i j Hij. simpl in Hij. injection Hij as Hij.
    rewrite !inject_Z_Qred in Hij. injection Hij. lia.
Qed.

(** A head of the four classes that was made without [id2label], or with
    an empty one, gets the labels [LABEL_0], [LABEL_1], ... for its
    [num_labels] classes: after [add_prediction_head], [get_labels()] lists
    them and [config.id2label] of the model maps every class to its
    label. *)
Theorem default_labels_generated (head : @FlexibleHeads.Head outputs args)
    (overwrite_ok : bool) (self : @FlexibleHeads.Model outputs args)
    (head_type : string) (num_labels layers : Z) (activation_function : pyval)
    (id2label : option (list (atom * string))) :
  FlexibleHeads.config head
  = head_config head_type num_labels layers activation_function id2label →
  module_name_ok (FlexibleHeads.name head) = true →
  has_key (FlexibleHeads.name head) (FlexibleHeads.heads self) && negb overwrite_ok = false →
  id2label = None ∨ id2label = Some [] →
  ∃ self',
    FlexibleHeads.add_prediction_head module_name_ok module_name_error head overwrite_ok self
    = (Value (), self')
    ∧ FlexibleHeads.id2label self'
      = Some (map (λ num : nat, (AInt (Z.of_nat num), ("LABEL_" ++ pretty num)%string))
                (seq 0 (Z.to_nat num_labels)))
    ∧ FlexibleHeads.get_labels None self'
      = Value (Some (map (λ num : nat, ("LABEL_" ++ pretty num)%string)
                       (seq 0 (Z.to_nat num_labels)))).
Proof.
  intros Hconfig Hok Hfree Hnone.
  destruct (default_labels_distinct (Z.to_nat num_labels)) as [Hnd1 Hnd2].
  destruct (labels_of_added_head head overwrite_ok self head_type num_labels layers
              activation_function id2label _ Hconfig Hok Hfree eq_refl)
    as (self' & Hadd & Hl & Hi & Hd & Hg).
  - assert (standard_label2id num_labels id2label
            = dict_of String.eqb
                (map (λ num : nat, (("LABEL_" ++ pretty num)%string, AInt (Z.of_nat num)))
                   (seq 0 (Z.to_nat num_labels)))) as ->.
    { by destruct Hnone as [-> | ->]. }
    rewrite (dict_of_distinct String.eqb id); [done|apply string_eqb_same|].
    by rewrite list_fmap_id.
  - assert (standard_label2id num_labels id2label
            = dict_of String.eqb
                (map (λ num : nat, (("LABEL_" ++ pretty num)%string, AInt (Z.of_nat num)))
                   (seq 0 (Z.to_nat num_labels)))) as ->.
    { by destruct Hnone as [-> | ->]. }
    rewrite (dict_of_distinct String.eqb id); [done|apply string_eqb_same|].
    by rewrite list_fmap_id.
  - assert (Hstd : standard_label2id num_labels id2label
            = map (λ num : nat, (("LABEL_" ++ pretty num)%string, AInt (Z.of_nat num)))
                (seq 0 (Z.to_nat num_labels))).
    { transitivity (dict_of String.eqb
                (map (λ num : nat, (("LABEL_" ++ pretty num)%string, AInt (Z.of_nat num)))
                   (seq 0 (Z.to_nat num_labels)))); [by destruct Hnone as [-> | ->]|].
      apply (dict_of_distinct String.eqb id); [apply string_eqb_same|].
      by rewrite list_fmap_id. }
    rewrite Hstd in Hi, Hg. exists self'. split; [done|]. split.
    + rewrite Hi. f_equal. by rewrite map_map.
    + rewrite Hg. do 2 f_equal. by rewrite <- list_fmap_compose.
Qed.

(** A head whose [config] has no label map and neither [num_labels] nor
    [num_choices] makes [add_prediction_head] raise the [KeyError] of the
    missing [label2id], after the head was put into the table of heads and
    into [config.prediction_heads] and was made the active head. *)
Theorem head_without_labels_raises (head : @FlexibleHeads.Head outputs args)
    (overwrite_ok : bool) (self : @FlexibleHeads.Model outputs args) :
  FlexibleHeads.config head !! "label2id" = None →
  FlexibleHeads.config head !! "num_labels" = None →
  FlexibleHeads.config head !! "num_choices" = None →
  module_name_ok (FlexibleHeads.name head) = true →
  has_key (FlexibleHeads.name head) (FlexibleHeads.heads self) && negb overwrite_ok = false →
  ∃ self',
    FlexibleHeads.add_prediction_head module_name_ok module_name_error head overwrite_ok self
    = (Exception (PyExn (KeyError "label2id")), self')
    ∧ FlexibleHeads._active_head self' = Some (FlexibleHeads.name head)
    ∧ FlexibleHeads.config <$> (FlexibleHeads.heads self' !! FlexibleHeads.name head)
      = Some (FlexibleHeads.config head)
    ∧ FlexibleHeads.prediction_heads self' !! FlexibleHeads.name head
      = Some (FlexibleHeads.config head)
    ∧ FlexibleHeads.label2id self' = FlexibleHeads.label2id self
    ∧ FlexibleHeads.id2label self' = FlexibleHeads.id2label self.
Proof.
  intros Hl Hn Hc Hok Hfree. unfold FlexibleHeads.add_prediction_head.
  assert (negb (has_key (FlexibleHeads.name head) (FlexibleHeads.heads self)) || overwrite_ok
          = true) as ->.
  { by destruct (has_key _ _), overwrite_ok. }
  rewrite Hok. unfold FlexibleHeads.fill_label2id. rewrite Hl, Hn, Hc.
  unfold FlexibleHeads.set_active_head. simpl. rewrite lookup_insert_eq. simpl. rewrite Hl.
  eexists. split; [done|]. simpl. by rewrite !lookup_insert_eq.
Qed.
End HeadFacts.

Lemma add_prediction_head_activates_witness :
  ∃ self',
    FlexibleHeads.add_prediction_head AddExamples.plain_name AddExamples.name_error
      (FlexibleExamples.tagger (Some FlexibleExamples.tags)) false FlexibleExamples.bare
    = (Value (), self')
    ∧ FlexibleHeads._active_head self' = Some "ner"
    ∧ (∀ all_outputs a,
         Heads.forward_head (FlexibleHeads.dispatch self') all_outputs None a
         = Ok (S all_outputs))
    ∧ (∀ other, other ≠ "ner" →
         FlexibleHeads.heads self' !! other = FlexibleHeads.heads FlexibleExamples.bare !! other)
    ∧ FlexibleHeads.prediction_heads self' !! "ner"
      = FlexibleHeads.config <$> (FlexibleHeads.heads self' !! "ner").
Proof.
  exact (add_prediction_head_activates AddExamples.plain_name AddExamples.name_error
           (FlexibleExamples.tagger (Some FlexibleExamples.tags)) false FlexibleExamples.bare
           "tagging" 2 1 (PAtom (AStr "tanh")) (Some FlexibleExamples.tags)
           eq_refl eq_refl ltac:(done)).
Defined.

Lemma given_labels_round_trip_witness :
  ∃ self',
    FlexibleHeads.add_prediction_head AddExamples.plain_name AddExamples.name_error
      (FlexibleExamples.tagger (Some FlexibleExamples.tags)) false FlexibleExamples.bare
    = (Value (), self')
    ∧ FlexibleHeads.label2id self' = PDict [ ("O", AInt 0); ("B", AInt 1) ]
    ∧ FlexibleHeads.id2label self' = Some FlexibleExamples.tags
    ∧ FlexibleHeads.get_labels_dict None self' = Value (Some FlexibleExamples.tags)
    ∧ FlexibleHeads.get_labels None self' = Value (Some ["O"; "B"]).
Proof.
  apply (given_labels_round_trip AddExamples.plain_name AddExamples.name_error
           (FlexibleExamples.tagger (Some FlexibleExamples.tags)) false FlexibleExamples.bare
           "tagging" 2 1 (PAtom (AStr "tanh")) FlexibleExamples.tags).
  - reflexivity.
  - reflexivity.
  - reflexivity.
  - done.
  - apply (bool_decide_unpack _). by vm_compute.
  - apply (bool_decide_unpack _). by vm_compute.
Defined.

Lemma default_labels_generated_witness :
  ∃ self',
    FlexibleHeads.add_prediction_head AddExamples.plain_name AddExamples.name_error
      (FlexibleExamples.tagger None) false FlexibleExamples.bare
    = (Value (), self')
    ∧ FlexibleHeads.id2label self' = Some [ (AInt 0, "LABEL_0"); (AInt 1, "LABEL_1") ]
    ∧ FlexibleHeads.get_labels None self' = Value (Some [ "LABEL_0"; "LABEL_1" ]).
Proof.
  apply (default_labels_generated AddExamples.plain_name AddExamples.name_error
           (FlexibleExamples.tagger None) false FlexibleExamples.bare
           "tagging" 2 1 (PAtom (AStr "tanh")) None).
  - reflexivity.
  - reflexivity.
  - reflexivity.
  - by left.
Defined.

Lemma head_without_labels_raises_witness :
  ∃ self',
    FlexibleHeads.add_prediction_head AddExamples.plain_name AddExamples.name_error
      FlexibleExamples.custom false FlexibleExamples.bare
    = (Exception (PyExn (KeyError "label2id")), self')
    ∧ FlexibleHeads._active_head self' = Some "probe"
    ∧ FlexibleHeads.config <$> (FlexibleHeads.heads self' !! "probe")
      = Some (FlexibleHeads.config FlexibleExamples.custom)
    ∧ FlexibleHeads.prediction_heads self' !! "probe"
      = Some (FlexibleHeads.config FlexibleExamples.custom)
    ∧ FlexibleHeads.label2id self' = FlexibleHeads.label2id FlexibleExamples.bare
    ∧ FlexibleHeads.id2label self' = FlexibleHeads.id2label FlexibleExamples.bare.
Proof.
  apply (head_without_labels_raises AddExamples.plain_name AddExamples.name_error
           FlexibleExamples.custom false FlexibleExamples.bare); reflexivity.
Defined.

(** * The tagging head *)

Lemma view_rows_concat (n : Z) (rows : matrix) :
  (0 < n)%Z → Forall (λ row, length row = Z.to_nat n) rows →
  TaggingHead.view_rows n (concat rows) = Ok rows.
Proof.
  intros Hn Hrows. unfold TaggingHead.view_rows.
  assert (Hlen : length (concat rows) = length rows * Z.to_nat n).
  { induction Hrows as [|row rows Hrow _ IH]; [done|].
    simpl. rewrite length_app, IH, Hrow. lia. }
  assert (Hpos : 0 < Z.to_nat n) by lia.
  rewrite (proj2 (Z.ltb_lt 0 n) Hn).
  assert ((Z.of_nat (length (concat rows)) mod n =? 0)%Z = true) as ->.
  { apply Z.eqb_eq. rewrite Hlen, Nat2Z.inj_mul, Z2Nat.id by lia. apply Z_mod_mult. }
  simpl. f_equal. rewrite Hlen, Nat.div_mul by lia.
  clear Hlen. induction Hrows as [|row rows Hrow Hrows IH]; [done|].
  cbn [length seq map concat]. f_equal.
  - rewrite Nat.mul_0_l, drop_0, take_app_length'; done.
  - rewrite <- seq_shift, map_map. rewrite <- IH at 2. apply map_ext. intros i.
    f_equal. replace (S i * Z.to_nat n) with (length row + i * Z.to_nat n) by lia.
    by rewrite drop_app_add.
Qed.

Lemma where_same_length (condition : list bool) (x : list Z) (y : Z) :
  length condition = length x →
  TaggingHead.where_ condition x y = Ok (zip_with (λ (c : bool) v, if c then v else y) condition x).
Proof.
  intros Hlen. unfold TaggingHead.where_, broadcast.
  rewrite (proj2 (Nat.eqb_eq _ _) Hlen).
  rewrite (traverse_pure _ (λ p : bool * Z, if p.1 then p.2 else y)) by done.
  f_equal. clear Hlen. revert x. induction condition as [|c cs IH]; intros [|v x]; simpl; try done.
  by rewrite IH.
Qed.

Section TaggingFacts.
Variable nll : vec → nat → Qc.

Lemma masked_terms (rows : matrix) (labels attention_mask : list Z) :
  length rows = length labels → length labels = length attention_mask →
  match traverse (λ p : vec * Z, Heads.loss_term nll TaggingHead.ignore_index p.1 p.2)
          (zip rows (zip_with (λ (c : bool) v, if c then v else TaggingHead.ignore_index)
                       (map (λ m : Z, (m =? 1)%Z) attention_mask) labels)),
        traverse (λ p : vec * Z, Heads.loss_term nll TaggingHead.ignore_index p.1 p.2)
          (zip (active_positions attention_mask rows)
               (active_positions attention_mask labels)) with
  | Ok terms, Ok terms' => omap id terms = omap id terms'
  | Err e, Err e' => e = e'
  | _, _ => False
  end.
Proof.
  revert labels attention_mask.
  induction rows as [|row rows IH]; intros [|l labels] [|m attention_mask] Hl Hm; try done.
  injection Hl as Hl. injection Hm as Hm. specialize (IH labels attention_mask Hl Hm).
  unfold active_positions in *. cbn [map zip_with zip traverse]. rewrite !filter_cons.
  cbn [snd fst]. destruct (Z.eqb_spec m 1) as [-> | Hne].
  - rewrite !decide_True by done. cbn [fmap list_fmap zip zip_with traverse fst snd].
    destruct (Heads.loss_term nll TaggingHead.ignore_index row l) as [term|e]; [|done].
    match type of IH with
    | match ?T1 with Ok _ => _ | Err _ => _ end => destruct T1 as [t|e]
    end;
    match type of IH with
    | match ?T2 with Ok _ => _ | Err _ => _ end => destruct T2 as [t'|e']
    end; simpl; try done.
    change (omap id t = omap id t') in IH. unfold omap in IH. by rewrite IH.
  - rewrite !decide_False by done.
    assert (Heads.loss_term nll TaggingHead.ignore_index row TaggingHead.ignore_index
            = Ok None) as ->.
    { unfold Heads.loss_term. by rewrite Z.eqb_refl. }
    match type of IH with
    | match ?T1 with Ok _ => _ | Err _ => _ end => destruct T1 as [t|e]
    end;
    match type of IH with
    | match ?T2 with Ok _ => _ | Err _ => _ end => destruct T2 as [t'|e']
    end; simpl; done.
Qed.

Lemma active_positions_length {A B} (attention_mask : list Z) (l : list A) (k : list B) :
  length l = length attention_mask → length k = length attention_mask →
  length (active_positions attention_mask l) = length (active_positions attention_mask k).
Proof.
  unfold active_positions. revert l k.
  induction attention_mask as [|m ms IH]; intros [|a l] [|b k] Hl Hk; try done.
  injection Hl as Hl. injection Hk as Hk. cbn [zip zip_with]. rewrite !filter_cons.
  cbn [snd]. pose proof (IH l k Hl Hk) as IH'. rewrite !length_fmap in IH'.
  case_decide; rewrite !length_fmap; simpl; by rewrite IH'.
Qed.

(** With an attention mask, the loss of the tagging head is the loss over
    the positions where the mask is [1]: the logits and labels of the other
    positions do not enter it, whatever these labels are. *)
Theorem tagging_loss_skips_masked (config : instance) (logits : list matrix)
    (labels attention_mask : list (list Z)) (n : Z) :
  config !! "num_labels" = Some (PAtom (AInt n)) → (0 < n)%Z →
  Forall (λ row, length row = Z.to_nat n) (concat logits) →
  length (concat logits) = length (concat labels) →
  length (concat labels) = length (concat attention_mask) →
  TaggingHead.forward nll config logits (Some labels) (Some attention_mask)
  = (loss ← Heads.cross_entropy nll TaggingHead.ignore_index
              (active_positions (concat attention_mask) (concat logits))
              (Heads.Labels1 (active_positions (concat attention_mask) (concat labels)));
     Ok {| TaggingHead.loss := Some loss; TaggingHead.logits := logits |}).
Proof.
  intros Hconfig Hn Hrows Hl Hm. unfold TaggingHead.forward. rewrite Hconfig. simpl.
  rewrite view_rows_concat by done. simpl.
  rewrite where_same_length by (by rewrite length_map). simpl.
  f_equal. unfold Heads.cross_entropy.
  rewrite length_zip_with, length_map, <- Hm, Nat.min_id, Hl, Nat.eqb_refl.
  rewrite (active_positions_length _ (concat logits) (concat labels)), Nat.eqb_refl
    by congruence.
  simpl. pose proof (masked_terms (concat logits) (concat labels) (concat attention_mask)
                       Hl Hm) as Hterms.
  match type of Hterms with
  | match ?T1 with Ok _ => _ | Err _ => _ end => destruct T1 as [t|e]
  end;
  match type of Hterms with
  | match ?T2 with Ok _ => _ | Err _ => _ end => destruct T2 as [t'|e']
  end; simpl; try done.
  - by rewrite Hterms.
  - by rewrite Hterms.
Qed.
End TaggingFacts.

Lemma tagging_loss_skips_masked_witness :
  TaggingHead.forward HeadExamples.negated_logit TaggingExamples.config
    TaggingExamples.logits (Some TaggingExamples.labels)
    (Some TaggingExamples.attention_mask)
  = (loss ← Heads.cross_entropy HeadExamples.negated_logit TaggingHead.ignore_index
              (active_positions (concat TaggingExamples.attention_mask)
                 (concat TaggingExamples.logits))
              (Heads.Labels1 (active_positions (concat TaggingExamples.attention_mask)
                                (concat TaggingExamples.labels)));
     Ok {| TaggingHead.loss := Some loss; TaggingHead.logits := TaggingExamples.logits |}).
Proof.
  apply (tagging_loss_skips_masked HeadExamples.negated_logit TaggingExamples.config
           TaggingExamples.logits TaggingExamples.labels TaggingExamples.attention_mask 2).
  - reflexivity.
  - lia.
  - repeat constructor.
  - reflexivity.
  - reflexivity.
Defined.

(** * The layers of a head *)



(** * Adding an adapter at a MergedLinear injection point *)

Lemma conv1d_shape (input weight : matrix) (groups r k n : nat) :
  0 < groups → 0 < r → 0 < k →
  shape_is (r * groups) n input = true →
  shape_is (k * groups) r weight = true →
  ∃ d, MergedLinear.conv1d input weight groups = Ok d ∧ shape_is (k * groups) n d = true.
Proof.
  intros Hg Hr Hk [Hil Hir]%shape_is_spec [Hwl Hwr]%shape_is_spec.
  unfold MergedLinear.conv1d. rewrite Hil, Hwl, !Nat.Div0.mod_mul, !Nat.div_mul by lia.
  rewrite (proj2 (Nat.eqb_neq groups 0)) by lia. simpl.
  rewrite (proj2 (forallb_forall _ weight)).
  2:{ intros row Hrow%list_elem_of_In. apply Nat.eqb_eq.
      rewrite Forall_forall in Hwr. by apply Hwr. }
  simpl. eexists. split; [done|]. apply shape_is_spec. split.
  - by rewrite length_imap.
  - apply Forall_forall. intros out (j & row & -> & Hj)%elem_of_lookup_imap.
    rewrite length_map. unfold transpose. rewrite length_map, length_seq.
    apply lookup_lt_Some in Hj. rewrite Hwl in Hj.
    assert (Hq : j / k < groups) by (apply Nat.Div0.div_lt_upper_bound; lia).
    apply (cols_shape r n); [|done]. apply shape_is_spec. split.
    + rewrite length_take, length_drop, Hil. nia.
    + apply Forall_take, Forall_drop. done.
Qed.

Lemma reshape_rows (width : nat) (x : matrix) :
  0 < width → Forall (λ row, length row = width) x →
  MergedLinear.reshape width x = Ok x.
Proof.
  intros Hw Hrows. unfold MergedLinear.reshape.
  assert (Hlen : length (concat x) = length x * width).
  { induction Hrows as [|row rows Hrow _ IH]; [done|].
    simpl. rewrite length_app, IH, Hrow. lia. }
  rewrite Hlen, Nat.Div0.mod_mul, Nat.div_mul by lia.
  rewrite (proj2 (Nat.eqb_neq width 0)) by lia. simpl. f_equal.
  clear Hlen. induction Hrows as [|row rows Hrow Hrows IH]; [done|].
  cbn [length seq map concat]. f_equal.
  - rewrite Nat.mul_0_l, drop_0, take_app_length'; done.
  - rewrite <- seq_shift, map_map. rewrite <- IH at 2. apply map_ext. intros i.
    f_equal. replace (S i * width) with (length row + i * width) by lia.
    by rewrite drop_app_add.
Qed.

Lemma count_true_app (l l' : list bool) :
  MergedLinear.count_true (l ++ l') = MergedLinear.count_true l + MergedLinear.count_true l'.
Proof. unfold MergedLinear.count_true. by rewrite filter_app, length_app. Qed.

Lemma count_true_replicate (k : nat) (b : bool) :
  MergedLinear.count_true (replicate k b) = if b then k else 0.
Proof.
  unfold MergedLinear.count_true. induction k as [|k IH]; [by destruct b|].
  simpl. rewrite filter_cons. destruct b; simpl; [by rewrite IH|done].
Qed.

Lemma mask_counts (k : nat) (enable : list bool) :
  length (concat (map (replicate k) enable)) = k * length enable
  ∧ MergedLinear.count_true (concat (map (replicate k) enable))
    = k * MergedLinear.count_true enable.
Proof.
  induction enable as [|b enable [IH1 IH2]]; simpl; [split; [lia|]|].
  - unfold MergedLinear.count_true. simpl. lia.
  - rewrite length_app, length_replicate, count_true_app, count_true_replicate, IH1, IH2.
    split; [lia|]. unfold MergedLinear.count_true at 2. rewrite filter_cons.
    destruct b; simpl; unfold MergedLinear.count_true; lia.
Qed.

Lemma enabled_count (attn_matrices : list string) :
  NoDup attn_matrices →
  (∀ key, key ∈ attn_matrices → key ∈ ["q"; "k"; "v"]) →
  length attn_matrices
  = MergedLinear.count_true [ bool_decide ("q" ∈ attn_matrices);
                              bool_decide ("k" ∈ attn_matrices);
                              bool_decide ("v" ∈ attn_matrices) ].
Proof.
  intros Hnd Hsub.
  assert (Hperm : attn_matrices ≡ₚ filter (λ key, key ∈ attn_matrices) ["q"; "k"; "v"]).
  { apply NoDup_Permutation; [done| |].
    - apply NoDup_filter. apply (bool_decide_unpack _). by vm_compute.
    - intros key. rewrite list_elem_of_filter. split; [|by intros [? _]].
      intros Hin. split; [done|by apply Hsub]. }
  rewrite Hperm at 1. unfold MergedLinear.count_true.
  destruct (decide ("q" ∈ attn_matrices)), (decide ("k" ∈ attn_matrices)),
    (decide ("v" ∈ attn_matrices));
    repeat (rewrite bool_decide_eq_true_2 by done);
    repeat (rewrite bool_decide_eq_false_2 by done);
    rewrite !filter_cons, !filter_nil; repeat case_decide; done.
Qed.

Lemma enabled_count_set (attn_matrices : list string) :
  (∀ key, key ∈ attn_matrices → key ∈ ["q"; "k"; "v"]) →
  length (remove_dups attn_matrices)
  = MergedLinear.count_true [ bool_decide ("q" ∈ attn_matrices);
                              bool_decide ("k" ∈ attn_matrices);
                              bool_decide ("v" ∈ attn_matrices) ].
Proof.
  intros Hsub. rewrite enabled_count.
  - unfold MergedLinear.count_true.
    by rewrite !(bool_decide_ext _ _ (elem_of_remove_dups attn_matrices _)).
  - apply NoDup_remove_dups.
  - intros key Hkey. apply Hsub. by apply elem_of_remove_dups.
Qed.

Lemma zero_pad_fits (self : Layer) (x : matrix) (lora : LoRA) (k : nat) :
  length (enable_lora lora) = 3 → out_features self = 3 * k →
  lora_ind lora = Some (concat (map (replicate k) (enable_lora lora))) →
  0 < k * MergedLinear.count_true (enable_lora lora) →
  Forall (λ row, length row = k * MergedLinear.count_true (enable_lora lora)) x →
  ∃ p, MergedLinear.zero_pad self x lora = Ok p.
Proof.
  intros Hthree Hout Hind Hpos Hrows. unfold MergedLinear.zero_pad.
  destruct (mask_counts k (enable_lora lora)) as [Hlen Hcount].
  rewrite Hthree, Hout, Nat.mul_comm, Nat.div_mul by lia.
  rewrite reshape_rows by done. simpl. rewrite Hind. simpl.
  rewrite Hlen, Hthree, Nat.eqb_refl.
  assert (MergedLinear.expand_to (length x) x = Ok x) as ->.
  { unfold MergedLinear.expand_to. by rewrite Nat.eqb_refl. }
  cbn [negb mbind res_bind].
  rewrite (traverse_pure _ id).
  - by eexists.
  - intros row Hrow. unfold MergedLinear.expand_to. rewrite Hcount.
    rewrite Forall_forall in Hrows. by rewrite (Hrows row Hrow), Nat.eqb_refl.
Qed.
Section MergedAdd.
Variable draw : string → string → nat * nat → matrix.
Variable nn_Dropout : Qc → try (matrix → matrix).
Variable module_name_ok : string → bool.
Variable module_name_error : string → pyexn.

Lemma any_count_true (l : list bool) :
  0 < MergedLinear.count_true l → MergedLinear.any l = true.
Proof.
  unfold MergedLinear.count_true, MergedLinear.any. induction l as [|[] l IH]; simpl.
  - lia.
  - done.
  - rewrite filter_cons. simpl. apply IH.
Qed.

(** An adapter that [add_adapter] adds to a [MergedLinear] point gets
    tensors that fit the layer: when the layer stores its weight as
    [(fan_in, fan_out)] with three equal blocks of output features and the
    adapter is for some of the matrices q, k and v, the call returns, and
    the module has the shapes of the layer, and in the "add" mode
    [merge_lora] followed by [reset_lora] returns and gives back the
    weight.  The initialiser is to give each parameter its requested
    shape, the module dictionary to refuse the empty name, and
    [nn.Dropout] to accept the dropout rate. *)
Theorem merged_linear_added_adapter_fits (config : LoRAConfig.t) (name : string)
    (self : Layer) (k : nat) :
  (∀ init param shape, shape_is shape.1 shape.2 (draw init param shape) = true) →
  module_name_ok "" = false → module_name_ok name = true →
  ((Q2Qc 0 < LoRAConfig.dropout config)%Qc →
     ∃ f, nn_Dropout (LoRAConfig.dropout config) = Value f) →
  fan_in_fan_out self = true →
  out_features self = 3 * k → 0 < k → 0 < in_features self →
  shape_is (in_features self) (out_features self) (weight self) = true →
  loras self !! "" = None →
  marker_truthy (merged self) = false →
  (0 < LoRAConfig.r config)%Z →
  LoRAConfig.no_decomposition config = false →
  LoRAConfig.init_weights config = "lora" ∨ LoRAConfig.init_weights config = "bert" →
  LoRAConfig.composition_mode config = "add" →
  LoRAConfig.attn_matrices config ≠ [] →
  (∀ key, key ∈ LoRAConfig.attn_matrices config → key ∈ ["q"; "k"; "v"]) →
  ∃ self' lora merged_layer restored,
    MergedLinear_add_adapter draw nn_Dropout module_name_ok module_name_error (Some config) name self
    = (Value (), self')
    ∧ loras self' !! name = Some lora
    ∧ weight self' = weight self
    ∧ merged_well_shaped self' lora = true
    ∧ MergedLinear.merge_lora name self' = Returns () merged_layer
    ∧ merged merged_layer = MName name
    ∧ MergedLinear.reset_lora merged_layer = Returns () restored
    ∧ weight restored = weight self
    ∧ merged restored = MNone.
Proof.
  intros Hdraw Hempty Hok [f Hf]%dropout_accepted Hfan Hout Hk Hin HW Hnone Hunmerged Hr Hno
    Hinit Hmode Hattn Hsub.
  assert (Hname : name ≠ "") by (intros ->; congruence).
  set (enable := [ bool_decide ("q" ∈ LoRAConfig.attn_matrices config);
                   bool_decide ("k" ∈ LoRAConfig.attn_matrices config);
                   bool_decide ("v" ∈ LoRAConfig.attn_matrices config) ]).
  pose proof (enabled_count_set _ Hsub) as Hcount. fold enable in Hcount.
  assert (He : 0 < MergedLinear.count_true enable).
  { rewrite <- Hcount. destruct (LoRAConfig.attn_matrices config) as [|key l] eqn:Hl; [done|].
    assert (key ∈ remove_dups (key :: l)) as Hin' by (apply elem_of_remove_dups; by left).
    destruct (remove_dups (key :: l)); [by apply elem_of_nil in Hin'|simpl; lia]. }
  set (e := MergedLinear.count_true enable) in *.
  set (rank := Z.to_nat (LoRAConfig.r config)).
  assert (Hrank : 0 < rank) by (unfold rank; lia).
  set (shapes := MergedLinear._get_lora_shapes self (LoRAConfig.r config)
                   (length (remove_dups (LoRAConfig.attn_matrices config)))).
  assert (Hshapes : shapes = ((rank * e, in_features self), (k * e, rank))).
  { unfold shapes, MergedLinear._get_lora_shapes. rewrite Hcount, Hout.
    by rewrite (Nat.mul_comm 3 k), Nat.div_mul by lia. }
  assert (Hinit' : ∃ a b,
             LoRA__init__ draw nn_Dropout shapes.1 shapes.2 config
             = Value {| r := LoRAConfig.r config; lora_alpha := LoRAConfig.alpha config;
                        composition_mode := LoRAConfig.composition_mode config;
                        no_decomposition := LoRAConfig.no_decomposition config;
                        lora_dropout := f;
                        lora_A := a; lora_B := b; enable_lora := []; lora_ind := None |}
             ∧ shape_is (rank * e) (in_features self) a = true
             ∧ shape_is (k * e) rank b = true).
  { unfold LoRA__init__. rewrite Hshapes, Hf. simpl. rewrite Hno, andb_false_r.
    rewrite (proj2 (Z.ltb_lt 0 _) Hr). simpl.
    destruct Hinit as [-> | ->]; simpl; eexists _, _; (split; [done|]);
      split; try apply (Hdraw _ _ (_, _)); apply (zeros_shape (_, _)). }
  destruct Hinit' as (a & b & Hinit' & Ha & Hb).
  set (mask := concat (map (replicate k) enable)).
  set (lora := {| r := LoRAConfig.r config; lora_alpha := LoRAConfig.alpha config;
                  composition_mode := LoRAConfig.composition_mode config;
                  no_decomposition := LoRAConfig.no_decomposition config;
                  lora_dropout := f;
                  lora_A := a; lora_B := b; enable_lora := enable;
                  lora_ind := Some mask |}).
  set (self' := set_loras (<[name := lora]> (loras self)) self).
  assert (Hadd : MergedLinear_add_adapter draw nn_Dropout module_name_ok module_name_error (Some config)
                   name self = (Value (), self')).
  { unfold MergedLinear_add_adapter, LoRALayer_add_adapter. fold shapes.
    rewrite Hinit', Hok. cbn [loras set_loras]. rewrite lookup_insert_eq. fold enable.
    rewrite (any_count_true enable He). unfold lora_ind_mask.
    cbn [out_features set_loras]. change (length enable) with 3.
    rewrite Hout, (Nat.mul_comm 3 k), Nat.Div0.mod_mul, Nat.div_mul by lia.
    cbn [Nat.eqb negb]. cbn [loras set_loras].
    unfold self', lora, mask. by rewrite insert_insert_eq. }
  destruct (conv1d_shape a b e rank k (in_features self) He Hrank Hk Ha Hb)
    as (d0 & Hconv & Hd0).
  assert (Hd : MergedLinear.delta_w self' lora = Ok (transpose d0)).
  { unfold MergedLinear.delta_w. simpl. rewrite Hno. fold e. rewrite Hconv. simpl.
    unfold T. simpl. by rewrite Hfan. }
  assert (Hdshape : shape_is (in_features self) (k * e) (transpose d0) = true).
  { apply transpose_shape; [done|nia]. }
  apply shape_is_spec in Hdshape as [Hdl Hdr].
  destruct (zero_pad_fits self' (transpose d0) lora k) as [p Hp]; try done.
  { simpl. fold e. nia. }
  destruct (merged_linear_undo self' name lora (transpose d0) p)
    as (merged_layer & restored & Hmerge & Hm & Hreset & Hw & Hmn).
  - unfold self'. simpl. apply lookup_insert_eq.
  - unfold self'. simpl. by rewrite lookup_insert_ne.
  - done.
  - done.
  - done.
  - by rewrite Hdl.
  - by left.
  - exists self', lora, merged_layer, restored. split; [done|].
    split; [apply lookup_insert_eq|]. split; [done|]. split; [|done].
    unfold merged_well_shaped, self', lora.
    cbn [MergedLinear._get_lora_shapes fst snd set_loras fan_in_fan_out
           out_features in_features weight enable_lora lora_A lora_B lora_ind r].
    fold e rank. rewrite Hfan, Hout, (Nat.mul_comm 3 k), Nat.div_mul, Nat.eqb_refl by lia.
    rewrite (proj2 (Nat.ltb_lt 0 k) Hk), (proj2 (Nat.ltb_lt 0 _) Hin).
    rewrite <- (Nat.mul_comm 3 k), <- Hout, HW.
    rewrite (proj2 (Nat.ltb_lt 0 e) He), Ha, Hb, Nat.eqb_refl. simpl.
    by apply bool_decide_eq_true.
Qed.

(** When the output features of a [MergedLinear] point do not divide
    into three blocks, [add_adapter] for some of the matrices q, k and v
    raises the error of the tensor library, after the adapter was
    registered: the adapter stays in the layer without its index mask, so
    that no update of it can be padded any more. *)
Theorem merged_linear_add_without_blocks (config : LoRAConfig.t) (name : string)
    (self : Layer) :
  module_name_ok name = true →
  ((Q2Qc 0 < LoRAConfig.dropout config)%Qc →
     ∃ f, nn_Dropout (LoRAConfig.dropout config) = Value f) →
  out_features self mod 3 ≠ 0 →
  (0 < LoRAConfig.r config)%Z →
  LoRAConfig.no_decomposition config = false →
  LoRAConfig.init_weights config = "lora" ∨ LoRAConfig.init_weights config = "bert" →
  (∃ key, key ∈ LoRAConfig.attn_matrices config ∧ key ∈ ["q"; "k"; "v"]) →
  ∃ self' lora,
    MergedLinear_add_adapter draw nn_Dropout module_name_ok module_name_error (Some config) name self
    = (Exception (PyExn RuntimeError), self')
    ∧ loras self' !! name = Some lora
    ∧ lora_ind lora = None
    ∧ weight self' = weight self
    ∧ merged self' = merged self
    ∧ (∀ other, other ≠ name → loras self' !! other = loras self !! other)
    ∧ (∀ x p, MergedLinear.zero_pad self' x lora ≠ Ok p).
Proof.
  intros Hok [f Hf]%dropout_accepted Hout Hr Hno Hinit (key & Hkey & Hqkv).
  set (enable := [ bool_decide ("q" ∈ LoRAConfig.attn_matrices config);
                   bool_decide ("k" ∈ LoRAConfig.attn_matrices config);
                   bool_decide ("v" ∈ LoRAConfig.attn_matrices config) ]).
  assert (Hany : MergedLinear.any enable = true).
  { unfold MergedLinear.any, enable. simpl.
    apply elem_of_cons in Hqkv as [-> | Hqkv]; [by rewrite bool_decide_eq_true_2|].
    apply elem_of_cons in Hqkv as [-> | Hqkv];
      [rewrite (bool_decide_eq_true_2 ("k" ∈ _)) by done; by rewrite orb_true_r|].
    apply elem_of_cons in Hqkv as [-> | Hqkv]; [|by apply elem_of_nil in Hqkv].
    rewrite (bool_decide_eq_true_2 ("v" ∈ _)) by done. by rewrite !orb_true_r. }
  unfold MergedLinear_add_adapter, LoRALayer_add_adapter.
  destruct (LoRA__init__ draw nn_Dropout _ _ config) as [lora|e] eqn:Hlora.
  2:{ exfalso. unfold LoRA__init__ in Hlora. rewrite Hf in Hlora. simpl in Hlora.
      rewrite Hno, andb_false_r in Hlora.
      rewrite (proj2 (Z.ltb_lt 0 _) Hr) in Hlora. by destruct Hinit as [Hi | Hi];
        rewrite Hi in Hlora. }
  rewrite Hok. cbn [loras set_loras]. rewrite lookup_insert_eq. fold enable. rewrite Hany.
  unfold lora_ind_mask. cbn [out_features set_loras]. change (length enable) with 3.
  rewrite (proj2 (Nat.eqb_neq _ 0) Hout). cbn [negb].
  eexists _, _. split; [done|]. cbn [loras set_loras weight merged].
  rewrite insert_insert_eq, lookup_insert_eq. split; [done|]. split; [done|].
  split; [done|]. split; [done|]. split.
  - intros other Hother. by rewrite lookup_insert_ne.
  - intros x p. unfold MergedLinear.zero_pad. cbn [lora_ind].
    by destruct (MergedLinear.reshape _ x).
Qed.
End MergedAdd.

Lemma merged_linear_added_adapter_fits_witness :
  ∃ self' lora merged_layer restored,
    MergedLinear_add_adapter AddExamples.ones AddExamples.eval_dropout
      AddExamples.plain_name AddExamples.name_error (Some AddExamples.config) "task" MergedExamples.point
    = (Value (), self')
    ∧ loras self' !! "task" = Some lora
    ∧ weight self' = weight MergedExamples.point
    ∧ merged_well_shaped self' lora = true
    ∧ MergedLinear.merge_lora "task" self' = Returns () merged_layer
    ∧ merged merged_layer = MName "task"
    ∧ MergedLinear.reset_lora merged_layer = Returns () restored
    ∧ weight restored = weight MergedExamples.point
    ∧ merged restored = MNone.
Proof.
  apply (merged_linear_added_adapter_fits AddExamples.ones AddExamples.eval_dropout
           AddExamples.plain_name AddExamples.name_error AddExamples.config "task" MergedExamples.point 1).
  - intros init param shape. apply shape_is_spec. unfold AddExamples.ones.
    split; [apply length_replicate|]. apply Forall_replicate, length_replicate.
  - reflexivity.
  - reflexivity.
  - intros _. by eexists.
  - reflexivity.
  - reflexivity.
  - lia.
  - simpl. lia.
  - reflexivity.
  - reflexivity.
  - reflexivity.
  - reflexivity.
  - reflexivity.
  - by left.
  - reflexivity.
  - discriminate.
  - intros key Hkey. simpl in Hkey. apply elem_of_cons in Hkey as [-> | Hkey].
    + by left.
    + apply elem_of_cons in Hkey as [-> | Hkey]; [|by apply elem_of_nil in Hkey].
      right. right. by left.
Defined.

Lemma merged_linear_add_without_blocks_witness :
  ∃ self' lora,
    MergedLinear_add_adapter AddExamples.ones AddExamples.eval_dropout
      AddExamples.plain_name AddExamples.name_error (Some AddExamples.config) "task" AddExamples.query
    = (Exception (PyExn RuntimeError), self')
    ∧ loras self' !! "task" = Some lora
    ∧ lora_ind lora = None
    ∧ weight self' = weight AddExamples.query
    ∧ merged self' = merged AddExamples.query
    ∧ (∀ other, other ≠ "task" →
         loras self' !! other = loras AddExamples.query !! other)
    ∧ (∀ x p, MergedLinear.zero_pad self' x lora ≠ Ok p).
Proof.
  apply (merged_linear_add_without_blocks AddExamples.ones AddExamples.eval_dropout
           AddExamples.plain_name AddExamples.name_error AddExamples.config "task" AddExamples.query).
  - reflexivity.
  - intros _. by eexists.
  - discriminate.
  - reflexivity.
  - reflexivity.
  - by left.
  - exists "q". split; by left.
Defined.

(** * Merging and the forward pass at a MergedLinear injection point *)




















